(** * Email-Memory: batch insert of unique contacts, with notification

    A shallow embedding of the two variants of the endpoint
    [POST /get-unique-emails]:

    - [campaign.js] (multi-campaign: one database per campaign, routed by
      the [campaign] header), and
    - [server2.js] (single database).

    JavaScript values are a small inductive type, the process-wide caches
    ([connections], [modelCache]) are finite maps in an explicit world, and
    every externally visible action (connection, query, batch insert, mail
    send, console output, HTTP response) is recorded in a chronological
    trace. *)

From Stdlib Require Import Ascii String ZArith.
From stdpp Require Import gmap strings list fin_maps pretty.

Local Open Scope string_scope.
Local Set Warnings "-register-all".

(** ** JavaScript values *)

(** A JSON number is identified by its canonical rendering
    ([Number.prototype.toString]); nothing in the handlers computes with a
    number taken from a payload. *)
Inductive jsval : Type :=
  | JUndef
  | JNull
  | JBool (b : bool)
  | JNum (repr : string)
  | JStr (s : string)
  | JArr (items : list jsval)
  | JObj (props : list (string * jsval)).

(** An error value: [code] is what [err.code] reads, [text] is what
    [err.toString()] prints. *)
Record jserror : Type := JsError { err_code : option Z; err_text : string }.

Definition TypeError (msg : string) : jserror :=
  {| err_code := None; err_text := "TypeError: " ++ msg |}.

Definition is_JObj (v : jsval) : bool :=
  match v with JObj _ => true | _ => false end.

(** Own properties of an object, first binding of a key wins. *)
Fixpoint obj_get (ps : list (string * jsval)) (k : string) : jsval :=
  match ps with
  | [] => JUndef
  | (k', v) :: ps' => if String.eqb k' k then v else obj_get ps' k
  end.

(** Writing a property keeps the position of an existing key and appends a
    new one, as property definition on an ordinary object does. *)
Fixpoint obj_set (ps : list (string * jsval)) (k : string) (v : jsval)
  : list (string * jsval) :=
  match ps with
  | [] => [(k, v)]
  | (k', v') :: ps' =>
      if String.eqb k' k then (k, v) :: ps' else (k', v') :: obj_set ps' k v
  end.

(** [v.k] for a payload value and a key that [Object.prototype],
    [Array.prototype] and [String.prototype] do not define ([contacts],
    [subject], [text], [email]): reading from [undefined] or [null] throws,
    a primitive or an array has no such property. *)
Definition js_prop (v : jsval) (k : string) : jserror + jsval :=
  match v with
  | JUndef => inl (TypeError ("Cannot read properties of undefined (reading '" ++ k ++ "')"))
  | JNull => inl (TypeError ("Cannot read properties of null (reading '" ++ k ++ "')"))
  | JObj ps => inr (obj_get ps k)
  | _ => inr JUndef
  end.

(** Own enumerable properties copied by the spread [{...c}]: those of an
    object; the indexed elements of an array; the indexed characters of a
    string (one index per byte here, which is exact for ASCII text); none
    for the other primitives. *)
Definition indexed {A} (f : A -> jsval) (l : list A) : list (string * jsval) :=
  imap (fun i x => (pretty i, f x)) l.

Definition spread (v : jsval) : list (string * jsval) :=
  match v with
  | JObj ps => ps
  | JArr l => indexed id l
  | JStr s => indexed (fun a => JStr (String a EmptyString)) (String.list_ascii_of_string s)
  | _ => []
  end.

(** [`${v}`]: the string conversion of a template literal. *)
Fixpoint js_toString (v : jsval) : string :=
  match v with
  | JUndef => "undefined"
  | JNull => "null"
  | JBool true => "true"
  | JBool false => "false"
  | JNum r => r
  | JStr s => s
  | JArr l =>
      let item x := match x with JUndef | JNull => "" | _ => js_toString x end in
      String.concat "," (map item l)
  | JObj _ => "[object Object]"
  end.

(** [s.toLowerCase()] on the bytes of [s]: ASCII capitals are folded, every
    other byte is kept. *)
Definition lower_ascii (a : ascii) : ascii :=
  let n := nat_of_ascii a in
  if (65 <=? n)%nat && (n <=? 90)%nat then ascii_of_nat (n + 32) else a.

Fixpoint toLowerCase (s : string) : string :=
  match s with
  | EmptyString => EmptyString
  | String a s' => String (lower_ascii a) (toLowerCase s')
  end.

(** Truthiness of what [req.header(name)] returns: [undefined] and the
    empty string are falsy. *)
Definition truthy_header (h : option string) : bool :=
  match h with
  | Some s => negb (String.eqb s "")
  | None => false
  end.

(** ** The document store

    The store is outside the repository.  It is modelled as the handlers
    use it: the contacts collection of one database, as the schema of both
    variants binds it (string paths, [email] required and covered by a
    unique index), with the [find] and [insertMany] of a Mongoose model.
    The [created_at] stamp depends on the wall clock and is left out. *)

Record doc : Type := Doc {
  d_user_id : option string;
  d_conversation_id : option string;
  d_name : option string;
  d_email : string;
  d_company : option string;
  d_Title : option string;
  d_Firm : option string;
  d_Country : option string;
  d_LinkedIn_URL : option string
}.

(** Casting to the schema type [String]: [None] is a cast error,
    [Some None] is [null]. *)
Definition castString (v : jsval) : option (option string) :=
  match v with
  | JUndef | JNull => Some None
  | JStr s => Some (Some s)
  | JNum r => Some (Some r)
  | JBool b => Some (Some (if b then "true" else "false"))
  | JArr _ => None
  | JObj ps =>
      match obj_get ps "_id" with
      | JStr s => if String.eqb s "" then None else Some (Some s)
      | _ => None
      end
  end.

(** A path with a schema default takes it when the value is [undefined]. *)
Definition cast_path (dflt : option string) (v : jsval) : option (option string) :=
  match v with
  | JUndef => Some dflt
  | _ => castString v
  end.

(** Building and validating a document from a plain object; [None] when a
    path fails to cast or the required [email] is missing or empty. *)
Definition validate (c : jsval) : option doc :=
  match c with
  | JObj ps =>
      uid ← cast_path None (obj_get ps "user_id");
      cid ← cast_path None (obj_get ps "conversation_id");
      name ← cast_path None (obj_get ps "name");
      email ← cast_path None (obj_get ps "email");
      company ← cast_path None (obj_get ps "company");
      title ← cast_path (Some "") (obj_get ps "Title");
      firm ← cast_path (Some "") (obj_get ps "Firm");
      country ← cast_path (Some "") (obj_get ps "Country");
      linkedin ← cast_path (Some "") (obj_get ps "LinkedIn URL");
      match email with
      | Some e =>
          if String.eqb e "" then None
          else Some (Doc uid cid name e company title firm country linkedin)
      | None => None
      end
  | _ => None
  end.

Definition emails_of (db : list doc) : list string := map d_email db.

Definition E11000 : jserror :=
  {| err_code := Some 11000%Z;
     err_text := "MongoBulkWriteError: E11000 duplicate key error" |}.

Definition CastError : jserror :=
  {| err_code := None; err_text := "CastError: Cast to string failed" |}.

Definition ValidationError : jserror :=
  {| err_code := None; err_text := "ValidationError: Contact validation failed" |}.

(** Writing documents one by one under the unique index on [email]: a
    document whose email is already stored is refused and the others are
    still written.  Returns the collection, the documents written and the
    number of refusals. *)
Fixpoint write_each (db : list doc) (ds : list doc) : list doc * list doc * nat :=
  match ds with
  | [] => (db, [], 0)
  | d :: ds' =>
      if bool_decide (d_email d ∈ emails_of db) then
        let '(db', ins, errs) := write_each db ds' in (db', ins, S errs)
      else
        let '(db', ins, errs) := write_each (db ++ [d]) ds' in (db', d :: ins, errs)
  end.

(** Writing in order, stopping at the first refusal. *)
Fixpoint write_until (db : list doc) (ds : list doc) : list doc * list doc * nat :=
  match ds with
  | [] => (db, [], 0)
  | d :: ds' =>
      if bool_decide (d_email d ∈ emails_of db) then (db, [], 1)
      else
        let '(db', ins, errs) := write_until (db ++ [d]) ds' in (db', d :: ins, errs)
  end.

(** [Model.find({ email: { $in: emails } })]: the stored documents whose
    email is one of the (cast) values, in storage order. *)
Definition db_find (db : list doc) (emails : list jsval) : jserror + list doc :=
  match mapM castString emails with
  | None => inl CastError
  | Some qs => inr (filter (fun d => Some (d_email d) ∈ qs) db)
  end.

(** [Model.insertMany(docs, { ordered })].  Unordered: documents failing
    validation are left out, every other document is attempted, and a
    duplicate-key refusal is reported once all were tried.  Ordered: a
    validation failure saves nothing, and writing stops at the first
    refusal. *)
Definition db_insertMany (ordered : bool) (db : list doc) (docs : list jsval)
  : list doc * (jserror + list doc) :=
  if ordered then
    match mapM validate docs with
    | None => (db, inl ValidationError)
    | Some ds =>
        let '(db', ins, errs) := write_until db ds in
        (db', match errs with O => inr ins | _ => inl E11000 end)
    end
  else
    let '(db', ins, errs) := write_each db (omap validate docs) in
    (db', match errs with O => inr ins | _ => inl E11000 end).

(** ** Requests, messages, the environment and the world *)

Record Request : Type := {
  req_headers : gmap string string;
  req_body : jsval
}.

(** [req.header(name)] *)
Definition req_header (r : Request) (name : string) : option string :=
  req_headers r !! name.

(** The message object handed to [sgMail.send]. *)
Record Msg : Type := {
  m_to : string;
  m_from : string;
  m_subject : jsval;
  m_text : jsval;
  m_html : string
}.

Record conn : Type := Conn { conn_id : nat; conn_uri : string }.

(** A compiled model: the connection it is bound to, its name and its
    collection. *)
Record model : Type := Model {
  model_conn : conn;
  model_name : string;
  model_collection : string
}.

(** What a property read on a plain object yields when the value is not one
    the program stored itself: a member of [Object.prototype]. *)
Inductive ref (V : Type) : Type :=
  | Ref (v : V)
  | Builtin (key : string).
Arguments Ref {V} v.
Arguments Builtin {V} key.

Inductive event : Type :=
  | EvConnect (c : conn)
  | EvOn (c : conn) (ev : string)
  | EvOnce (c : conn) (ev : string)
  | EvFind (m : model) (emails : list jsval)
  | EvInsertMany (m : model) (docs : list jsval) (ordered : bool)
  | EvSend (msg : Msg)
  | EvLog (line : string)
  | EvLogVal (v : jsval)
  | EvError (line : string)
  | EvRespond (status : nat) (body : jsval).

(** Everything outside the process: its configuration, the outcome of each
    mail send ([Some text] is a failure that prints as [text]), a failure of
    the store unrelated to the data (network, server), and the documents a
    concurrent request writes between this request's query and its insert. *)
Record Env : Type := {
  env_MONGO_URI : string;
  env_send : nat -> Msg -> option string;
  env_find_fault : option jserror;
  env_insert_fault : option jserror;
  env_concurrent : list doc
}.

Record World : Type := {
  connections : gmap string conn;
  modelCache : gmap string model;
  created : nat;
  dbs : gmap string (list doc);
  trace : list event
}.

Definition with_trace (w : World) (t : list event) : World :=
  {| connections := connections w; modelCache := modelCache w;
     created := created w; dbs := dbs w; trace := t |}.

Definition with_db (w : World) (uri : string) (db : list doc) : World :=
  {| connections := connections w; modelCache := modelCache w;
     created := created w; dbs := <[uri := db]> (dbs w); trace := trace w |}.

Definition db_of (w : World) (uri : string) : list doc :=
  default [] (dbs w !! uri).

(** ** A state-and-exception monad for the handlers *)

Definition M (A : Type) : Type := World -> World * (jserror + A).

Definition ret {A} (x : A) : M A := fun w => (w, inr x).

Definition bind {A B} (m : M A) (f : A -> M B) : M B :=
  fun w =>
    match m w with
    | (w', inr x) => f x w'
    | (w', inl e) => (w', inl e)
    end.

Definition throw {A} (e : jserror) : M A := fun w => (w, inl e).

Definition lift {A} (r : jserror + A) : M A := fun w => (w, r).

Definition emit (ev : event) : M unit :=
  fun w => (with_trace w (trace w ++ [ev]), inr tt).

(** [try { m } catch (err) { h err }] *)
Definition try_catch {A} (m : M A) (h : jserror -> M A) : M A :=
  fun w =>
    match m w with
    | (w', inl e) => h e w'
    | r => r
    end.

Declare Scope js_scope.
Delimit Scope js_scope with js.
Notation "'let!' x ':=' m 'in' k" := (bind m (fun x => k))
  (at level 10, x name, m at level 100, k at level 200) : js_scope.
Notation "m1 ';;;' m2" := (bind m1 (fun _ => m2))
  (at level 100, m2 at level 200, right associativity) : js_scope.
Local Open Scope js_scope.

(** ** Property reads on plain objects used as dictionaries

    [CAMPAIGNS], [connections] and [modelCache] are object literals, so
    [obj[key]] also finds the members of [Object.prototype]. *)

Definition Object_prototype : list string :=
  [ "constructor"; "__defineGetter__"; "__defineSetter__"; "hasOwnProperty";
    "__lookupGetter__"; "__lookupSetter__"; "isPrototypeOf";
    "propertyIsEnumerable"; "toString"; "valueOf"; "__proto__";
    "toLocaleString" ].

Inductive member (V : Type) : Type :=
  | Own (v : V)
  | Inherited
  | Missing.
Arguments Own {V} v.
Arguments Inherited {V}.
Arguments Missing {V}.

Definition js_lookup {V} (o : gmap string V) (k : string) : member V :=
  match o !! k with
  | Some v => Own v
  | None => if bool_decide (k ∈ Object_prototype) then Inherited else Missing
  end.

(** Truthiness when the own values are strings. *)
Definition truthy_string (m : member string) : bool :=
  match m with
  | Own s => negb (String.eqb s "")
  | Inherited => true
  | Missing => false
  end.

(** ** Code shared by the two variants (the same text in both files) *)

(** [contacts.map(c => c.email)] *)
Fixpoint incomingEmails (contacts : list jsval) : jserror + list jsval :=
  match contacts with
  | [] => inr []
  | c :: cs =>
      match js_prop c "email" with
      | inl e => inl e
      | inr v =>
          match incomingEmails cs with
          | inl e => inl e
          | inr vs => inr (v :: vs)
          end
      end
  end.

(** [c.email] once [incomingEmails] has read it without throwing *)
Definition email_of (c : jsval) : jsval :=
  match js_prop c "email" with
  | inr v => v
  | inl _ => JUndef
  end.

(** [new Set(existingDocs.map(doc => doc.email))] *)
Definition existingEmails (existingDocs : list doc) : gset string :=
  list_to_set (map d_email existingDocs).

(** [set.has(v)]: the members are strings, so only a string can be one. *)
Definition Set_has (s : gset string) (v : jsval) : bool :=
  match v with
  | JStr x => bool_decide (x ∈ s)
  | _ => false
  end.

(** [{ ...c, user_id, conversation_id }] *)
Definition augment (user_id conversation_id : string) (c : jsval) : jsval :=
  JObj (obj_set (obj_set (spread c) "user_id" (JStr user_id))
                "conversation_id" (JStr conversation_id)).

(** [contacts.filter(c => !existingEmails.has(c.email)).map(c => ({...}))] *)
Definition newContacts (user_id conversation_id : string)
    (existing : gset string) (contacts : list jsval) : list jsval :=
  map (augment user_id conversation_id)
      (List.filter (fun c => negb (Set_has existing (email_of c))) contacts).

Record recipient : Type := {
  r_name : option string;
  r_email : string;
  r_company : option string
}.

(** [inserted.map(({ name, email, company }) => ({ name, email, company }))] *)
Definition responseData (inserted : list doc) : list recipient :=
  map (fun d => {| r_name := d_name d; r_email := d_email d;
                   r_company := d_company d |}) inserted.

Definition json_opt (o : option string) : jsval :=
  match o with Some s => JStr s | None => JNull end.

Definition recipient_json (r : recipient) : jsval :=
  JObj [("name", json_opt (r_name r)); ("email", JStr (r_email r));
        ("company", json_opt (r_company r))].

Definition respond (status : nat) (body : jsval) : M unit :=
  emit (EvRespond status body).

Definition error_body (msg : string) : jsval := JObj [("error", JStr msg)].

Definition header_value (h : option string) : string := default "" h.

(** [Contact.find({ email: { $in: emails } })], awaited.  While the query
    is awaited the documents of a concurrent request may land. *)
Definition Model_find (E : Env) (Contact : ref model) (emails : list jsval)
  : M (list doc) :=
  match Contact with
  | Builtin _ => throw (TypeError "Contact.find is not a function")
  | Ref m =>
      emit (EvFind m emails);;;
      fun w =>
        let uri := conn_uri (model_conn m) in
        match env_find_fault E with
        | Some e => (w, inl e)
        | None =>
            let r := db_find (db_of w uri) emails in
            let '(db', _, _) := write_each (db_of w uri) (env_concurrent E) in
            (with_db w uri db', r)
        end
  end.

(** [Contact.insertMany(docs, { ordered })], awaited. *)
Definition Model_insertMany (E : Env) (Contact : ref model)
    (docs : list jsval) (ordered : bool) : M (list doc) :=
  match Contact with
  | Builtin _ => throw (TypeError "Contact.insertMany is not a function")
  | Ref m =>
      emit (EvInsertMany m docs ordered);;;
      fun w =>
        let uri := conn_uri (model_conn m) in
        match env_insert_fault E with
        | Some e => (w, inl e)
        | None =>
            let '(db', r) := db_insertMany ordered (db_of w uri) docs in
            (with_db w uri db', r)
        end
  end.

(** ** campaign.js: the multi-campaign variant *)

Module Campaign.

(** [const CAMPAIGNS = { campaign1: "campaign1_db", ... }] *)
Definition CAMPAIGNS : gmap string string :=
  list_to_map
    [ ("campaign1", "campaign1_db"); ("campaign2", "campaign2_db");
      ("campaign3", "campaign3_db"); ("campaign4", "campaign4_db");
      ("campaign5", "campaign5_db") ].

Definition BASE_MONGO_URI (E : Env) : string := env_MONGO_URI E.

(** [`${BASE_MONGO_URI}/${dbName}?retryWrites=true&w=majority`] *)
Definition connectionUri (E : Env) (dbName : string) : string :=
  BASE_MONGO_URI E ++ "/" ++ dbName ++ "?retryWrites=true&w=majority".

(** [`${v}`] for a member of [CAMPAIGNS]; an inherited member is a
    function or the prototype object. *)
Definition member_toString (k : string) (m : member string) : string :=
  match m with
  | Own s => s
  | Inherited =>
      if String.eqb k "__proto__" then "[object Object]"
      else "function " ++ k ++ "() { [native code] }"
  | Missing => "undefined"
  end.

(** [mongoose.createConnection(uri, options)]: a fresh handle *)
Definition createConnection (uri : string) : M conn :=
  fun w =>
    let c := Conn (created w) uri in
    ({| connections := connections w; modelCache := modelCache w;
        created := S (created w); dbs := dbs w;
        trace := trace w ++ [EvConnect c] |}, inr c).

(** [connections[campaignKey] = c] *)
Definition set_connection (campaignKey : string) (c : conn) : M unit :=
  fun w =>
    ({| connections := <[campaignKey := c]> (connections w);
        modelCache := modelCache w; created := created w; dbs := dbs w;
        trace := trace w |}, inr tt).

(** [modelCache[campaignKey] = m] *)
Definition set_model (campaignKey : string) (m : model) : M unit :=
  fun w =>
    ({| connections := connections w;
        modelCache := <[campaignKey := m]> (modelCache w);
        created := created w; dbs := dbs w; trace := trace w |}, inr tt).

Definition getCampaignConnection (E : Env) (campaignKey : string) : M (ref conn) :=
  if negb (truthy_string (js_lookup CAMPAIGNS campaignKey)) then
    throw {| err_code := None;
             err_text := "Error: ❌ Invalid campaign: " ++ campaignKey |}
  else
    fun w =>
      match js_lookup (connections w) campaignKey with
      | Missing =>
          let dbName := member_toString campaignKey (js_lookup CAMPAIGNS campaignKey) in
          (let! c := createConnection (connectionUri E dbName) in
           set_connection campaignKey c;;;
           emit (EvOn c "error");;;
           emit (EvOnce c "open");;;
           ret (Ref c)) w
      | Own c => (w, inr (Ref c))
      | Inherited => (w, inr (Builtin campaignKey))
      end.

Definition getContactModel (E : Env) (campaignKey : string) : M (ref model) :=
  fun w =>
    match js_lookup (modelCache w) campaignKey with
    | Own m => (w, inr (Ref m))
    | Inherited => (w, inr (Builtin campaignKey))
    | Missing =>
        (let! connection := getCampaignConnection E campaignKey in
         match connection with
         | Ref c =>
             let m := Model c "Contact" "contacts" in
             set_model campaignKey m;;;
             ret (Ref m)
         | Builtin _ => throw (TypeError "connection.model is not a function")
         end) w
    end.

Definition sender : string :=
  "Osteopathic Health Centre <wellness@osteopathydubai.com>".

(** The [msg] object literal of one callback of
    [responseData.map(async (email) => { ... })] *)
Definition msg (subject text : jsval) (email : recipient) : Msg :=
  let sendEmail := toLowerCase (r_email email) in
  {| m_to := sendEmail; m_from := sender; m_subject := subject;
     m_text := text; m_html := js_toString text |}.

(** The callbacks up to their [await]: [map] runs each of them until it
    has called [sgMail.send(msg)], so every send is started, in order,
    before any of them settles. *)
Fixpoint start_all (subject text : jsval) (rs : list recipient) : M unit :=
  match rs with
  | [] => ret tt
  | r :: rs' => emit (EvSend (msg subject text r));;; start_all subject text rs'
  end.

(** The rest of one callback, once its send has settled *)
Definition settle (E : Env) (campaign : string) (subject text : jsval)
    (i : nat) (email : recipient) : M unit :=
  let sendEmail := toLowerCase (r_email email) in
  match env_send E i (msg subject text email) with
  | None =>
      emit (EvLog ("✅ Email successfully sent to: " ++ sendEmail
                   ++ " (Campaign: " ++ campaign ++ ")"))
  | Some error =>
      emit (EvError ("❌ Failed to send email: " ++ sendEmail
                     ++ " (Campaign: " ++ campaign ++ ")"));;;
      emit (EvError error)
  end.

(** The callbacks resume as their sends settle; they are taken here in the
    order in which they were started. *)
Fixpoint settle_all (E : Env) (campaign : string) (subject text : jsval)
    (i : nat) (rs : list recipient) : M unit :=
  match rs with
  | [] => ret tt
  | r :: rs' =>
      settle E campaign subject text i r;;;
      settle_all E campaign subject text (S i) rs'
  end.

(** [await Promise.all(responseData.map(...))] *)
Definition send_all (E : Env) (campaign : string) (subject text : jsval)
    (rs : list recipient) : M unit :=
  start_all subject text rs;;;
  settle_all E campaign subject text 0 rs.

(** Lines 143-171: project the inserted documents, notify, respond. *)
Definition finish (E : Env) (campaign : string) (subject text : jsval)
    (inserted : list doc) : M unit :=
  let rd := responseData inserted in
  emit (EvLog ("✅ Inserted " ++ pretty (length inserted)
               ++ " contacts into campaign: " ++ campaign));;;
  send_all E campaign subject text rd;;;
  respond 200
    (JObj [("message", JStr ("Successfully processed for campaign: " ++ campaign));
           ("inserted", JNum (pretty (length rd)));
           ("campaign", JStr campaign)]).

Definition already_exist (campaign : string) : jsval :=
  JObj [("message", JStr "These emails already exist in this campaign.");
        ("campaign", JStr campaign)].

(** Lines 122-171: what follows the validation. *)
Definition process (E : Env) (campaign user_id conversation_id : string)
    (contacts : list jsval) (subject text : jsval) : M unit :=
  let! Contact := getContactModel E campaign in
  let! emails := lift (incomingEmails contacts) in
  let! existingDocs := Model_find E Contact emails in
  let new := newContacts user_id conversation_id
                         (existingEmails existingDocs) contacts in
  match new with
  | [] => respond 200 (already_exist campaign)
  | _ =>
      let! inserted := Model_insertMany E Contact new false in
      finish E campaign subject text inserted
  end.

(** The body of the [try] block *)
Definition handler_try (E : Env) (req : Request) : M unit :=
  let! contacts := lift (js_prop (req_body req) "contacts") in
  let! subject := lift (js_prop (req_body req) "subject") in
  let! text := lift (js_prop (req_body req) "text") in
  let user_id := req_header req "user_id" in
  let conversation_id := req_header req "conversation_id" in
  let campaign := req_header req "campaign" in
  if negb (truthy_header campaign) then
    respond 400 (error_body "Missing campaign header")
  else if negb (truthy_header user_id) || negb (truthy_header conversation_id) then
    respond 400 (error_body "Missing user_id or conversation_id in headers")
  else if negb (truthy_string (js_lookup CAMPAIGNS (header_value campaign))) then
    respond 400 (error_body "Invalid campaign! Please enter the correct campaign.")
  else
    match contacts with
    | JArr ((_ :: _) as cs) =>
        process E (header_value campaign) (header_value user_id)
                (header_value conversation_id) cs subject text
    | _ => respond 400 (error_body "Request must include an array of contacts")
    end.

(** The [catch (err)] block *)
Definition handler_catch (err : jserror) : M unit :=
  if bool_decide (err_code err = Some 11000%Z) then
    respond 201 (JArr [])
  else
    emit (EvError ("❌ Error in /get-unique-emails: " ++ err_text err));;;
    respond 500 (error_body "Internal server error").

(** [app.post("/get-unique-emails", async (req, res) => { ... })] *)
Definition handler (E : Env) (req : Request) : M unit :=
  try_catch (handler_try E req) handler_catch.

End Campaign.

(** ** server2.js: the single-database variant *)

Module Server2.

Definition MONGO_URI (E : Env) : string := env_MONGO_URI E.

(** [mongoose.connect(MONGO_URI, ...); const db = mongoose.connection] *)
Definition db (E : Env) : conn := Conn 0 (MONGO_URI E).

(** [const Contact = mongoose.model("Contact", contactSchema)] *)
Definition Contact (E : Env) : model := Model (db E) "Contact" "contacts".

Definition sender : string := "on-demand <info@on-demand.io>".

Definition msg (subject text : jsval) (email : recipient) : Msg :=
  let sendEmail := toLowerCase (r_email email) in
  {| m_to := sendEmail; m_from := sender; m_subject := subject;
     m_text := text; m_html := js_toString text |}.

Fixpoint start_all (subject text : jsval) (rs : list recipient) : M unit :=
  match rs with
  | [] => ret tt
  | r :: rs' => emit (EvSend (msg subject text r));;; start_all subject text rs'
  end.

Definition settle (E : Env) (subject text : jsval)
    (i : nat) (email : recipient) : M unit :=
  let sendEmail := toLowerCase (r_email email) in
  match env_send E i (msg subject text email) with
  | None =>
      emit (EvLog ("✅ Unique address have been contacted.Email successfully sent to: "
                   ++ sendEmail))
  | Some error =>
      emit (EvError ("❌ Failed to send email: " ++ sendEmail));;;
      emit (EvError error)
  end.

Fixpoint settle_all (E : Env) (subject text : jsval)
    (i : nat) (rs : list recipient) : M unit :=
  match rs with
  | [] => ret tt
  | r :: rs' =>
      settle E subject text i r;;;
      settle_all E subject text (S i) rs'
  end.

Definition send_all (E : Env) (subject text : jsval) (rs : list recipient) : M unit :=
  start_all subject text rs;;;
  settle_all E subject text 0 rs.

(** Lines 95-116: project the inserted documents and notify.  The awaited
    [Promise.all] is the last statement of the [try] block. *)
Definition finish (E : Env) (subject text : jsval) (inserted : list doc) : M unit :=
  let rd := responseData inserted in
  emit (EvLogVal (JArr (map recipient_json rd)));;;
  send_all E subject text rd.

Definition already_exist : jsval :=
  JObj [("message", JStr "These emails already exist.")].

(** Lines 74-116: what follows the validation. *)
Definition process (E : Env) (user_id conversation_id : string)
    (contacts : list jsval) (subject text : jsval) : M unit :=
  let! emails := lift (incomingEmails contacts) in
  let! existingDocs := Model_find E (Ref (Contact E)) emails in
  let new := newContacts user_id conversation_id
                         (existingEmails existingDocs) contacts in
  match new with
  | [] => respond 200 already_exist
  | _ =>
      let! inserted := Model_insertMany E (Ref (Contact E)) new false in
      finish E subject text inserted
  end.

(** The body of the [try] block *)
Definition handler_try (E : Env) (req : Request) : M unit :=
  let! contacts := lift (js_prop (req_body req) "contacts") in
  let! subject := lift (js_prop (req_body req) "subject") in
  let! text := lift (js_prop (req_body req) "text") in
  let user_id := req_header req "user_id" in
  let conversation_id := req_header req "conversation_id" in
  if negb (truthy_header user_id) || negb (truthy_header conversation_id) then
    respond 400 (error_body "Missing user_id or conversation_id in headers")
  else
    match contacts with
    | JArr ((_ :: _) as cs) =>
        process E (header_value user_id) (header_value conversation_id)
                cs subject text
    | _ => respond 400 (error_body "Request must include an array of contacts")
    end.

(** The [catch (err)] block *)
Definition handler_catch (err : jserror) : M unit :=
  if bool_decide (err_code err = Some 11000%Z) then
    respond 201 (JArr [])
  else
    emit (EvError ("❌ Error in /get-unique-emails: " ++ err_text err));;;
    respond 500 (error_body "Internal server error").

Definition handler (E : Env) (req : Request) : M unit :=
  try_catch (handler_try E req) handler_catch.

End Server2.

(** ** Observations on a run *)

(** The world a computation leaves. *)
Definition exec {A} (m : M A) (w : World) : World := fst (m w).

(** The events a run added: those of [w'] beyond the trace of [w]. *)
Definition events_since (w w' : World) : list event :=
  drop (length (trace w)) (trace w').

(** Projections of a list of events. *)
Definition responses (t : list event) : list (nat * jsval) :=
  omap (fun e => match e with EvRespond s b => Some (s, b) | _ => None end) t.

Definition sends (t : list event) : list Msg :=
  omap (fun e => match e with EvSend m => Some m | _ => None end) t.

Definition inserts (t : list event) : list (list jsval * bool) :=
  omap (fun e => match e with EvInsertMany _ ds o => Some (ds, o) | _ => None end) t.

Definition queries (t : list event) : list (list jsval) :=
  omap (fun e => match e with EvFind _ es => Some es | _ => None end) t.

Definition connects (t : list event) : list conn :=
  omap (fun e => match e with EvConnect c => Some c | _ => None end) t.

(** Events of the connection router. *)
Definition router_event (e : event) : bool :=
  match e with
  | EvConnect _ | EvOn _ _ | EvOnce _ _ => true
  | _ => false
  end.

(** Events that are console output or a send attempt. *)
Definition dispatch_event (e : event) : bool :=
  match e with
  | EvSend _ | EvLog _ | EvLogVal _ | EvError _ => true
  | _ => false
  end.

(** Events of the end of a request: console output, sends, the response. *)
Definition tail_event (e : event) : bool :=
  match e with
  | EvRespond _ _ => true
  | _ => dispatch_event e
  end.

(** The two process-wide caches. *)
Definition caches (w : World) : gmap string conn * gmap string model :=
  (connections w, modelCache w).

(** ** The stages of a request *)

(** The collection once the documents of concurrent requests have landed. *)
Definition concurrent_db (E : Env) (db : list doc) : list doc :=
  (write_each db (env_concurrent E)).1.1.

(** The world once the query on [m] has been answered. *)
Definition after_find (E : Env) (m : model) (emails : list jsval) (w : World) : World :=
  let uri := conn_uri (model_conn m) in
  with_db (with_trace w (trace w ++ [EvFind m emails])) uri
          (concurrent_db E (db_of w uri)).

(** The world once the batch insert on [m] has run. *)
Definition after_insert (m : model) (docs : list jsval) (ordered : bool) (w : World) : World :=
  let uri := conn_uri (model_conn m) in
  with_db (with_trace w (trace w ++ [EvInsertMany m docs ordered])) uri
          (db_insertMany ordered (db_of w uri) docs).1.

(** The message built for one recipient. *)
Definition notification (from : string) (subject text : jsval) (r : recipient) : Msg :=
  {| m_to := toLowerCase (r_email r); m_from := from; m_subject := subject;
     m_text := text; m_html := js_toString text |}.

(** The success body of the multi-campaign variant. *)
Definition processed (campaign : string) (n : nat) : jsval :=
  JObj [("message", JStr ("Successfully processed for campaign: " ++ campaign));
        ("inserted", JNum (pretty n));
        ("campaign", JStr campaign)].

(** What the [catch] block adds to the trace for an error [e]. *)
Definition catch_events (e : jserror) : list event :=
  if bool_decide (err_code e = Some 11000%Z) then [EvRespond 201 (JArr [])]
  else [EvError ("❌ Error in /get-unique-emails: " ++ err_text e);
        EvRespond 500 (error_body "Internal server error")].

(** ** Valid requests *)

(** The part of a valid request common to both variants: both identity
    headers present and non-empty, and a body whose [contacts] is a
    non-empty array of contact objects. *)
Record valid_payload (req : Request) (user_id conversation_id : string)
    (cs : list jsval) (subject text : jsval) : Prop := {
  vp_user_id : req_header req "user_id" = Some user_id;
  vp_user_id_ne : user_id ≠ "";
  vp_conversation_id : req_header req "conversation_id" = Some conversation_id;
  vp_conversation_id_ne : conversation_id ≠ "";
  vp_contacts : js_prop (req_body req) "contacts" = inr (JArr cs);
  vp_nonempty : cs ≠ [];
  vp_objects : forallb is_JObj cs = true;
  vp_subject : js_prop (req_body req) "subject" = inr subject;
  vp_text : js_prop (req_body req) "text" = inr text
}.

(** A valid request of the multi-campaign variant also names a registered
    campaign. *)
Record valid_request (req : Request) (campaign user_id conversation_id : string)
    (cs : list jsval) (subject text : jsval) : Prop := {
  vr_campaign : req_header req "campaign" = Some campaign;
  vr_registered : is_Some (Campaign.CAMPAIGNS !! campaign);
  vr_payload : valid_payload req user_id conversation_id cs subject text
}.


(** ** What the claims say of one request *)

(** [selects P l k]: [k] is [l] with exactly the elements that fail [P]
    removed, order and repetitions kept. *)
Inductive selects {A} (P : A -> Prop) : list A -> list A -> Prop :=
  | selects_nil : selects P [] []
  | selects_keep x l k : P x -> selects P l k -> selects P (x :: l) (x :: k)
  | selects_drop x l k : ~ P x -> selects P l k -> selects P (x :: l) k.

(** What C1 says of the events [evs] of one request over the collection
    [store]: one query, for the emails of the contacts in input order; the
    records [existing] it returns are the stored ones whose email is among
    them; and the batch insert, if any contact is new, receives in input
    order exactly the contacts whose email is the email of no returned
    record, each carrying the two header values and otherwise its own
    properties. *)
Definition dedup_outcome (user_id conversation_id : string) (cs : list jsval)
    (store existing : list doc) (evs : list event) : Prop :=
  queries evs = [map email_of cs]
  /\ (forall d, d ∈ existing
        <-> d ∈ store
            /\ exists v, v ∈ map email_of cs /\ castString v = Some (Some (d_email d)))
  /\ (exists kept,
        selects (fun c => forall d, d ∈ existing -> email_of c ≠ JStr (d_email d)) cs kept
        /\ inserts evs
           = match kept with
             | [] => []
             | _ => [(map (augment user_id conversation_id) kept, false)]
             end)
  /\ (forall c, exists ps,
        augment user_id conversation_id c = JObj ps
        /\ obj_get ps "user_id" = JStr user_id
        /\ obj_get ps "conversation_id" = JStr conversation_id
        /\ forall k, k ≠ "user_id" -> k ≠ "conversation_id" ->
             obj_get ps k = obj_get (spread c) k).

(** What C10 says of one request: every object handed to [insertMany]
    carries the header values under [user_id] and [conversation_id], and
    every record the collection holds afterwards that neither was there
    before nor came from a concurrent request stores the header values. *)
Definition identity_outcome (E : Env) (user_id conversation_id : string)
    (before after : list doc) (evs : list event) : Prop :=
  (forall docs ordered c, (docs, ordered) ∈ inserts evs -> c ∈ docs ->
     exists ps, c = JObj ps
                /\ obj_get ps "user_id" = JStr user_id
                /\ obj_get ps "conversation_id" = JStr conversation_id)
  /\ (forall d, d ∈ after ->
        d ∈ before \/ d ∈ env_concurrent E
        \/ (d_user_id d = Some user_id /\ d_conversation_id d = Some conversation_id)).



(** ** Sample environments, worlds and requests *)

(** A freshly started process with empty databases. *)
Definition world0 : World :=
  {| connections := ∅; modelCache := ∅; created := 0; dbs := ∅; trace := [] |}.

(** An environment in which nothing fails. *)
Definition calm (uri : string) : Env :=
  {| env_MONGO_URI := uri; env_send := fun _ _ => None;
     env_find_fault := None; env_insert_fault := None; env_concurrent := [] |}.

(** A provider that refuses the first send of every batch. *)
Definition flaky (uri : string) : Env :=
  {| env_MONGO_URI := uri;
     env_send := fun i _ => if Nat.eqb i 0 then Some "Error: Unauthorized" else None;
     env_find_fault := None; env_insert_fault := None; env_concurrent := [] |}.

(** The record that a contact carrying only [email] becomes. *)
Definition stored (user_id conversation_id email : string) : doc :=
  Doc (Some user_id) (Some conversation_id) None email None
      (Some "") (Some "") (Some "") (Some "").

(** A race: a concurrent request writes [a@x.com] after this request's
    query and before its insert. *)
Definition racing (uri : string) : Env :=
  {| env_MONGO_URI := uri; env_send := fun _ _ => None;
     env_find_fault := None; env_insert_fault := None;
     env_concurrent := [stored "u0" "c0" "a@x.com"] |}.

(** A world in which both variants address a collection that already holds
    [a@x.com]. *)
Definition world_a : World :=
  {| connections := ∅; modelCache := ∅; created := 0;
     dbs := {[ "mongodb://host/campaign1_db?retryWrites=true&w=majority"
                 := [stored "u0" "c0" "a@x.com"];
               "mongodb://host" := [stored "u0" "c0" "a@x.com"] ]};
     trace := [] |}.

Definition mk_request (hs : list (string * string)) (body : jsval) : Request :=
  {| req_headers := list_to_map hs; req_body := body |}.

Definition contact (email : string) : jsval := JObj [("email", JStr email)].

Definition body_of (cs : list jsval) (subject text : string) : jsval :=
  JObj [("contacts", JArr cs); ("subject", JStr subject); ("text", JStr text)].

(** Two contacts with the same new email. *)
Definition twice_request : Request :=
  mk_request [("campaign", "campaign1"); ("user_id", "u1"); ("conversation_id", "c1")]
    (body_of [contact "a@x.com"; contact "a@x.com"] "Hi" "Hello").

Definition two_new_request : Request :=
  mk_request [("campaign", "campaign2"); ("user_id", "u1"); ("conversation_id", "c9")]
    (body_of [contact "A@x.com"; contact "b@x.com"] "Hi" "Hello").

(** A campaign value that names a member of [Object.prototype]. *)
Definition prototype_request : Request :=
  mk_request [("campaign", "constructor"); ("user_id", "u1"); ("conversation_id", "c1")]
    (body_of [contact "a@x.com"] "Hi" "Hello").

Definition one_new_request : Request :=
  mk_request [("user_id", "u1"); ("conversation_id", "c9")]
    (body_of [contact "b@x.com"] "Hi" "Hello").

Definition mixed_request : Request :=
  mk_request [("campaign", "campaign1"); ("user_id", "u1"); ("conversation_id", "c1")]
    (body_of [contact "a@x.com"; contact "b@x.com"] "Hi" "Hello").

Definition known_request : Request :=
  mk_request [("campaign", "campaign1"); ("user_id", "u1"); ("conversation_id", "c1")]
    (body_of [contact "a@x.com"] "Hi" "Hello").

(** A contact that brings its own [user_id] and [conversation_id]. *)
Definition forged_request : Request :=
  mk_request [("campaign", "campaign1"); ("user_id", "u1"); ("conversation_id", "c1")]
    (JObj [("contacts",
            JArr [JObj [("user_id", JStr "mallory"); ("email", JStr "m@x.com");
                        ("conversation_id", JStr "other")]]);
           ("subject", JStr "Hi"); ("text", JStr "Hello")]).

(** ** Notions for the properties of the whole endpoint *)

(** The caches of a running process are coherent: a cached connection sits
    under a registered campaign, leads to that campaign's database and was
    created by this process; a cached model is the [Contact] model of the
    connection cached under the same campaign; and no handle is shared by
    two campaigns. *)
Definition coherent (E : Env) (w : World) : Prop :=
  (forall k c, connections w !! k = Some c ->
     exists dbName, Campaign.CAMPAIGNS !! k = Some dbName
                    /\ conn_uri c = Campaign.connectionUri E dbName
                    /\ conn_id c < created w)
  /\ (forall k m, modelCache w !! k = Some m ->
        exists c, connections w !! k = Some c /\ m = Model c "Contact" "contacts")
  /\ (forall k1 k2 c1 c2, connections w !! k1 = Some c1 ->
        connections w !! k2 = Some c2 -> conn_id c1 = conn_id c2 -> k1 = k2).

(** [frames C w w']: from [w] to [w'] the caches and the handle counter
    are kept, no connection is opened, and no collection changes except,
    possibly, the one the model [C] is bound to. *)
Definition frames (C : ref model) (w w' : World) : Prop :=
  caches w' = caches w
  /\ created w' = created w
  /\ (forall uri, (forall m, C = Ref m -> uri ≠ conn_uri (model_conn m)) ->
        db_of w' uri = db_of w uri)
  /\ exists es, trace w' = (trace w ++ es)%list /\ connects es = [].

(** The error [getCampaignConnection] throws. *)
Definition invalid_campaign (campaignKey : string) : jserror :=
  {| err_code := None; err_text := "Error: ❌ Invalid campaign: " ++ campaignKey |}.

(** A request that passes the two checks of the single-database variant:
    both identity headers are truthy and [contacts] is a non-empty array,
    of anything. *)
Record checked_payload (req : Request) (user_id conversation_id : string)
    (cs : list jsval) (subject text : jsval) : Prop := {
  cp_user_id : req_header req "user_id" = Some user_id;
  cp_user_id_ne : user_id ≠ "";
  cp_conversation_id : req_header req "conversation_id" = Some conversation_id;
  cp_conversation_id_ne : conversation_id ≠ "";
  cp_contacts : js_prop (req_body req) "contacts" = inr (JArr cs);
  cp_nonempty : cs ≠ [];
  cp_subject : js_prop (req_body req) "subject" = inr subject;
  cp_text : js_prop (req_body req) "text" = inr text
}.

(** A request that passes the four checks of the multi-campaign variant
    with a registered campaign. *)
Record checked_request (req : Request) (campaign user_id conversation_id : string)
    (cs : list jsval) (subject text : jsval) : Prop := {
  cr_campaign : req_header req "campaign" = Some campaign;
  cr_registered : is_Some (Campaign.CAMPAIGNS !! campaign);
  cr_payload : checked_payload req user_id conversation_id cs subject text
}.

(** Two worlds that differ at most in console output. *)
Definition same_but_console (w1 w2 : World) : Prop :=
  dbs w1 = dbs w2
  /\ caches w1 = caches w2
  /\ created w1 = created w2
  /\ responses (trace w1) = responses (trace w2)
  /\ sends (trace w1) = sends (trace w2)
  /\ inserts (trace w1) = inserts (trace w2)
  /\ queries (trace w1) = queries (trace w2)
  /\ connects (trace w1) = connects (trace w2).

(** The environment [E] with another mail provider. *)
Definition with_send (E : Env) (send : nat -> Msg -> option string) : Env :=
  {| env_MONGO_URI := env_MONGO_URI E; env_send := send;
     env_find_fault := env_find_fault E; env_insert_fault := env_insert_fault E;
     env_concurrent := env_concurrent E |}.

(** The path a run of [Campaign.process] took from [w] to [(w', r)]. *)
Definition Campaign_process_path (E : Env) (k u c : string) (cs : list jsval)
    (subject text : jsval) (w w' : World) (r : jserror + unit) : Prop :=
  exists w1 rC,
    Campaign.getContactModel E k w = (w1, rC)
    /\ match rC with
       | inl e => w' = w1 /\ r = inl e
       | inr C =>
           match incomingEmails cs with
           | inl e => w' = w1 /\ r = inl e
           | inr emails =>
               exists w2 rF,
                 Model_find E C emails w1 = (w2, rF)
                 /\ match rF with
                    | inl e => w' = w2 /\ r = inl e
                    | inr existing =>
                        let new := newContacts u c (existingEmails existing) cs in
                        match new with
                        | [] =>
                            w' = with_trace w2
                                   (trace w2 ++ [EvRespond 200 (Campaign.already_exist k)])
                            /\ r = inr tt
                        | _ =>
                            exists w3 rI,
                              Model_insertMany E C new false w2 = (w3, rI)
                              /\ match rI with
                                 | inl e => w' = w3 /\ r = inl e
                                 | inr inserted =>
                                     Campaign.finish E k subject text inserted w3 = (w', r)
                                 end
                        end
                    end
           end
       end.

(** The path a run of [Server2.process] took from [w] to [(w', r)]. *)
Definition Server2_process_path (E : Env) (u c : string) (cs : list jsval)
    (subject text : jsval) (w w' : World) (r : jserror + unit) : Prop :=
  match incomingEmails cs with
  | inl e => w' = w /\ r = inl e
  | inr emails =>
      exists w2 rF,
        Model_find E (Ref (Server2.Contact E)) emails w = (w2, rF)
        /\ match rF with
           | inl e => w' = w2 /\ r = inl e
           | inr existing =>
               let new := newContacts u c (existingEmails existing) cs in
               match new with
               | [] =>
                   w' = with_trace w2 (trace w2 ++ [EvRespond 200 Server2.already_exist])
                   /\ r = inr tt
               | _ =>
                   exists w3 rI,
                     Model_insertMany E (Ref (Server2.Contact E)) new false w2 = (w3, rI)
                     /\ match rI with
                        | inl e => w' = w3 /\ r = inl e
                        | inr inserted =>
                            Server2.finish E subject text inserted w3 = (w', r)
                        end
               end
           end
  end.

(** A contact array with a [null] element. *)
Definition null_request : Request :=
  mk_request [("campaign", "campaign1"); ("user_id", "u1"); ("conversation_id", "c1")]
    (body_of [contact "a@x.com"; JNull] "Hi" "Hello").

(** Contacts that carry no email. *)
Definition nameless_request : Request :=
  mk_request [("campaign", "campaign1"); ("user_id", "u1"); ("conversation_id", "c1")]
    (body_of [JObj [("name", JStr "Ann")]; JObj []] "Hi" "Hello").

(** A request with no identity headers. *)
Definition anonymous_request : Request :=
  mk_request [("campaign", "campaign1")] (body_of [contact "a@x.com"] "Hi" "Hello").

(** An environment whose store fails on every query. *)
Definition offline (uri : string) : Env :=
  {| env_MONGO_URI := uri; env_send := fun _ _ => None;
     env_find_fault := Some {| err_code := None;
                               err_text := "MongoNetworkError: connection closed" |};
     env_insert_fault := None; env_concurrent := [] |}.

(** * Properties *)

(** ** Basic facts *)

Lemma with_trace_twice (w : World) (t1 t2 : list event) :
  with_trace (with_trace w t1) t2 = with_trace w t2.
Proof. reflexivity. Qed.

Lemma events_since_app (w w' : World) (es : list event) :
  trace w' = (trace w ++ es)%list -> events_since w w' = es.
Proof. intros H. unfold events_since. rewrite H. apply drop_app_length. Qed.

Lemma obj_get_set_eq (ps : list (string * jsval)) (k : string) (v : jsval) :
  obj_get (obj_set ps k v) k = v.
Proof.
  induction ps as [|[k' v'] ps IH]; simpl.
  - by rewrite String.eqb_refl.
  - destruct (String.eqb k' k) eqn:Hk; simpl.
    + by rewrite String.eqb_refl.
    + by rewrite Hk.
Qed.

Lemma obj_get_set_ne (ps : list (string * jsval)) (k k' : string) (v : jsval) :
  k ≠ k' -> obj_get (obj_set ps k v) k' = obj_get ps k'.
Proof.
  intros Hne. induction ps as [|[k0 v0] ps IH]; simpl.
  - destruct (String.eqb k k') eqn:Hk; [|done].
    apply String.eqb_eq in Hk. congruence.
  - destruct (String.eqb k0 k) eqn:Hk; simpl.
    + apply String.eqb_eq in Hk. subst k0.
      destruct (String.eqb k k') eqn:Hk'; [|done].
      apply String.eqb_eq in Hk'. congruence.
    + by rewrite IH.
Qed.

Lemma incomingEmails_objects (cs : list jsval) :
  forallb is_JObj cs = true -> incomingEmails cs = inr (map email_of cs).
Proof.
  induction cs as [|c cs IH]; simpl; [done|].
  intros [Hc Hcs]%andb_prop. rewrite (IH Hcs).
  by destruct c.
Qed.

Lemma Set_has_existing (existing : list doc) (v : jsval) :
  Set_has (existingEmails existing) v = true
  <-> exists d, d ∈ existing /\ v = JStr (d_email d).
Proof.
  unfold Set_has, existingEmails. destruct v; try (split; [done | by intros (d & _ & ?)]).
  rewrite bool_decide_eq_true, elem_of_list_to_set, list_elem_of_fmap.
  split.
  - intros (d & -> & Hd). eauto.
  - intros (d & Hd & [= ->]). eauto.
Qed.

(** ** The registry *)

Lemma CAMPAIGNS_own (k v : string) :
  Campaign.CAMPAIGNS !! k = Some v ->
  (k, v) ∈ [ ("campaign1", "campaign1_db"); ("campaign2", "campaign2_db");
             ("campaign3", "campaign3_db"); ("campaign4", "campaign4_db");
             ("campaign5", "campaign5_db") ].
Proof. intros H. by apply elem_of_list_to_map_2 in H. Qed.

Lemma registered_lookup (k v : string) :
  Campaign.CAMPAIGNS !! k = Some v ->
  js_lookup Campaign.CAMPAIGNS k = Own v
  /\ truthy_string (Own v) = true
  /\ bool_decide (k ∈ Object_prototype) = false.
Proof.
  intros H. split; [unfold js_lookup; by rewrite H|].
  apply CAMPAIGNS_own in H.
  repeat (apply elem_of_cons in H as [[= -> ->]|H]; [by vm_compute|]).
  by apply elem_of_nil in H.
Qed.

(** ** The connection router *)

Lemma getCampaignConnection_cached (E : Env) (k dbName : string) (c : conn) (w : World) :
  Campaign.CAMPAIGNS !! k = Some dbName ->
  connections w !! k = Some c ->
  Campaign.getCampaignConnection E k w = (w, inr (Ref c)).
Proof.
  intros Hk Hc. destruct (registered_lookup k dbName Hk) as (Hl & Ht & _).
  unfold Campaign.getCampaignConnection. rewrite Hl, Ht. simpl.
  unfold js_lookup. by rewrite Hc.
Qed.

Lemma getCampaignConnection_fresh (E : Env) (k dbName : string) (w : World) :
  Campaign.CAMPAIGNS !! k = Some dbName ->
  connections w !! k = None ->
  let c := Conn (created w) (Campaign.connectionUri E dbName) in
  Campaign.getCampaignConnection E k w =
    ({| connections := <[k := c]> (connections w);
        modelCache := modelCache w;
        created := S (created w);
        dbs := dbs w;
        trace := trace w ++ [EvConnect c; EvOn c "error"; EvOnce c "open"] |},
     inr (Ref c)).
Proof.
  intros Hk Hc c. destruct (registered_lookup k dbName Hk) as (Hl & Ht & Hp).
  unfold Campaign.getCampaignConnection. rewrite Hl, Ht. simpl.
  unfold js_lookup at 1. rewrite Hc, Hp.
  unfold bind, Campaign.createConnection, Campaign.set_connection, emit, ret,
    with_trace; simpl.
  by rewrite <- !app_assoc.
Qed.

(** C9. [getCampaignConnection] is idempotent per campaign key.  The first
    call for a registered campaign (nothing cached under the key) opens one
    connection to [BASE_MONGO_URI/dbName?retryWrites=true&w=majority] and
    stores the handle under the key; any later call that finds this handle
    cached returns it and leaves the world, trace included, as it was. *)
Theorem getCampaignConnection_idempotent (E : Env) (k dbName : string) (w : World) :
  Campaign.CAMPAIGNS !! k = Some dbName ->
  connections w !! k = None ->
  let c := Conn (created w)
             (env_MONGO_URI E ++ "/" ++ dbName ++ "?retryWrites=true&w=majority") in
  exists w1,
    Campaign.getCampaignConnection E k w = (w1, inr (Ref c))
    /\ connections w1 = <[k := c]> (connections w)
    /\ connects (events_since w w1) = [c]
    /\ Campaign.getCampaignConnection E k w1 = (w1, inr (Ref c))
    /\ (forall w2, connections w2 !! k = Some c ->
          Campaign.getCampaignConnection E k w2 = (w2, inr (Ref c))
          /\ events_since w2 (exec (Campaign.getCampaignConnection E k) w2) = []).
Proof.
  intros Hk Hc c. eexists. split; [apply (getCampaignConnection_fresh E k dbName w Hk Hc)|].
  split; [done|]. split.
  { erewrite events_since_app; [|reflexivity]. done. }
  split.
  { apply (getCampaignConnection_cached E k dbName); [done|]. simpl.
    apply lookup_insert_eq. }
  intros w2 Hw2.
  pose proof (getCampaignConnection_cached E k dbName c w2 Hk Hw2) as Hrun.
  split; [done|]. unfold exec. rewrite Hrun. simpl.
  apply events_since_app. by rewrite app_nil_r.
Qed.

Lemma getCampaignConnection_idempotent_witness :
  let E := calm "mongodb://host" in
  let c := Conn 0 "mongodb://host/campaign3_db?retryWrites=true&w=majority" in
  exists w1,
    Campaign.getCampaignConnection E "campaign3" world0 = (w1, inr (Ref c))
    /\ connections w1 = <["campaign3" := c]> (connections world0)
    /\ connects (events_since world0 w1) = [c]
    /\ Campaign.getCampaignConnection E "campaign3" w1 = (w1, inr (Ref c))
    /\ (forall w2, connections w2 !! "campaign3" = Some c ->
          Campaign.getCampaignConnection E "campaign3" w2 = (w2, inr (Ref c))
          /\ events_since w2 (exec (Campaign.getCampaignConnection E "campaign3") w2) = []).
Proof.
  apply (getCampaignConnection_idempotent (calm "mongodb://host") "campaign3"
           "campaign3_db" world0); reflexivity.
Defined.

(** ** The model cache *)

Lemma router_events_silent (es : list event) :
  forallb router_event es = true ->
  queries es = [] /\ inserts es = [] /\ sends es = [] /\ responses es = [].
Proof.
  induction es as [|e es IH]; simpl; [done|].
  intros [He Hes]%andb_prop. destruct (IH Hes) as (? & ? & ? & ?).
  by destruct e.
Qed.

(** For a registered campaign the accessor always yields a model; it may
    open a connection on the way, and it never touches a database. *)
Lemma getContactModel_registered (E : Env) (k dbName : string) (w : World) :
  Campaign.CAMPAIGNS !! k = Some dbName ->
  exists m w1 es,
    Campaign.getContactModel E k w = (w1, inr (Ref m))
    /\ dbs w1 = dbs w
    /\ trace w1 = (trace w ++ es)%list
    /\ forallb router_event es = true
    /\ modelCache w1 !! k = Some m.
Proof.
  intros Hk. destruct (registered_lookup k dbName Hk) as (Hl & Ht & Hp).
  unfold Campaign.getContactModel, js_lookup at 1.
  destruct (modelCache w !! k) as [m|] eqn:Hm.
  - exists m, w, []. by rewrite app_nil_r.
  - rewrite Hp. unfold bind at 1.
    destruct (connections w !! k) as [c|] eqn:Hc.
    + rewrite (getCampaignConnection_cached E k dbName c w Hk Hc).
      eexists _, _, []. unfold bind, Campaign.set_model, ret; simpl.
      split; [reflexivity|]. simpl. by rewrite app_nil_r, lookup_insert_eq.
    + rewrite (getCampaignConnection_fresh E k dbName w Hk Hc).
      eexists _, _, _. unfold bind, Campaign.set_model, ret; simpl.
      split; [reflexivity|]. simpl. by rewrite lookup_insert_eq.
Qed.

(** A key that is not an own property of [CAMPAIGNS] never adds an entry to
    either cache, whatever the accessor returns. *)
Lemma getContactModel_unregistered (E : Env) (k : string) (w : World) :
  Campaign.CAMPAIGNS !! k = None ->
  exec (Campaign.getContactModel E k) w = w.
Proof.
  intros Hk. unfold exec, Campaign.getContactModel, js_lookup at 1.
  destruct (modelCache w !! k); [done|].
  case_bool_decide as Hp; [done|].
  unfold bind, Campaign.getCampaignConnection, js_lookup.
  rewrite Hk. by rewrite bool_decide_eq_false_2.
Qed.

(** ** Store operations as the handlers see them *)

Lemma Model_find_run (E : Env) (m : model) (emails : list jsval) (w : World) :
  env_find_fault E = None ->
  Model_find E (Ref m) emails w
  = (after_find E m emails w, db_find (db_of w (conn_uri (model_conn m))) emails).
Proof.
  intros Hf. unfold Model_find, bind, emit, after_find, concurrent_db. simpl.
  rewrite Hf. unfold db_of at 1 2; simpl.
  by destruct (write_each _ _) as [[db' ins] errs].
Qed.

Lemma Model_find_fault (E : Env) (m : model) (emails : list jsval) (w : World) (e : jserror) :
  env_find_fault E = Some e ->
  Model_find E (Ref m) emails w
  = (with_trace w (trace w ++ [EvFind m emails]), inl e).
Proof. intros Hf. unfold Model_find, bind, emit. simpl. by rewrite Hf. Qed.

Lemma Model_insertMany_run (E : Env) (m : model) (docs : list jsval)
    (ordered : bool) (w : World) :
  env_insert_fault E = None ->
  Model_insertMany E (Ref m) docs ordered w
  = (after_insert m docs ordered w,
     (db_insertMany ordered (db_of w (conn_uri (model_conn m))) docs).2).
Proof.
  intros Hf. unfold Model_insertMany, bind, emit, after_insert. simpl.
  rewrite Hf. unfold db_of at 1; simpl.
  by destruct (db_insertMany _ _ _) as [db' r].
Qed.

Lemma Model_insertMany_fault (E : Env) (m : model) (docs : list jsval)
    (ordered : bool) (w : World) (e : jserror) :
  env_insert_fault E = Some e ->
  Model_insertMany E (Ref m) docs ordered w
  = (with_trace w (trace w ++ [EvInsertMany m docs ordered]), inl e).
Proof. intros Hf. unfold Model_insertMany, bind, emit. simpl. by rewrite Hf. Qed.

(** ** The notification dispatcher *)

Lemma dispatch_events_silent (es : list event) :
  forallb dispatch_event es = true ->
  queries es = [] /\ inserts es = [] /\ responses es = [] /\ connects es = [].
Proof.
  induction es as [|e es IH]; simpl; [done|].
  intros [He Hes]%andb_prop. destruct (IH Hes) as (? & ? & ? & ?).
  by destruct e.
Qed.

Lemma sends_app (es1 es2 : list event) :
  sends (es1 ++ es2) = (sends es1 ++ sends es2)%list.
Proof. unfold sends. apply omap_app. Qed.

Lemma responses_app (es1 es2 : list event) :
  responses (es1 ++ es2) = (responses es1 ++ responses es2)%list.
Proof. unfold responses. apply omap_app. Qed.

Lemma inserts_app (es1 es2 : list event) :
  inserts (es1 ++ es2) = (inserts es1 ++ inserts es2)%list.
Proof. unfold inserts. apply omap_app. Qed.

Lemma queries_app (es1 es2 : list event) :
  queries (es1 ++ es2) = (queries es1 ++ queries es2)%list.
Proof. unfold queries. apply omap_app. Qed.

Lemma forallb_app_true {A} (f : A -> bool) (l1 l2 : list A) :
  forallb f l1 = true -> forallb f l2 = true -> forallb f (l1 ++ l2) = true.
Proof. intros H1 H2. rewrite forallb_app. by rewrite H1, H2. Qed.

(** Events that are console output. *)
Lemma console_events_dispatch (es : list event) :
  forallb (fun e => match e with EvLog _ | EvError _ => true | _ => false end) es = true ->
  forallb dispatch_event es = true /\ sends es = [].
Proof.
  induction es as [|e es IH]; simpl; [done|].
  intros [He Hes]%andb_prop. destruct (IH Hes) as [? ?].
  by destruct e.
Qed.

Lemma Campaign_start_all_run (subject text : jsval) (rs : list recipient) (w : World) :
  Campaign.start_all subject text rs w
  = (with_trace w (trace w ++ map (fun r => EvSend (Campaign.msg subject text r)) rs),
     inr tt).
Proof.
  revert w. induction rs as [|r rs IH]; intros w; simpl.
  - unfold ret, with_trace. rewrite app_nil_r. by destruct w.
  - unfold bind, emit. rewrite IH. simpl. by rewrite <- app_assoc.
Qed.

Lemma Server2_start_all_run (subject text : jsval) (rs : list recipient) (w : World) :
  Server2.start_all subject text rs w
  = (with_trace w (trace w ++ map (fun r => EvSend (Server2.msg subject text r)) rs),
     inr tt).
Proof.
  revert w. induction rs as [|r rs IH]; intros w; simpl.
  - unfold ret, with_trace. rewrite app_nil_r. by destruct w.
  - unfold bind, emit. rewrite IH. simpl. by rewrite <- app_assoc.
Qed.

(** One settled callback: one or two console lines, then what the
    induction hypothesis [IH] gives for the rest. *)
Ltac settle_step IH i :=
  let es := fresh "es" in
  let Hc := fresh "Hc" in
  unfold bind, emit; simpl;
  edestruct (IH (S i)) as (es & -> & Hc);
  first [ eexists ([_; _] ++ es)%list; simpl; rewrite <- !app_assoc; simpl;
          split; [reflexivity | done]
        | eexists ([_] ++ es)%list; simpl; rewrite <- !app_assoc; simpl;
          split; [reflexivity | done] ].

(** Settling never throws, whatever the provider answers, and adds console
    output only. *)
Lemma Campaign_settle_all_run (E : Env) (campaign : string) (subject text : jsval)
    (rs : list recipient) (i : nat) (w : World) :
  exists es,
    Campaign.settle_all E campaign subject text i rs w
    = (with_trace w (trace w ++ es), inr tt)
    /\ forallb (fun e => match e with EvLog _ | EvError _ => true | _ => false end) es
       = true.
Proof.
  revert i w. induction rs as [|r rs IH]; intros i w.
  - exists []. simpl. unfold ret, with_trace. rewrite app_nil_r. by destruct w.
  - simpl. unfold bind at 1, Campaign.settle.
    destruct (env_send E i _) as [err|] eqn:Hs; settle_step IH i.
Qed.

Lemma Server2_settle_all_run (E : Env) (subject text : jsval)
    (rs : list recipient) (i : nat) (w : World) :
  exists es,
    Server2.settle_all E subject text i rs w
    = (with_trace w (trace w ++ es), inr tt)
    /\ forallb (fun e => match e with EvLog _ | EvError _ => true | _ => false end) es
       = true.
Proof.
  revert i w. induction rs as [|r rs IH]; intros i w.
  - exists []. simpl. unfold ret, with_trace. rewrite app_nil_r. by destruct w.
  - simpl. unfold bind at 1, Server2.settle.
    destruct (env_send E i _) as [err|] eqn:Hs; settle_step IH i.
Qed.

Lemma sends_started (f : recipient -> Msg) (rs : list recipient) :
  sends (map (fun r => EvSend (f r)) rs) = map f rs.
Proof. induction rs as [|r rs IH]; simpl; [done|]. unfold sends in *. simpl. by rewrite IH. Qed.

Lemma started_dispatch (f : recipient -> Msg) (rs : list recipient) :
  forallb dispatch_event (map (fun r => EvSend (f r)) rs) = true.
Proof. by induction rs. Qed.

(** The fan-out never throws: whatever the provider answers, it adds one
    send attempt per recipient, in order, and console output only. *)
Lemma Campaign_send_all_run (E : Env) (campaign : string) (subject text : jsval)
    (rs : list recipient) (w : World) :
  exists es,
    Campaign.send_all E campaign subject text rs w
    = (with_trace w (trace w ++ es), inr tt)
    /\ sends es = map (notification Campaign.sender subject text) rs
    /\ forallb dispatch_event es = true.
Proof.
  unfold Campaign.send_all, bind. rewrite Campaign_start_all_run.
  edestruct Campaign_settle_all_run as (es & -> & Hc).
  apply console_events_dispatch in Hc as [Hd Hs].
  eexists (_ ++ es)%list. simpl. rewrite <- app_assoc. split; [reflexivity|].
  split.
  - by rewrite sends_app, Hs, app_nil_r, sends_started.
  - apply forallb_app_true; [apply started_dispatch | done].
Qed.

Lemma Server2_send_all_run (E : Env) (subject text : jsval)
    (rs : list recipient) (w : World) :
  exists es,
    Server2.send_all E subject text rs w
    = (with_trace w (trace w ++ es), inr tt)
    /\ sends es = map (notification Server2.sender subject text) rs
    /\ forallb dispatch_event es = true.
Proof.
  unfold Server2.send_all, bind. rewrite Server2_start_all_run.
  edestruct Server2_settle_all_run as (es & -> & Hc).
  apply console_events_dispatch in Hc as [Hd Hs].
  eexists (_ ++ es)%list. simpl. rewrite <- app_assoc. split; [reflexivity|].
  split.
  - by rewrite sends_app, Hs, app_nil_r, sends_started.
  - apply forallb_app_true; [apply started_dispatch | done].
Qed.

Lemma Campaign_finish_run (E : Env) (campaign : string) (subject text : jsval)
    (inserted : list doc) (w : World) :
  exists es,
    Campaign.finish E campaign subject text inserted w
    = (with_trace w (trace w ++ es ++ [EvRespond 200 (processed campaign (length inserted))]),
       inr tt)
    /\ sends es = map (notification Campaign.sender subject text) (responseData inserted)
    /\ forallb dispatch_event es = true.
Proof.
  unfold Campaign.finish, bind at 1, emit. simpl. unfold bind at 1.
  edestruct Campaign_send_all_run as (es & -> & Hs & Hd).
  exists (EvLog ("✅ Inserted " ++ pretty (length inserted)
                 ++ " contacts into campaign: " ++ campaign) :: es).
  unfold respond, emit, processed, responseData. simpl.
  rewrite length_map, <- !app_assoc. simpl. split; [reflexivity|].
  split; [|done]. exact Hs.
Qed.

Lemma Server2_finish_run (E : Env) (subject text : jsval)
    (inserted : list doc) (w : World) :
  exists es,
    Server2.finish E subject text inserted w
    = (with_trace w (trace w ++ es), inr tt)
    /\ sends es = map (notification Server2.sender subject text) (responseData inserted)
    /\ forallb dispatch_event es = true.
Proof.
  unfold Server2.finish, bind at 1, emit. simpl.
  edestruct Server2_send_all_run as (es & -> & Hs & Hd).
  exists (EvLogVal (JArr (map recipient_json (responseData inserted))) :: es).
  simpl. rewrite <- !app_assoc. simpl. split; [reflexivity|].
  split; [|done]. exact Hs.
Qed.

(** ** Valid requests *)

Lemma eqb_empty_false (s : string) : s ≠ "" -> String.eqb s "" = false.
Proof. intros H. by apply String.eqb_neq. Qed.

Lemma Server2_handler_try_valid (E : Env) (req : Request)
    (user_id conversation_id : string) (cs : list jsval) (subject text : jsval) :
  valid_payload req user_id conversation_id cs subject text ->
  Server2.handler_try E req
  = Server2.process E user_id conversation_id cs subject text.
Proof.
  intros [Hu Hune Hc Hcne Hcs Hne Hobj Hs Ht].
  unfold Server2.handler_try. rewrite Hcs, Hs, Ht, Hu, Hc.
  unfold bind, lift; simpl. rewrite !eqb_empty_false by done. simpl.
  destruct cs; done.
Qed.

Lemma Campaign_handler_try_valid (E : Env) (req : Request)
    (campaign user_id conversation_id : string) (cs : list jsval) (subject text : jsval) :
  valid_request req campaign user_id conversation_id cs subject text ->
  Campaign.handler_try E req
  = Campaign.process E campaign user_id conversation_id cs subject text.
Proof.
  intros [Hk [dbName Hreg] [Hu Hune Hc Hcne Hcs Hne Hobj Hs Ht]].
  destruct (registered_lookup campaign dbName Hreg) as (Hl & Htr & Hp).
  assert (campaign ≠ "") as Hkne.
  { intros ->. by vm_compute in Hreg. }
  unfold Campaign.handler_try. rewrite Hcs, Hs, Ht, Hu, Hc, Hk.
  unfold bind, lift; simpl. rewrite !eqb_empty_false by done. simpl.
  rewrite Hl, Htr. simpl.
  destruct cs; done.
Qed.

(** What the processing of a valid batch amounts to once the accessor has
    returned the model and the store has answered the query. *)
Lemma Campaign_process_run (E : Env) (campaign user_id conversation_id : string)
    (cs : list jsval) (subject text : jsval) (w w1 : World) (m : model)
    (existing : list doc) :
  Campaign.getContactModel E campaign w = (w1, inr (Ref m)) ->
  forallb is_JObj cs = true ->
  env_find_fault E = None ->
  db_find (db_of w1 (conn_uri (model_conn m))) (map email_of cs) = inr existing ->
  Campaign.process E campaign user_id conversation_id cs subject text w
  = match newContacts user_id conversation_id (existingEmails existing) cs with
    | [] => respond 200 (Campaign.already_exist campaign)
              (after_find E m (map email_of cs) w1)
    | new =>
        bind (Model_insertMany E (Ref m) new false)
             (Campaign.finish E campaign subject text)
             (after_find E m (map email_of cs) w1)
    end.
Proof.
  intros Hm Hobj Hf Hq. unfold Campaign.process, bind at 1. rewrite Hm.
  unfold bind at 1, lift. rewrite (incomingEmails_objects cs Hobj).
  unfold bind at 1. rewrite (Model_find_run E m _ w1 Hf), Hq.
  by destruct (newContacts _ _ _ _).
Qed.

Lemma Server2_process_run (E : Env) (user_id conversation_id : string)
    (cs : list jsval) (subject text : jsval) (w : World) (existing : list doc) :
  forallb is_JObj cs = true ->
  env_find_fault E = None ->
  db_find (db_of w (Server2.MONGO_URI E)) (map email_of cs) = inr existing ->
  Server2.process E user_id conversation_id cs subject text w
  = match newContacts user_id conversation_id (existingEmails existing) cs with
    | [] => respond 200 Server2.already_exist
              (after_find E (Server2.Contact E) (map email_of cs) w)
    | new =>
        bind (Model_insertMany E (Ref (Server2.Contact E)) new false)
             (Server2.finish E subject text)
             (after_find E (Server2.Contact E) (map email_of cs) w)
    end.
Proof.
  intros Hobj Hf Hq. unfold Server2.process.
  unfold bind at 1, lift. rewrite (incomingEmails_objects cs Hobj).
  unfold bind at 1. rewrite (Model_find_run E _ _ w Hf). simpl. rewrite Hq.
  by destruct (newContacts _ _ _ _).
Qed.

(** ** The catch block *)

Lemma Campaign_handler_catch_run (e : jserror) (w : World) :
  Campaign.handler_catch e w = (with_trace w (trace w ++ catch_events e), inr tt).
Proof.
  unfold Campaign.handler_catch, catch_events.
  case_bool_decide; unfold respond, bind, emit; simpl; [done|].
  by rewrite <- app_assoc.
Qed.

Lemma Server2_handler_catch_run (e : jserror) (w : World) :
  Server2.handler_catch e w = (with_trace w (trace w ++ catch_events e), inr tt).
Proof.
  unfold Server2.handler_catch, catch_events.
  case_bool_decide; unfold respond, bind, emit; simpl; [done|].
  by rewrite <- app_assoc.
Qed.

(** ** Symbolic execution of a valid request *)

Lemma Campaign_handler_run (E : Env) (req : Request)
    (campaign user_id conversation_id : string) (cs : list jsval)
    (subject text : jsval) (w w1 : World) (m : model) (existing : list doc) :
  valid_request req campaign user_id conversation_id cs subject text ->
  Campaign.getContactModel E campaign w = (w1, inr (Ref m)) ->
  env_find_fault E = None ->
  db_find (db_of w1 (conn_uri (model_conn m))) (map email_of cs) = inr existing ->
  let new := newContacts user_id conversation_id (existingEmails existing) cs in
  let w2 := after_find E m (map email_of cs) w1 in
  exec (Campaign.handler E req) w
  = match new with
    | [] => with_trace w2 (trace w2 ++ [EvRespond 200 (Campaign.already_exist campaign)])
    | _ =>
        match env_insert_fault E with
        | Some e =>
            with_trace w2 (trace w2 ++ EvInsertMany m new false :: catch_events e)
        | None =>
            let w3 := after_insert m new false w2 in
            match (db_insertMany false (db_of w2 (conn_uri (model_conn m))) new).2 with
            | inl e => with_trace w3 (trace w3 ++ catch_events e)
            | inr inserted => exec (Campaign.finish E campaign subject text inserted) w3
            end
        end
    end.
Proof.
  intros Hv Hm Hf Hq new w2.
  unfold exec, Campaign.handler, try_catch.
  rewrite (Campaign_handler_try_valid E req _ _ _ _ _ _ Hv).
  rewrite (Campaign_process_run E _ _ _ _ _ _ w w1 m existing Hm
             (vp_objects _ _ _ _ _ _ (vr_payload _ _ _ _ _ _ _ Hv)) Hf Hq).
  fold new w2. destruct new as [|c new'] eqn:Hnew; [done|].
  unfold bind at 1.
  destruct (env_insert_fault E) as [e|] eqn:Hi.
  - rewrite (Model_insertMany_fault E m _ false w2 e Hi).
    rewrite Campaign_handler_catch_run. simpl.
    rewrite with_trace_twice. by rewrite <- app_assoc.
  - rewrite (Model_insertMany_run E m _ false w2 Hi).
    destruct (db_insertMany _ _ _).2 as [e|inserted] eqn:Hr.
    + by rewrite Campaign_handler_catch_run.
    + destruct (Campaign_finish_run E campaign subject text inserted
                  (after_insert m (c :: new') false w2)) as (es & -> & _ & _).
      done.
Qed.

Lemma Server2_handler_run (E : Env) (req : Request)
    (user_id conversation_id : string) (cs : list jsval)
    (subject text : jsval) (w : World) (existing : list doc) :
  valid_payload req user_id conversation_id cs subject text ->
  env_find_fault E = None ->
  db_find (db_of w (Server2.MONGO_URI E)) (map email_of cs) = inr existing ->
  let m := Server2.Contact E in
  let new := newContacts user_id conversation_id (existingEmails existing) cs in
  let w2 := after_find E m (map email_of cs) w in
  exec (Server2.handler E req) w
  = match new with
    | [] => with_trace w2 (trace w2 ++ [EvRespond 200 Server2.already_exist])
    | _ =>
        match env_insert_fault E with
        | Some e =>
            with_trace w2 (trace w2 ++ EvInsertMany m new false :: catch_events e)
        | None =>
            let w3 := after_insert m new false w2 in
            match (db_insertMany false (db_of w2 (Server2.MONGO_URI E)) new).2 with
            | inl e => with_trace w3 (trace w3 ++ catch_events e)
            | inr inserted => exec (Server2.finish E subject text inserted) w3
            end
        end
    end.
Proof.
  intros Hv Hf Hq m new w2.
  unfold exec, Server2.handler, try_catch.
  rewrite (Server2_handler_try_valid E req _ _ _ _ _ Hv).
  rewrite (Server2_process_run E _ _ _ _ _ w existing
             (vp_objects _ _ _ _ _ _ Hv) Hf Hq).
  fold m new w2. destruct new as [|c new'] eqn:Hnew; [done|].
  unfold bind at 1.
  destruct (env_insert_fault E) as [e|] eqn:Hi.
  - rewrite (Model_insertMany_fault E m _ false w2 e Hi).
    rewrite Server2_handler_catch_run. simpl.
    rewrite with_trace_twice. by rewrite <- app_assoc.
  - rewrite (Model_insertMany_run E m _ false w2 Hi).
    destruct (db_insertMany _ _ _).2 as [e|inserted] eqn:Hr.
    + by rewrite Server2_handler_catch_run.
    + destruct (Server2_finish_run E subject text inserted
                  (after_insert m (c :: new') false w2)) as (es & -> & _ & _).
      done.
Qed.

(** X17. A failure of the store on the query (not a duplicate key) is
    answered [500] and writes nothing. *)
Lemma query_fault_is_500 (E : Env) (req : Request)
    (campaign user_id conversation_id : string) (cs : list jsval)
    (subject text : jsval) (w w1 : World) (m : model) (e : jserror) :
  valid_request req campaign user_id conversation_id cs subject text ->
  Campaign.getContactModel E campaign w = (w1, inr (Ref m)) ->
  env_find_fault E = Some e ->
  err_code e ≠ Some 11000%Z ->
  let w' := exec (Campaign.handler E req) w in
  responses (events_since w1 w') = [(500, error_body "Internal server error")]
  /\ dbs w' = dbs w1.
Proof.
  intros Hv Hm Hf He w'.
  assert (w' = with_trace w1 (trace w1 ++ EvFind m (map email_of cs) :: catch_events e))
    as ->.
  { unfold w', exec, Campaign.handler, try_catch.
    rewrite (Campaign_handler_try_valid E req _ _ _ _ _ _ Hv).
    unfold Campaign.process, bind at 1. rewrite Hm.
    unfold bind at 1, lift.
    rewrite (incomingEmails_objects cs
               (vp_objects _ _ _ _ _ _ (vr_payload _ _ _ _ _ _ _ Hv))).
    unfold bind at 1. rewrite (Model_find_fault E m _ w1 e Hf).
    rewrite Campaign_handler_catch_run. simpl.
    by rewrite with_trace_twice, <- app_assoc. }
  split; [|done].
  erewrite events_since_app; [|reflexivity].
  unfold catch_events. by rewrite bool_decide_eq_false_2.
Qed.

(** ** No response precedes a throw *)

Lemma getContactModel_trace (E : Env) (k : string) (w w1 : World)
    (r : jserror + ref model) :
  Campaign.getContactModel E k w = (w1, r) ->
  exists es, trace w1 = (trace w ++ es)%list /\ forallb router_event es = true.
Proof.
  unfold Campaign.getContactModel.
  destruct (js_lookup (modelCache w) k).
  1,2: intros [= <- <-]; exists []; by rewrite app_nil_r.
  unfold bind at 1, Campaign.getCampaignConnection.
  destruct (negb _).
  { intros [= <- <-]. exists []. by rewrite app_nil_r. }
  destruct (js_lookup (connections w) k).
  - unfold bind, Campaign.set_model, ret. simpl.
    intros [= <- <-]. exists []. simpl. by rewrite app_nil_r.
  - unfold throw. intros [= <- <-]. exists []. by rewrite app_nil_r.
  - unfold bind, Campaign.createConnection, Campaign.set_connection,
      Campaign.set_model, emit, ret. simpl.
    intros [= <- <-]. eexists [_; _; _]. simpl.
    by rewrite <- !app_assoc.
Qed.

Lemma Model_find_trace (E : Env) (C : ref model) (emails : list jsval)
    (w w' : World) (r : jserror + list doc) :
  Model_find E C emails w = (w', r) ->
  exists es, trace w' = (trace w ++ es)%list
             /\ responses es = [] /\ sends es = [] /\ inserts es = [].
Proof.
  unfold Model_find. destruct C as [m|b].
  - unfold bind, emit. simpl. destruct (env_find_fault E).
    + intros [= <- <-]. by eexists [_].
    + destruct (write_each _ _) as [[db' ins] errs].
      intros [= <- <-]. by eexists [_].
  - intros [= <- <-]. exists []. by rewrite app_nil_r.
Qed.

Lemma Model_insertMany_trace (E : Env) (C : ref model) (docs : list jsval)
    (o : bool) (w w' : World) (r : jserror + list doc) :
  Model_insertMany E C docs o w = (w', r) ->
  exists es, trace w' = (trace w ++ es)%list
             /\ responses es = [] /\ sends es = [].
Proof.
  unfold Model_insertMany. destruct C as [m|b].
  - unfold bind, emit. simpl. destruct (env_insert_fault E).
    + intros [= <- <-]. by eexists [_].
    + destruct (db_insertMany _ _ _) as [db' r'].
      intros [= <- <-]. by eexists [_].
  - intros [= <- <-]. exists []. by rewrite app_nil_r.
Qed.

Lemma Campaign_process_throw (E : Env) (k u c : string) (cs : list jsval)
    (subject text : jsval) (w w' : World) (e : jserror) :
  Campaign.process E k u c cs subject text w = (w', inl e) ->
  exists es, trace w' = (trace w ++ es)%list /\ responses es = [].
Proof.
  unfold Campaign.process, bind at 1.
  destruct (Campaign.getContactModel E k w) as [w1 [e1|C]] eqn:Hm;
    destruct (getContactModel_trace E k w w1 _ Hm) as (es1 & Ht1 & Hr1);
    apply router_events_silent in Hr1 as (_ & _ & _ & Hr1).
  { intros [= <- <-]. eauto. }
  unfold bind at 1, lift. destruct (incomingEmails cs) as [e2|emails].
  { intros [= <- <-]. eauto. }
  unfold bind at 1.
  destruct (Model_find E C emails w1) as [w2 [e3|existing]] eqn:Hf;
    destruct (Model_find_trace E C emails w1 w2 _ Hf) as (es2 & Ht2 & Hr2 & _).
  { intros [= <- <-]. exists (es1 ++ es2)%list.
    by rewrite Ht2, Ht1, app_assoc, responses_app, Hr1, Hr2. }
  destruct (newContacts _ _ _ _) as [|n new]; [by intros [=]|].
  unfold bind at 1.
  destruct (Model_insertMany E C (n :: new) false w2) as [w3 [e4|inserted]] eqn:Hi;
    destruct (Model_insertMany_trace E C _ false w2 w3 _ Hi) as (es3 & Ht3 & Hr3 & _).
  { intros [= <- <-]. exists (es1 ++ es2 ++ es3)%list.
    by rewrite Ht3, Ht2, Ht1, !responses_app, Hr1, Hr2, Hr3, <- !app_assoc. }
  destruct (Campaign_finish_run E k subject text inserted w3) as (es & -> & _).
  by intros [=].
Qed.

Lemma Server2_process_throw (E : Env) (u c : string) (cs : list jsval)
    (subject text : jsval) (w w' : World) (e : jserror) :
  Server2.process E u c cs subject text w = (w', inl e) ->
  exists es, trace w' = (trace w ++ es)%list /\ responses es = [].
Proof.
  unfold Server2.process.
  unfold bind at 1, lift. destruct (incomingEmails cs) as [e2|emails].
  { intros [= <- <-]. exists []. by rewrite app_nil_r. }
  unfold bind at 1.
  destruct (Model_find E _ emails w) as [w2 [e3|existing]] eqn:Hf;
    destruct (Model_find_trace E _ emails w w2 _ Hf) as (es2 & Ht2 & Hr2 & _).
  { intros [= <- <-]. eauto. }
  destruct (newContacts _ _ _ _) as [|n new]; [by intros [=]|].
  unfold bind at 1.
  destruct (Model_insertMany E _ (n :: new) false w2) as [w3 [e4|inserted]] eqn:Hi;
    destruct (Model_insertMany_trace E _ _ false w2 w3 _ Hi) as (es3 & Ht3 & Hr3 & _).
  { intros [= <- <-]. exists (es2 ++ es3)%list.
    by rewrite Ht3, Ht2, !responses_app, Hr2, Hr3, <- !app_assoc. }
  destruct (Server2_finish_run E subject text inserted w3) as (es & -> & _).
  by intros [=].
Qed.

(** The destructuring of [req.body]: a throw here adds no event. *)
Ltac destructure_body contacts subject text :=
  let e1 := fresh "e" in
  unfold bind at 1, lift; destruct (js_prop _ "contacts") as [e1|contacts];
    [intros [= <- <-]; exists []; by rewrite app_nil_r|];
  unfold bind at 1; destruct (js_prop _ "subject") as [e1|subject];
    [intros [= <- <-]; exists []; by rewrite app_nil_r|];
  unfold bind at 1; destruct (js_prop _ "text") as [e1|text];
    [intros [= <- <-]; exists []; by rewrite app_nil_r|].

Lemma Campaign_handler_try_throw (E : Env) (req : Request) (w w' : World) (e : jserror) :
  Campaign.handler_try E req w = (w', inl e) ->
  exists es, trace w' = (trace w ++ es)%list /\ responses es = [].
Proof.
  unfold Campaign.handler_try.
  destructure_body contacts subject text.
  destruct (negb _); [by intros [=]|].
  destruct (_ || _); [by intros [=]|].
  destruct (negb _); [by intros [=]|].
  destruct contacts as [| | | | |[|c cs]|]; try by intros [=].
  apply Campaign_process_throw.
Qed.

Lemma Server2_handler_try_throw (E : Env) (req : Request) (w w' : World) (e : jserror) :
  Server2.handler_try E req w = (w', inl e) ->
  exists es, trace w' = (trace w ++ es)%list /\ responses es = [].
Proof.
  unfold Server2.handler_try.
  destructure_body contacts subject text.
  destruct (_ || _); [by intros [=]|].
  destruct contacts as [| | | | |[|c cs]|]; try by intros [=].
  apply Server2_process_throw.
Qed.

(** ** C7: errors reaching the top level *)

(** C7. Whenever the [try] block of a request throws, in either variant,
    the only response of the request is the one of the [catch] block:
    [201] with an empty array when the error carries code 11000, and [500]
    with the body [{ error: "Internal server error" }] for any other
    error. *)
Theorem top_level_error_response (E : Env) (req : Request) (w : World) :
  (forall w' e, Campaign.handler_try E req w = (w', inl e) ->
     responses (events_since w (exec (Campaign.handler E req) w))
     = [if bool_decide (err_code e = Some 11000%Z) then (201, JArr [])
        else (500, JObj [("error", JStr "Internal server error")])])
  /\
  (forall w' e, Server2.handler_try E req w = (w', inl e) ->
     responses (events_since w (exec (Server2.handler E req) w))
     = [if bool_decide (err_code e = Some 11000%Z) then (201, JArr [])
        else (500, JObj [("error", JStr "Internal server error")])]).
Proof.
  split; intros w' e Hthrow.
  - destruct (Campaign_handler_try_throw E req w w' e Hthrow) as (es & Ht & Hr).
    unfold exec, Campaign.handler, try_catch. rewrite Hthrow.
    rewrite Campaign_handler_catch_run. simpl.
    erewrite events_since_app; [|by rewrite Ht, <- app_assoc].
    rewrite responses_app, Hr. unfold catch_events. by case_bool_decide.
  - destruct (Server2_handler_try_throw E req w w' e Hthrow) as (es & Ht & Hr).
    unfold exec, Server2.handler, try_catch. rewrite Hthrow.
    rewrite Server2_handler_catch_run. simpl.
    erewrite events_since_app; [|by rewrite Ht, <- app_assoc].
    rewrite responses_app, Hr. unfold catch_events. by case_bool_decide.
Qed.

Lemma top_level_error_response_witness :
  responses (events_since world0
               (exec (Campaign.handler (calm "mongodb://host") twice_request) world0))
  = [(201, JArr [])]
  /\ responses (events_since world0
               (exec (Server2.handler (calm "mongodb://host") twice_request) world0))
  = [(201, JArr [])].
Proof.
  pose proof (top_level_error_response (calm "mongodb://host") twice_request world0)
    as [Hc Hs].
  split.
  - eapply (Hc _ E11000). vm_compute. reflexivity.
  - eapply (Hs _ E11000). vm_compute. reflexivity.
Defined.

(** ** The store across the stages of a request *)

Lemma db_of_with_db (w : World) (uri : string) (db : list doc) :
  db_of (with_db w uri db) uri = db.
Proof. unfold db_of, with_db. simpl. by rewrite lookup_insert_eq. Qed.

Lemma db_of_with_trace (w : World) (t : list event) (uri : string) :
  db_of (with_trace w t) uri = db_of w uri.
Proof. reflexivity. Qed.

Lemma db_of_after_find (E : Env) (m : model) (emails : list jsval) (w : World) :
  db_of (after_find E m emails w) (conn_uri (model_conn m))
  = concurrent_db E (db_of w (conn_uri (model_conn m))).
Proof. unfold after_find. by rewrite db_of_with_db. Qed.

Lemma db_of_after_insert (m : model) (docs : list jsval) (o : bool) (w : World) :
  db_of (after_insert m docs o w) (conn_uri (model_conn m))
  = (db_insertMany o (db_of w (conn_uri (model_conn m))) docs).1.
Proof. unfold after_insert. by rewrite db_of_with_db. Qed.

(** ** C8: notification of the inserted records (campaign.js) *)

(** The events of a valid request of the multi-campaign variant whose
    batch insert returned [inserted]: routing, the query, the insert, the
    console output and one send per record, then the [200] response. *)
Lemma Campaign_success_events (E : Env) (req : Request)
    (campaign user_id conversation_id : string) (cs : list jsval)
    (subject text : jsval) (w w1 : World) (m : model)
    (existing inserted db' : list doc) :
  valid_request req campaign user_id conversation_id cs subject text ->
  Campaign.getContactModel E campaign w = (w1, inr (Ref m)) ->
  env_find_fault E = None ->
  db_find (db_of w1 (conn_uri (model_conn m))) (map email_of cs) = inr existing ->
  newContacts user_id conversation_id (existingEmails existing) cs ≠ [] ->
  env_insert_fault E = None ->
  db_insertMany false (concurrent_db E (db_of w1 (conn_uri (model_conn m))))
    (newContacts user_id conversation_id (existingEmails existing) cs)
  = (db', inr inserted) ->
  exists es1 es,
    forallb router_event es1 = true
    /\ forallb dispatch_event es = true
    /\ sends es = map (notification Campaign.sender subject text) (responseData inserted)
    /\ events_since w (exec (Campaign.handler E req) w)
       = (es1 ++ [EvFind m (map email_of cs)]
          ++ [EvInsertMany m (newContacts user_id conversation_id
                                (existingEmails existing) cs) false]
          ++ es ++ [EvRespond 200 (processed campaign (length inserted))])%list.
Proof.
  intros Hv Hm Hf Hq Hnew Hi Hins.
  destruct (vr_registered _ _ _ _ _ _ _ Hv) as [dbName Hreg].
  destruct (getContactModel_registered E campaign dbName w Hreg)
    as (m' & w1' & es1 & Hm' & _ & Ht1 & Hr1 & _).
  rewrite Hm in Hm'. injection Hm' as <- <-.
  pose proof (Campaign_handler_run E req _ _ _ _ _ _ w w1 m existing Hv Hm Hf Hq) as Hrun.
  cbv zeta in Hrun.
  destruct (newContacts _ _ _ _) as [|n new] eqn:Hn; [done|].
  rewrite Hi, db_of_after_find, Hins in Hrun. simpl in Hrun.
  destruct (Campaign_finish_run E campaign subject text inserted
              (after_insert m (n :: new) false (after_find E m (map email_of cs) w1)))
    as (es & Hfin & Hs & Hd).
  unfold exec in Hrun at 2. rewrite Hfin in Hrun. simpl in Hrun.
  exists es1, es. repeat split; try done.
  apply events_since_app. rewrite Hrun. simpl.
  rewrite Ht1. by rewrite <- !app_assoc.
Qed.




(** ** C2: validation *)

(** X9. The four checks, as the code evaluates them, on a request whose body
    was parsed: each rejection is a [400] with the message of the first
    failing check and leaves the world as it was but for that response.
    The third check rejects a campaign that [CAMPAIGNS[campaign]] does not
    find, that is, one that is neither an own key of the registry nor a
    member of [Object.prototype]. *)
Lemma validation_fail_fast (E : Env) (req : Request) (w : World)
    (contacts subject text : jsval) :
  js_prop (req_body req) "contacts" = inr contacts ->
  js_prop (req_body req) "subject" = inr subject ->
  js_prop (req_body req) "text" = inr text ->
  let campaign := req_header req "campaign" in
  let ids := truthy_header (req_header req "user_id")
             && truthy_header (req_header req "conversation_id") in
  let reject msg := with_trace w (trace w ++ [EvRespond 400 (error_body msg)]) in
  (truthy_header campaign = false ->
     exec (Campaign.handler E req) w = reject "Missing campaign header")
  /\ (truthy_header campaign = true -> ids = false ->
     exec (Campaign.handler E req) w
     = reject "Missing user_id or conversation_id in headers")
  /\ (truthy_header campaign = true -> ids = true ->
     Campaign.CAMPAIGNS !! header_value campaign = None ->
     header_value campaign ∉ Object_prototype ->
     exec (Campaign.handler E req) w
     = reject "Invalid campaign! Please enter the correct campaign.")
  /\ (truthy_header campaign = true -> ids = true ->
     is_Some (Campaign.CAMPAIGNS !! header_value campaign) ->
     (forall c cs, contacts ≠ JArr (c :: cs)) ->
     exec (Campaign.handler E req) w
     = reject "Request must include an array of contacts").
Proof.
  intros Hc Hs Ht campaign ids reject.
  unfold exec, Campaign.handler, try_catch, Campaign.handler_try.
  rewrite Hc, Hs, Ht. unfold bind, lift. fold campaign.
  repeat split.
  - intros ->. done.
  - intros -> Hids. simpl.
    replace (_ || _) with (negb ids) by (unfold ids; by rewrite negb_andb).
    by rewrite Hids.
  - intros -> Hids Hk Hp. simpl.
    replace (_ || _) with (negb ids) by (unfold ids; by rewrite negb_andb).
    rewrite Hids. simpl. unfold js_lookup. rewrite Hk.
    by rewrite bool_decide_eq_false_2.
  - intros -> Hids [dbName Hk] Hcs. simpl.
    replace (_ || _) with (negb ids) by (unfold ids; by rewrite negb_andb).
    rewrite Hids. simpl.
    destruct (registered_lookup _ _ Hk) as (-> & -> & _). simpl.
    destruct contacts as [| | | | |[|c cs]|]; try done.
    by destruct (Hcs c cs).
Qed.

(** *** No cache entry for a campaign outside the registry *)

Lemma Model_find_caches (E : Env) (C : ref model) (emails : list jsval)
    (w w' : World) (r : jserror + list doc) :
  Model_find E C emails w = (w', r) -> caches w' = caches w.
Proof.
  unfold Model_find. destruct C as [m|b]; [|by intros [= <- <-]].
  unfold bind, emit. simpl. destruct (env_find_fault E); [by intros [= <- <-]|].
  destruct (write_each _ _) as [[db' ins] errs]. by intros [= <- <-].
Qed.

Lemma Model_insertMany_caches (E : Env) (C : ref model) (docs : list jsval)
    (o : bool) (w w' : World) (r : jserror + list doc) :
  Model_insertMany E C docs o w = (w', r) -> caches w' = caches w.
Proof.
  unfold Model_insertMany. destruct C as [m|b]; [|by intros [= <- <-]].
  unfold bind, emit. simpl. destruct (env_insert_fault E); [by intros [= <- <-]|].
  destruct (db_insertMany _ _ _) as [db' r']. by intros [= <- <-].
Qed.

Lemma Campaign_process_caches (E : Env) (k u c : string) (cs : list jsval)
    (subject text : jsval) (w w' : World) (r : jserror + unit) :
  Campaign.CAMPAIGNS !! k = None ->
  Campaign.process E k u c cs subject text w = (w', r) ->
  caches w' = caches w.
Proof.
  intros Hk. unfold Campaign.process, bind at 1.
  pose proof (getContactModel_unregistered E k w Hk) as Hm. unfold exec in Hm.
  destruct (Campaign.getContactModel E k w) as [w1 [e1|C]]; simpl in Hm; subst w1.
  { by intros [= <- <-]. }
  unfold bind at 1, lift. destruct (incomingEmails cs) as [e2|emails].
  { by intros [= <- <-]. }
  unfold bind at 1.
  destruct (Model_find E C emails w) as [w2 [e3|existing]] eqn:Hf;
    apply Model_find_caches in Hf.
  { by intros [= <- <-]. }
  destruct (newContacts _ _ _ _) as [|n new].
  { unfold respond, emit. by intros [= <- <-]. }
  unfold bind at 1.
  destruct (Model_insertMany E C (n :: new) false w2) as [w3 [e4|inserted]] eqn:Hi;
    apply Model_insertMany_caches in Hi.
  { intros [= <- <-]. congruence. }
  destruct (Campaign_finish_run E k subject text inserted w3) as (es & -> & _).
  intros [= <- <-]. unfold caches in *. simpl. congruence.
Qed.

(** X11. Whatever else the request carries, a [campaign] header that is
    not an own key of the registry leaves both caches as they were. *)
Lemma unregistered_campaign_no_cache_entry (E : Env) (req : Request) (w : World) :
  Campaign.CAMPAIGNS !! header_value (req_header req "campaign") = None ->
  connections (exec (Campaign.handler E req) w) = connections w
  /\ modelCache (exec (Campaign.handler E req) w) = modelCache w.
Proof.
  intros Hk.
  assert (forall w' r, Campaign.handler_try E req w = (w', r) -> caches w' = caches w)
    as Htry.
  { intros w' r. unfold Campaign.handler_try.
    unfold bind at 1, lift. destruct (js_prop _ "contacts") as [e1|contacts];
      [by intros [= <- <-]|].
    unfold bind at 1. destruct (js_prop _ "subject") as [e1|subject];
      [by intros [= <- <-]|].
    unfold bind at 1. destruct (js_prop _ "text") as [e1|text];
      [by intros [= <- <-]|].
    unfold respond, emit.
    destruct (negb _); [by intros [= <- <-]|].
    destruct (_ || _); [by intros [= <- <-]|].
    destruct (negb _); [by intros [= <- <-]|].
    destruct contacts as [| | | | |[|c cs]|]; try by intros [= <- <-].
    by apply Campaign_process_caches. }
  unfold exec, Campaign.handler, try_catch.
  destruct (Campaign.handler_try E req w) as [w' [e|[]]];
    pose proof (Htry _ _ eq_refl) as Hc; [rewrite Campaign_handler_catch_run|];
    unfold caches in Hc; simpl; by injection Hc.
Qed.

(** C2. A request whose [campaign] header is [constructor], a value that
    is not in the registry: [CAMPAIGNS["constructor"]] finds the inherited
    member of [Object.prototype], which is truthy, so the third check lets
    the request through; [modelCache["constructor"]] is truthy in the same
    way and is returned as the model, whose [find] is not a function.  The
    request is answered [500], not [400].  No cache entry and no store
    change is made. *)
Theorem inherited_key_passes_validation :
  Campaign.CAMPAIGNS !! "constructor" = None
  /\ exec (Campaign.handler (calm "mongodb://host") prototype_request) world0
     = with_trace world0
         [EvError "❌ Error in /get-unique-emails: TypeError: Contact.find is not a function";
          EvRespond 500 (error_body "Internal server error")].
Proof. split; vm_compute; reflexivity. Qed.

(** ** C3: the success response *)

(** In the single-database variant a valid request whose insert succeeds
    is never answered: the [try] block ends with the awaited sends. *)
Lemma Server2_success_unanswered (E : Env) (req : Request)
    (user_id conversation_id : string) (cs : list jsval)
    (subject text : jsval) (w : World) (existing inserted db' : list doc) :
  valid_payload req user_id conversation_id cs subject text ->
  env_find_fault E = None ->
  db_find (db_of w (Server2.MONGO_URI E)) (map email_of cs) = inr existing ->
  newContacts user_id conversation_id (existingEmails existing) cs ≠ [] ->
  env_insert_fault E = None ->
  db_insertMany false (concurrent_db E (db_of w (Server2.MONGO_URI E)))
    (newContacts user_id conversation_id (existingEmails existing) cs)
  = (db', inr inserted) ->
  let evs := events_since w (exec (Server2.handler E req) w) in
  responses evs = []
  /\ sends evs = map (notification Server2.sender subject text) (responseData inserted).
Proof.
  intros Hv Hf Hq Hnew Hi Hins evs.
  pose proof (Server2_handler_run E req _ _ _ _ _ w existing Hv Hf Hq) as Hrun.
  cbv zeta in Hrun.
  destruct (newContacts _ _ _ _) as [|n new] eqn:Hn; [done|].
  pose proof (db_of_after_find E (Server2.Contact E) (map email_of cs) w) as Hdb.
  simpl in Hdb. rewrite Hi, Hdb, Hins in Hrun. simpl in Hrun.
  destruct (Server2_finish_run E subject text inserted
              (after_insert (Server2.Contact E) (n :: new) false
                 (after_find E (Server2.Contact E) (map email_of cs) w)))
    as (es & Hfin & Hs & Hd).
  unfold exec in Hrun at 2. rewrite Hfin in Hrun. simpl in Hrun.
  assert (evs = ([EvFind (Server2.Contact E) (map email_of cs)]
                 ++ [EvInsertMany (Server2.Contact E) (n :: new) false] ++ es)%list) as ->.
  { unfold evs. apply events_since_app. rewrite Hrun. simpl.
    by rewrite <- !app_assoc. }
  apply dispatch_events_silent in Hd as (_ & _ & Hrd & _).
  split.
  - by rewrite !responses_app, Hrd.
  - by rewrite !sends_app, Hs.
Qed.

(** C3. The single-database handler on a valid request with one new
    contact: the record is inserted and its notification is sent, and the
    handler ends without sending any response, where the multi-campaign
    handler sends the [200] success body. *)
Theorem single_database_success_unanswered :
  let w' := exec (Server2.handler (calm "mongodb://host") one_new_request) world0 in
  valid_payload one_new_request "u1" "c9" [contact "b@x.com"] (JStr "Hi") (JStr "Hello")
  /\ db_of w' "mongodb://host" = [stored "u1" "c9" "b@x.com"]
  /\ sends (trace w')
     = [notification Server2.sender (JStr "Hi") (JStr "Hello")
          {| r_name := None; r_email := "b@x.com"; r_company := None |}]
  /\ responses (trace w') = [].
Proof.
  split; [|by vm_compute].
  split; try reflexivity; discriminate.
Qed.

(** ** C1: the deduplication pipeline *)

Lemma filter_selects {A} (P : A -> Prop) (f : A -> bool) (l : list A) :
  (forall x, f x = true <-> P x) -> selects P l (List.filter f l).
Proof.
  intros Hf. induction l as [|x l IH]; simpl; [constructor|].
  destruct (f x) eqn:Hx.
  - apply selects_keep; [by apply Hf | done].
  - apply selects_drop; [|done]. rewrite <- Hf. congruence.
Qed.

Lemma db_find_spec (db : list doc) (emails : list jsval) (existing : list doc) :
  db_find db emails = inr existing ->
  forall d, d ∈ existing
    <-> d ∈ db /\ exists v, v ∈ emails /\ castString v = Some (Some (d_email d)).
Proof.
  unfold db_find. destruct (mapM castString emails) as [qs|] eqn:Hqs; [|done].
  intros [= <-] d. apply mapM_Some in Hqs.
  rewrite list_elem_of_filter. split.
  - intros [Hin Hd]. split; [done|].
    apply list_elem_of_lookup in Hin as [i Hi].
    destruct (Forall2_lookup_r _ _ _ _ _ Hqs Hi) as (v & Hv & Hcast).
    exists v. split; [|done]. apply list_elem_of_lookup. eauto.
  - intros [Hd (v & Hv & Hcast)]. split; [|done].
    apply list_elem_of_lookup in Hv as [i Hi].
    destruct (Forall2_lookup_l _ _ _ _ _ Hqs Hi) as (q & Hq & Hcast').
    rewrite Hcast in Hcast'. injection Hcast' as <-.
    apply list_elem_of_lookup. eauto.
Qed.

(** The contacts the code keeps are exactly the input contacts whose email
    is not the email of a returned record. *)
Lemma newContacts_selects (user_id conversation_id : string)
    (existing : list doc) (cs : list jsval) :
  exists kept,
    selects (fun c => forall d, d ∈ existing -> email_of c ≠ JStr (d_email d)) cs kept
    /\ newContacts user_id conversation_id (existingEmails existing) cs
       = map (augment user_id conversation_id) kept.
Proof.
  eexists. split; [|reflexivity].
  apply filter_selects. intros c.
  rewrite negb_true_iff, <- not_true_iff_false, Set_has_existing.
  split.
  - intros Hno d Hd Heq. apply Hno. eauto.
  - intros Hall (d & Hd & Heq). by apply (Hall d).
Qed.

(** The augmented object carries the two header values and, under every
    other key, what the contact carried. *)
Lemma augment_props (user_id conversation_id : string) (c : jsval) :
  exists ps,
    augment user_id conversation_id c = JObj ps
    /\ obj_get ps "user_id" = JStr user_id
    /\ obj_get ps "conversation_id" = JStr conversation_id
    /\ forall k, k ≠ "user_id" -> k ≠ "conversation_id" ->
         obj_get ps k = obj_get (spread c) k.
Proof.
  eexists. split; [reflexivity|]. split; [|split].
  - rewrite obj_get_set_ne by done. apply obj_get_set_eq.
  - apply obj_get_set_eq.
  - intros k Hu Hc. rewrite !obj_get_set_ne by done. done.
Qed.

Lemma tail_events_silent (es : list event) :
  forallb tail_event es = true -> queries es = [] /\ inserts es = [].
Proof.
  induction es as [|e es IH]; simpl; [done|].
  intros [He Hes]%andb_prop. destruct (IH Hes) as (? & ?).
  by destruct e.
Qed.

Lemma dispatch_tail (es : list event) :
  forallb dispatch_event es = true -> forallb tail_event es = true.
Proof.
  induction es as [|e es IH]; simpl; [done|].
  intros [He Hes]%andb_prop. rewrite (IH Hes). by destruct e.
Qed.

Lemma catch_events_tail (e : jserror) : forallb tail_event (catch_events e) = true.
Proof. unfold catch_events. by case_bool_decide. Qed.

(** The events of a valid request whose query was answered: the query,
    then the batch insert if a new contact remains, then only console
    output, sends and the response. *)
Lemma Campaign_handler_events (E : Env) (req : Request)
    (campaign user_id conversation_id : string) (cs : list jsval)
    (subject text : jsval) (w w1 : World) (m : model) (existing : list doc) :
  valid_request req campaign user_id conversation_id cs subject text ->
  Campaign.getContactModel E campaign w = (w1, inr (Ref m)) ->
  env_find_fault E = None ->
  db_find (db_of w1 (conn_uri (model_conn m))) (map email_of cs) = inr existing ->
  let new := newContacts user_id conversation_id (existingEmails existing) cs in
  exists es1 tail,
    forallb router_event es1 = true
    /\ forallb tail_event tail = true
    /\ events_since w (exec (Campaign.handler E req) w)
       = (es1 ++ [EvFind m (map email_of cs)]
          ++ match new with [] => [] | _ => [EvInsertMany m new false] end
          ++ tail)%list.
Proof.
  intros Hv Hm Hf Hq new.
  destruct (vr_registered _ _ _ _ _ _ _ Hv) as [dbName Hreg].
  destruct (getContactModel_registered E campaign dbName w Hreg)
    as (m' & w1' & es1 & Hm' & _ & Ht1 & Hr1 & _).
  rewrite Hm in Hm'. injection Hm' as <- <-.
  pose proof (Campaign_handler_run E req _ _ _ _ _ _ w w1 m existing Hv Hm Hf Hq) as Hrun.
  cbv zeta in Hrun. fold new in Hrun. exists es1.
  destruct new as [|n new'].
  { exists [EvRespond 200 (Campaign.already_exist campaign)].
    split; [done|]. split; [done|].
    apply events_since_app. rewrite Hrun. simpl.
    by rewrite Ht1, <- !app_assoc. }
  destruct (env_insert_fault E) as [e|].
  { exists (catch_events e). split; [done|]. split; [apply catch_events_tail|].
    apply events_since_app. rewrite Hrun. simpl.
    by rewrite Ht1, <- !app_assoc. }
  destruct (db_insertMany _ _ _).2 as [e|inserted].
  { exists (catch_events e). split; [done|]. split; [apply catch_events_tail|].
    apply events_since_app. rewrite Hrun. simpl.
    by rewrite Ht1, <- !app_assoc. }
  destruct (Campaign_finish_run E campaign subject text inserted
              (after_insert m (n :: new') false (after_find E m (map email_of cs) w1)))
    as (es & Hfin & _ & Hd).
  unfold exec in Hrun at 2. rewrite Hfin in Hrun. simpl in Hrun.
  exists (es ++ [EvRespond 200 (processed campaign (length inserted))])%list.
  split; [done|]. split.
  { apply forallb_app_true; [by apply dispatch_tail | done]. }
  apply events_since_app. rewrite Hrun. simpl.
  by rewrite Ht1, <- !app_assoc.
Qed.

Lemma Server2_handler_events (E : Env) (req : Request)
    (user_id conversation_id : string) (cs : list jsval)
    (subject text : jsval) (w : World) (existing : list doc) :
  valid_payload req user_id conversation_id cs subject text ->
  env_find_fault E = None ->
  db_find (db_of w (Server2.MONGO_URI E)) (map email_of cs) = inr existing ->
  let new := newContacts user_id conversation_id (existingEmails existing) cs in
  exists tail,
    forallb tail_event tail = true
    /\ events_since w (exec (Server2.handler E req) w)
       = ([EvFind (Server2.Contact E) (map email_of cs)]
          ++ match new with [] => [] | _ => [EvInsertMany (Server2.Contact E) new false] end
          ++ tail)%list.
Proof.
  intros Hv Hf Hq new.
  pose proof (Server2_handler_run E req _ _ _ _ _ w existing Hv Hf Hq) as Hrun.
  cbv zeta in Hrun. fold new in Hrun.
  destruct new as [|n new'].
  { exists [EvRespond 200 Server2.already_exist]. split; [done|].
    apply events_since_app. rewrite Hrun. simpl.
    by rewrite <- !app_assoc. }
  destruct (env_insert_fault E) as [e|].
  { exists (catch_events e). split; [apply catch_events_tail|].
    apply events_since_app. rewrite Hrun. simpl.
    by rewrite <- !app_assoc. }
  destruct (db_insertMany _ _ _).2 as [e|inserted].
  { exists (catch_events e). split; [apply catch_events_tail|].
    apply events_since_app. rewrite Hrun. simpl.
    by rewrite <- !app_assoc. }
  destruct (Server2_finish_run E subject text inserted
              (after_insert (Server2.Contact E) (n :: new') false
                 (after_find E (Server2.Contact E) (map email_of cs) w)))
    as (es & Hfin & _ & Hd).
  unfold exec in Hrun at 2. rewrite Hfin in Hrun. simpl in Hrun.
  exists es. split; [by apply dispatch_tail|].
  apply events_since_app. rewrite Hrun. simpl.
  by rewrite <- !app_assoc.
Qed.

Lemma dedup_outcome_of_events (user_id conversation_id : string) (cs : list jsval)
    (store existing : list doc) (m : model) (es1 tail : list event) :
  db_find store (map email_of cs) = inr existing ->
  forallb router_event es1 = true ->
  forallb tail_event tail = true ->
  let new := newContacts user_id conversation_id (existingEmails existing) cs in
  dedup_outcome user_id conversation_id cs store existing
    (es1 ++ [EvFind m (map email_of cs)]
     ++ match new with [] => [] | _ => [EvInsertMany m new false] end
     ++ tail).
Proof.
  intros Hq Hr1 Ht new. unfold new.
  apply router_events_silent in Hr1 as (Hq1 & Hi1 & _ & _).
  apply tail_events_silent in Ht as (Hqt & Hit).
  destruct (newContacts_selects user_id conversation_id existing cs)
    as (kept & Hsel & Hnew).
  split; [|split; [|split]].
  - rewrite !queries_app, Hq1, Hqt. simpl.
    by destruct (newContacts _ _ _ _).
  - by apply db_find_spec.
  - exists kept. split; [done|].
    rewrite !inserts_app, Hi1, Hit, Hnew. simpl.
    by destruct kept.
  - intros c. apply augment_props.
Qed.

(** C1. For a valid request, in both variants, once the store has answered
    the query: the handler queried the store once, for the emails of the
    input contacts in input order; the records returned are the stored
    records whose email is among them; and [newContacts], the batch handed
    to [insertMany], is in input order exactly the input contacts whose
    email is the email of no returned record, each with [user_id] and
    [conversation_id] set to the header values. *)
Theorem dedup_pipeline (E : Env) (req : Request)
    (campaign user_id conversation_id : string) (cs : list jsval)
    (subject text : jsval) (w w1 : World) (m : model) (existing : list doc) :
  (valid_request req campaign user_id conversation_id cs subject text ->
   Campaign.getContactModel E campaign w = (w1, inr (Ref m)) ->
   env_find_fault E = None ->
   db_find (db_of w (conn_uri (model_conn m))) (map email_of cs) = inr existing ->
   dedup_outcome user_id conversation_id cs
     (db_of w (conn_uri (model_conn m))) existing
     (events_since w (exec (Campaign.handler E req) w)))
  /\
  (valid_payload req user_id conversation_id cs subject text ->
   env_find_fault E = None ->
   db_find (db_of w (Server2.MONGO_URI E)) (map email_of cs) = inr existing ->
   dedup_outcome user_id conversation_id cs
     (db_of w (Server2.MONGO_URI E)) existing
     (events_since w (exec (Server2.handler E req) w))).
Proof.
  split.
  - intros Hv Hm Hf Hq.
    destruct (vr_registered _ _ _ _ _ _ _ Hv) as [dbName Hreg].
    destruct (getContactModel_registered E campaign dbName w Hreg)
      as (m' & w1' & es0 & Hm' & Hdbs & _).
    rewrite Hm in Hm'. injection Hm' as <- <-.
    assert (db_of w1 (conn_uri (model_conn m)) = db_of w (conn_uri (model_conn m)))
      as Hdb by (unfold db_of; by rewrite Hdbs).
    rewrite <- Hdb in Hq.
    destruct (Campaign_handler_events E req _ _ _ _ _ _ w w1 m existing Hv Hm Hf Hq)
      as (es1 & tail & Hr1 & Ht & ->).
    rewrite Hdb in Hq. by apply dedup_outcome_of_events.
  - intros Hv Hf Hq.
    destruct (Server2_handler_events E req _ _ _ _ _ w existing Hv Hf Hq)
      as (tail & Ht & ->).
    by apply (dedup_outcome_of_events _ _ _ _ _ _ []).
Qed.

Lemma mixed_request_valid :
  valid_request mixed_request "campaign1" "u1" "c1"
    [contact "a@x.com"; contact "b@x.com"] (JStr "Hi") (JStr "Hello").
Proof.
  split; [reflexivity | by eexists |].
  split; try reflexivity; discriminate.
Defined.

Lemma dedup_pipeline_witness :
  let E := calm "mongodb://host" in
  let cs := [contact "a@x.com"; contact "b@x.com"] in
  dedup_outcome "u1" "c1" cs [stored "u0" "c0" "a@x.com"] [stored "u0" "c0" "a@x.com"]
    (events_since world_a (exec (Campaign.handler E mixed_request) world_a))
  /\ dedup_outcome "u1" "c1" cs [stored "u0" "c0" "a@x.com"] [stored "u0" "c0" "a@x.com"]
    (events_since world_a (exec (Server2.handler E mixed_request) world_a)).
Proof.
  intros E cs.
  pose proof (dedup_pipeline E mixed_request "campaign1" "u1" "c1" cs
                (JStr "Hi") (JStr "Hello") world_a
                (exec (Campaign.getContactModel E "campaign1") world_a)
                (Model (Conn 0 "mongodb://host/campaign1_db?retryWrites=true&w=majority")
                       "Contact" "contacts")
                [stored "u0" "c0" "a@x.com"]) as [Hc Hs].
  split.
  - apply Hc.
    + exact mixed_request_valid.
    + vm_compute. reflexivity.
    + reflexivity.
    + vm_compute. reflexivity.
  - apply Hs.
    + exact (vr_payload _ _ _ _ _ _ _ mixed_request_valid).
    + reflexivity.
    + vm_compute. reflexivity.
Defined.

(** ** C6: every email already exists *)

Lemma db_find_strings (db : list doc) (cs : list jsval) :
  (forall c, c ∈ cs -> exists s, email_of c = JStr s) ->
  exists existing, db_find db (map email_of cs) = inr existing.
Proof.
  intros Hs. unfold db_find.
  destruct (mapM castString (map email_of cs)) as [qs|] eqn:Hqs; [eauto|].
  exfalso. apply eq_None_not_Some in Hqs. apply Hqs.
  apply mapM_is_Some, Forall_forall. intros v Hv.
  apply list_elem_of_fmap in Hv as (c & -> & Hc).
  destruct (Hs c Hc) as [s ->]. by eexists.
Qed.

Lemma filter_none {A} (f : A -> bool) (l : list A) :
  (forall x, x ∈ l -> f x = false) -> List.filter f l = [].
Proof.
  induction l as [|x l IH]; simpl; [done|]. intros H.
  rewrite (H x) by apply list_elem_of_here.
  apply IH. intros y Hy. apply H. by apply list_elem_of_further.
Qed.

Lemma newContacts_all_existing (user_id conversation_id : string)
    (db existing : list doc) (cs : list jsval) :
  db_find db (map email_of cs) = inr existing ->
  (forall c, c ∈ cs -> exists s, email_of c = JStr s /\ s ∈ emails_of db) ->
  newContacts user_id conversation_id (existingEmails existing) cs = [].
Proof.
  intros Hq Hall. unfold newContacts.
  rewrite filter_none; [done|]. intros c Hc.
  apply negb_false_iff, Set_has_existing.
  destruct (Hall c Hc) as (s & Hs & Hin).
  apply list_elem_of_fmap in Hin as (d & -> & Hd).
  exists d. split; [|done].
  apply (db_find_spec _ _ _ Hq). split; [done|].
  exists (JStr (d_email d)). split; [|done].
  rewrite <- Hs. apply list_elem_of_fmap. eauto.
Qed.

(** C6. For a valid request every contact of which carries an email already
    stored in the collection the request addresses, in both variants: the
    only response is [200] with the "already exist" message and no
    [inserted] property, no batch insert is issued and no notification is
    sent, and the collection is left as it was when the query ran. *)
Theorem all_existing_reported (E : Env) (req : Request)
    (campaign user_id conversation_id : string) (cs : list jsval)
    (subject text : jsval) (w w1 : World) (m : model) :
  (valid_request req campaign user_id conversation_id cs subject text ->
   Campaign.getContactModel E campaign w = (w1, inr (Ref m)) ->
   env_find_fault E = None ->
   (forall c, c ∈ cs ->
      exists s, email_of c = JStr s
                /\ s ∈ emails_of (db_of w (conn_uri (model_conn m)))) ->
   let w' := exec (Campaign.handler E req) w in
   let body := JObj [("message", JStr "These emails already exist in this campaign.");
                     ("campaign", JStr campaign)] in
   responses (events_since w w') = [(200, body)]
   /\ js_prop body "inserted" = inr JUndef
   /\ inserts (events_since w w') = []
   /\ sends (events_since w w') = []
   /\ db_of w' (conn_uri (model_conn m))
      = concurrent_db E (db_of w (conn_uri (model_conn m))))
  /\
  (valid_payload req user_id conversation_id cs subject text ->
   env_find_fault E = None ->
   (forall c, c ∈ cs ->
      exists s, email_of c = JStr s
                /\ s ∈ emails_of (db_of w (Server2.MONGO_URI E))) ->
   let w' := exec (Server2.handler E req) w in
   let body := JObj [("message", JStr "These emails already exist.")] in
   responses (events_since w w') = [(200, body)]
   /\ js_prop body "inserted" = inr JUndef
   /\ inserts (events_since w w') = []
   /\ sends (events_since w w') = []
   /\ db_of w' (Server2.MONGO_URI E)
      = concurrent_db E (db_of w (Server2.MONGO_URI E))).
Proof.
  split.
  - intros Hv Hm Hf Hall w' body.
    destruct (vr_registered _ _ _ _ _ _ _ Hv) as [dbName Hreg].
    destruct (getContactModel_registered E campaign dbName w Hreg)
      as (m' & w1' & es1 & Hm' & Hdbs & Ht1 & Hr1 & _).
    rewrite Hm in Hm'. injection Hm' as <- <-.
    assert (db_of w1 (conn_uri (model_conn m)) = db_of w (conn_uri (model_conn m)))
      as Hdb by (unfold db_of; by rewrite Hdbs).
    destruct (db_find_strings (db_of w (conn_uri (model_conn m))) cs) as [existing Hq].
    { intros c Hc. destruct (Hall c Hc) as (s & ? & _). eauto. }
    pose proof (newContacts_all_existing user_id conversation_id _ _ _ Hq Hall) as Hnew.
    rewrite <- Hdb in Hq.
    pose proof (Campaign_handler_run E req _ _ _ _ _ _ w w1 m existing Hv Hm Hf Hq) as Hrun.
    cbv zeta in Hrun. rewrite Hnew in Hrun.
    apply router_events_silent in Hr1 as (_ & Hi1 & Hs1 & Hr1).
    assert (events_since w w'
            = (es1 ++ [EvFind m (map email_of cs); EvRespond 200 body])%list) as ->.
    { apply events_since_app. unfold w'. rewrite Hrun. simpl.
      by rewrite Ht1, <- !app_assoc. }
    rewrite responses_app, inserts_app, sends_app, Hr1, Hi1, Hs1.
    repeat split; try done.
    unfold w'. rewrite Hrun, db_of_with_trace, db_of_after_find. by rewrite Hdb.
  - intros Hv Hf Hall w' body.
    destruct (db_find_strings (db_of w (Server2.MONGO_URI E)) cs) as [existing Hq].
    { intros c Hc. destruct (Hall c Hc) as (s & ? & _). eauto. }
    pose proof (newContacts_all_existing user_id conversation_id _ _ _ Hq Hall) as Hnew.
    pose proof (Server2_handler_run E req _ _ _ _ _ w existing Hv Hf Hq) as Hrun.
    cbv zeta in Hrun. rewrite Hnew in Hrun.
    assert (events_since w w'
            = [EvFind (Server2.Contact E) (map email_of cs); EvRespond 200 body]) as ->.
    { apply events_since_app. unfold w'. rewrite Hrun. simpl.
      by rewrite <- !app_assoc. }
    repeat split; try done.
    unfold w'. rewrite Hrun, db_of_with_trace.
    apply (db_of_after_find E (Server2.Contact E)).
Qed.

Lemma known_request_valid :
  valid_request known_request "campaign1" "u1" "c1"
    [contact "a@x.com"] (JStr "Hi") (JStr "Hello").
Proof.
  split; [reflexivity | by eexists |].
  split; try reflexivity; discriminate.
Defined.

Lemma all_existing_reported_witness :
  let E := calm "mongodb://host" in
  let uri := "mongodb://host/campaign1_db?retryWrites=true&w=majority" in
  let wc := exec (Campaign.handler E known_request) world_a in
  let ws := exec (Server2.handler E known_request) world_a in
  (responses (events_since world_a wc)
   = [(200, JObj [("message", JStr "These emails already exist in this campaign.");
                  ("campaign", JStr "campaign1")])]
   /\ inserts (events_since world_a wc) = []
   /\ sends (events_since world_a wc) = []
   /\ db_of wc uri = concurrent_db E (db_of world_a uri))
  /\
  (responses (events_since world_a ws)
   = [(200, JObj [("message", JStr "These emails already exist.")])]
   /\ inserts (events_since world_a ws) = []
   /\ sends (events_since world_a ws) = []
   /\ db_of ws "mongodb://host" = concurrent_db E (db_of world_a "mongodb://host")).
Proof.
  intros E uri wc ws.
  pose proof (all_existing_reported E known_request "campaign1" "u1" "c1"
                [contact "a@x.com"] (JStr "Hi") (JStr "Hello") world_a
                (exec (Campaign.getContactModel E "campaign1") world_a)
                (Model (Conn 0 uri) "Contact" "contacts")) as [Hc Hs].
  assert (forall c : jsval, c ∈ [contact "a@x.com"] ->
            exists s, email_of c = JStr s /\ s ∈ ["a@x.com"]) as Hall.
  { intros c ->%list_elem_of_singleton. exists "a@x.com". split; [reflexivity|].
    by apply list_elem_of_singleton. }
  split.
  - destruct Hc as (H1 & _ & H3 & H4 & H5).
    + exact known_request_valid.
    + vm_compute. reflexivity.
    + reflexivity.
    + exact Hall.
    + auto.
  - destruct Hs as (H1 & _ & H3 & H4 & H5).
    + exact (vr_payload _ _ _ _ _ _ _ known_request_valid).
    + reflexivity.
    + exact Hall.
    + auto.
Defined.

(** ** C10: the identity headers win over the payload *)

Lemma write_each_elem (ds db db' ins : list doc) (errs : nat) :
  write_each db ds = (db', ins, errs) ->
  (forall d, d ∈ db' <-> d ∈ db \/ d ∈ ins) /\ (forall d, d ∈ ins -> d ∈ ds).
Proof.
  revert db db' ins errs. induction ds as [|x ds IH]; intros db db' ins errs; simpl.
  - intros [= <- <- <-]. split; [|done]. intros d. rewrite elem_of_nil. tauto.
  - case_bool_decide as Hx.
    + destruct (write_each db ds) as [[db1 ins1] errs1] eqn:Hw.
      intros [= <- <- <-]. destruct (IH _ _ _ _ Hw) as [H1 H2].
      split; [done|]. intros d Hd. apply list_elem_of_further. auto.
    + destruct (write_each (db ++ [x]) ds) as [[db1 ins1] errs1] eqn:Hw.
      intros [= <- <- <-]. destruct (IH _ _ _ _ Hw) as [H1 H2].
      split.
      * intros d. rewrite H1, elem_of_app, list_elem_of_singleton, elem_of_cons. tauto.
      * intros d [->|Hd]%elem_of_cons; [left|right; auto].
Qed.

Lemma concurrent_db_elem (E : Env) (db : list doc) (d : doc) :
  d ∈ concurrent_db E db -> d ∈ db \/ d ∈ env_concurrent E.
Proof.
  unfold concurrent_db.
  destruct (write_each db (env_concurrent E)) as [[db' ins] errs] eqn:Hw.
  destruct (write_each_elem _ _ _ _ _ Hw) as [H1 H2]. simpl.
  rewrite H1. intros [?|?]; auto.
Qed.

Lemma insertMany_unordered_elem (db : list doc) (docs : list jsval) (d : doc) :
  d ∈ (db_insertMany false db docs).1 ->
  d ∈ db \/ exists c, c ∈ docs /\ validate c = Some d.
Proof.
  unfold db_insertMany.
  destruct (write_each db (omap validate docs)) as [[db' ins] errs] eqn:Hw.
  destruct (write_each_elem _ _ _ _ _ Hw) as [H1 H2]. simpl.
  rewrite H1. intros [?|Hd]; [auto|]. right.
  apply H2, list_elem_of_omap in Hd. done.
Qed.

Lemma validate_augment (user_id conversation_id : string) (c : jsval) (d : doc) :
  validate (augment user_id conversation_id c) = Some d ->
  d_user_id d = Some user_id /\ d_conversation_id d = Some conversation_id.
Proof.
  destruct (augment_props user_id conversation_id c) as (ps & -> & Hu & Hc & _).
  unfold validate. rewrite Hu, Hc. simpl.
  repeat (match goal with
          | |- context [cast_path ?o ?v] => destruct (cast_path o v); simpl; [|done]
          end).
  repeat case_match; try done. by intros [= <-].
Qed.

Lemma identity_outcome_of_run (E : Env) (user_id conversation_id : string)
    (cs : list jsval) (existing before after : list doc) (m : model)
    (es1 tail : list event) :
  let new := newContacts user_id conversation_id (existingEmails existing) cs in
  forallb router_event es1 = true ->
  forallb tail_event tail = true ->
  (after = concurrent_db E before
   \/ after = (db_insertMany false (concurrent_db E before) new).1) ->
  identity_outcome E user_id conversation_id before after
    (es1 ++ [EvFind m (map email_of cs)]
     ++ match new with [] => [] | _ => [EvInsertMany m new false] end
     ++ tail).
Proof.
  intros new Hr1 Ht Hafter.
  apply router_events_silent in Hr1 as (_ & Hi1 & _ & _).
  apply tail_events_silent in Ht as (_ & Hit).
  split.
  - intros docs ordered c. rewrite !inserts_app, Hi1, Hit. simpl.
    destruct new as [|n new'] eqn:Hnew; simpl; [by intros ?%elem_of_nil|].
    intros [= -> ->]%list_elem_of_singleton Hc.
    rewrite <- Hnew in Hc. unfold new, newContacts in Hc.
    apply list_elem_of_fmap in Hc as (c0 & -> & _).
    destruct (augment_props user_id conversation_id c0) as (ps & ? & ? & ? & _).
    eauto.
  - intros d Hd. destruct Hafter as [-> | ->].
    + apply concurrent_db_elem in Hd as [?|?]; auto.
    + apply insertMany_unordered_elem in Hd as [Hd|(c & Hc & Hv)].
      * apply concurrent_db_elem in Hd as [?|?]; auto.
      * unfold new, newContacts in Hc.
        apply list_elem_of_fmap in Hc as (c0 & -> & _).
        right; right. by apply (validate_augment _ _ c0).
Qed.

(** The collection a valid request leaves behind. *)
Lemma Campaign_handler_store (E : Env) (req : Request)
    (campaign user_id conversation_id : string) (cs : list jsval)
    (subject text : jsval) (w w1 : World) (m : model) (existing : list doc) :
  valid_request req campaign user_id conversation_id cs subject text ->
  Campaign.getContactModel E campaign w = (w1, inr (Ref m)) ->
  env_find_fault E = None ->
  db_find (db_of w1 (conn_uri (model_conn m))) (map email_of cs) = inr existing ->
  let new := newContacts user_id conversation_id (existingEmails existing) cs in
  let cdb := concurrent_db E (db_of w1 (conn_uri (model_conn m))) in
  db_of (exec (Campaign.handler E req) w) (conn_uri (model_conn m))
  = match new, env_insert_fault E with
    | _ :: _, None => (db_insertMany false cdb new).1
    | _, _ => cdb
    end.
Proof.
  intros Hv Hm Hf Hq new cdb.
  pose proof (Campaign_handler_run E req _ _ _ _ _ _ w w1 m existing Hv Hm Hf Hq) as Hrun.
  cbv zeta in Hrun. fold new in Hrun. rewrite Hrun.
  destruct new as [|n new'].
  { by rewrite db_of_with_trace, db_of_after_find. }
  destruct (env_insert_fault E) as [e|].
  { by rewrite db_of_with_trace, db_of_after_find. }
  destruct (db_insertMany _ _ _).2 as [e|inserted].
  { by rewrite db_of_with_trace, db_of_after_insert, db_of_after_find. }
  destruct (Campaign_finish_run E campaign subject text inserted
              (after_insert m (n :: new') false (after_find E m (map email_of cs) w1)))
    as (es & Hfin & _).
  unfold exec at 1. rewrite Hfin. simpl.
  by rewrite db_of_with_trace, db_of_after_insert, db_of_after_find.
Qed.

Lemma Server2_handler_store (E : Env) (req : Request)
    (user_id conversation_id : string) (cs : list jsval)
    (subject text : jsval) (w : World) (existing : list doc) :
  valid_payload req user_id conversation_id cs subject text ->
  env_find_fault E = None ->
  db_find (db_of w (Server2.MONGO_URI E)) (map email_of cs) = inr existing ->
  let new := newContacts user_id conversation_id (existingEmails existing) cs in
  let cdb := concurrent_db E (db_of w (Server2.MONGO_URI E)) in
  db_of (exec (Server2.handler E req) w) (Server2.MONGO_URI E)
  = match new, env_insert_fault E with
    | _ :: _, None => (db_insertMany false cdb new).1
    | _, _ => cdb
    end.
Proof.
  intros Hv Hf Hq new cdb.
  pose proof (Server2_handler_run E req _ _ _ _ _ w existing Hv Hf Hq) as Hrun.
  cbv zeta in Hrun. fold new in Hrun. rewrite Hrun.
  pose proof (db_of_after_find E (Server2.Contact E) (map email_of cs) w) as Hdb.
  pose proof (fun docs w0 => db_of_after_insert (Server2.Contact E) docs false w0) as Hdi.
  simpl in Hdb, Hdi.
  destruct new as [|n new'].
  { by rewrite db_of_with_trace, Hdb. }
  destruct (env_insert_fault E) as [e|].
  { by rewrite db_of_with_trace, Hdb. }
  destruct (db_insertMany _ _ _).2 as [e|inserted].
  { by rewrite db_of_with_trace, Hdi, Hdb. }
  destruct (Server2_finish_run E subject text inserted
              (after_insert (Server2.Contact E) (n :: new') false
                 (after_find E (Server2.Contact E) (map email_of cs) w)))
    as (es & Hfin & _).
  unfold exec at 1. rewrite Hfin. simpl.
  by rewrite db_of_with_trace, Hdi, Hdb.
Qed.

(** C10. For a valid request whose query the store answered, in both
    variants: every object handed to [insertMany] has [user_id] and
    [conversation_id] equal to the header values, whatever the contact
    carried under these keys, and every record this request added to the
    collection stores the header values. *)
Theorem header_identity_persisted (E : Env) (req : Request)
    (campaign user_id conversation_id : string) (cs : list jsval)
    (subject text : jsval) (w w1 : World) (m : model) (existing : list doc) :
  (valid_request req campaign user_id conversation_id cs subject text ->
   Campaign.getContactModel E campaign w = (w1, inr (Ref m)) ->
   env_find_fault E = None ->
   db_find (db_of w (conn_uri (model_conn m))) (map email_of cs) = inr existing ->
   let w' := exec (Campaign.handler E req) w in
   identity_outcome E user_id conversation_id
     (db_of w (conn_uri (model_conn m))) (db_of w' (conn_uri (model_conn m)))
     (events_since w w'))
  /\
  (valid_payload req user_id conversation_id cs subject text ->
   env_find_fault E = None ->
   db_find (db_of w (Server2.MONGO_URI E)) (map email_of cs) = inr existing ->
   let w' := exec (Server2.handler E req) w in
   identity_outcome E user_id conversation_id
     (db_of w (Server2.MONGO_URI E)) (db_of w' (Server2.MONGO_URI E))
     (events_since w w')).
Proof.
  split.
  - intros Hv Hm Hf Hq w'.
    destruct (vr_registered _ _ _ _ _ _ _ Hv) as [dbName Hreg].
    destruct (getContactModel_registered E campaign dbName w Hreg)
      as (m' & w1' & es0 & Hm' & Hdbs & _).
    rewrite Hm in Hm'. injection Hm' as <- <-.
    assert (db_of w1 (conn_uri (model_conn m)) = db_of w (conn_uri (model_conn m)))
      as Hdb by (unfold db_of; by rewrite Hdbs).
    rewrite <- Hdb in Hq.
    destruct (Campaign_handler_events E req _ _ _ _ _ _ w w1 m existing Hv Hm Hf Hq)
      as (es1 & tail & Hr1 & Ht & Hevs).
    pose proof (Campaign_handler_store E req _ _ _ _ _ _ w w1 m existing Hv Hm Hf Hq)
      as Hstore.
    cbv zeta in Hstore. rewrite Hdb in Hstore.
    unfold w'. rewrite Hevs.
    apply identity_outcome_of_run; [done..|].
    rewrite Hstore. destruct (newContacts _ _ _ _); [by left|].
    destruct (env_insert_fault E); [by left | by right].
  - intros Hv Hf Hq w'.
    destruct (Server2_handler_events E req _ _ _ _ _ w existing Hv Hf Hq)
      as (tail & Ht & Hevs).
    pose proof (Server2_handler_store E req _ _ _ _ _ w existing Hv Hf Hq) as Hstore.
    cbv zeta in Hstore.
    unfold w'. rewrite Hevs.
    apply (identity_outcome_of_run E _ _ _ _ _ _ _ []); [done..|].
    rewrite Hstore. destruct (newContacts _ _ _ _); [by left|].
    destruct (env_insert_fault E); [by left | by right].
Qed.

Lemma forged_request_valid :
  valid_request forged_request "campaign1" "u1" "c1"
    [JObj [("user_id", JStr "mallory"); ("email", JStr "m@x.com");
           ("conversation_id", JStr "other")]] (JStr "Hi") (JStr "Hello").
Proof.
  split; [reflexivity | by eexists |].
  split; try reflexivity; discriminate.
Defined.

Lemma header_identity_persisted_witness :
  let E := calm "mongodb://host" in
  let uri := "mongodb://host/campaign1_db?retryWrites=true&w=majority" in
  let wc := exec (Campaign.handler E forged_request) world0 in
  let ws := exec (Server2.handler E forged_request) world0 in
  (db_of wc uri = [stored "u1" "c1" "m@x.com"]
   /\ identity_outcome E "u1" "c1" (db_of world0 uri) (db_of wc uri)
        (events_since world0 wc))
  /\ (db_of ws "mongodb://host" = [stored "u1" "c1" "m@x.com"]
      /\ identity_outcome E "u1" "c1" (db_of world0 "mongodb://host")
           (db_of ws "mongodb://host") (events_since world0 ws)).
Proof.
  intros E uri wc ws.
  pose proof (header_identity_persisted E forged_request "campaign1" "u1" "c1"
                [JObj [("user_id", JStr "mallory"); ("email", JStr "m@x.com");
                       ("conversation_id", JStr "other")]]
                (JStr "Hi") (JStr "Hello") world0
                (exec (Campaign.getContactModel E "campaign1") world0)
                (Model (Conn 0 uri) "Contact" "contacts") []) as [Hc Hs].
  split; (split; [by vm_compute|]).
  - apply Hc.
    + exact forged_request_valid.
    + vm_compute. reflexivity.
    + reflexivity.
    + vm_compute. reflexivity.
  - apply Hs.
    + exact (vr_payload _ _ _ _ _ _ _ forged_request_valid).
    + reflexivity.
    + vm_compute. reflexivity.
Defined.

(** ** C4: all contacts new *)

Lemma validate_email (user_id conversation_id : string) (ps : list (string * jsval))
    (d : doc) :
  validate (augment user_id conversation_id (JObj ps)) = Some d ->
  castString (obj_get ps "email") = Some (Some (d_email d)) /\ d_email d ≠ "".
Proof.
  destruct (augment_props user_id conversation_id (JObj ps)) as (ps' & -> & Hu & Hc & Hk).
  unfold validate. rewrite (Hk "email") by done. intros Hval.
  assert (forall v, cast_path None v = castString v) as Hcp by (by intros []).
  apply bind_Some in Hval as (uid & _ & Hval).
  apply bind_Some in Hval as (cid & _ & Hval).
  apply bind_Some in Hval as (name & _ & Hval).
  apply bind_Some in Hval as (email & He & Hval).
  apply bind_Some in Hval as (company & _ & Hval).
  apply bind_Some in Hval as (title & _ & Hval).
  apply bind_Some in Hval as (firm & _ & Hval).
  apply bind_Some in Hval as (country & _ & Hval).
  apply bind_Some in Hval as (linkedin & _ & Hval).
  destruct email as [e|]; [|done].
  destruct (String.eqb e "") eqn:Hne; [done|].
  injection Hval as <-. simpl. rewrite <- Hcp.
  split; [done | by apply String.eqb_neq].
Qed.


Lemma concurrent_db_keeps (E : Env) (db : list doc) (d : doc) :
  d ∈ db -> d ∈ concurrent_db E db.
Proof.
  unfold concurrent_db.
  destruct (write_each db (env_concurrent E)) as [[db' ins] errs] eqn:Hw.
  destruct (write_each_elem _ _ _ _ _ Hw) as [H1 _]. simpl.
  rewrite H1. auto.
Qed.




Lemma all_new_kept (user_id conversation_id : string) (cs : list jsval) :
  newContacts user_id conversation_id (existingEmails []) cs
  = map (augment user_id conversation_id) cs.
Proof.
  unfold newContacts. f_equal.
  induction cs as [|c cs' IH]; simpl; [done|].
  assert (Set_has (existingEmails []) (email_of c) = false) as ->.
  { unfold Set_has. by destruct (email_of c). }
  simpl. by rewrite IH.
Qed.


Lemma twice_request_valid :
  valid_request twice_request "campaign1" "u1" "c1"
    [contact "a@x.com"; contact "a@x.com"] (JStr "Hi") (JStr "Hello").
Proof.
  split; [reflexivity | by eexists |].
  split; try reflexivity; discriminate.
Defined.


(** What the run of that request leaves: one record written, the [201]
    answer, no send. *)
Lemma twice_request_run :
  let w' := exec (Campaign.handler (calm "mongodb://host") twice_request) world0 in
  db_of w' "mongodb://host/campaign1_db?retryWrites=true&w=majority"
  = [stored "u1" "c1" "a@x.com"]
  /\ responses (trace w') = [(201, JArr [])]
  /\ sends (trace w') = [].
Proof. by vm_compute. Qed.



(** ** C5: partial success of the unordered insert *)

Lemma write_each_covers (ds db db' ins : list doc) (errs : nat) :
  write_each db ds = (db', ins, errs) ->
  forall d, d ∈ ds -> d_email d ∈ emails_of db'.
Proof.
  revert db db' ins errs. induction ds as [|x ds IH]; intros db db' ins errs; simpl.
  - intros _ d Hd. by apply elem_of_nil in Hd.
  - case_bool_decide as Hx.
    + destruct (write_each db ds) as [[db1 ins1] errs1] eqn:Hw.
      intros [= <- <- <-] d [->|Hd]%elem_of_cons; [|by apply (IH _ _ _ _ Hw)].
      destruct (write_each_elem _ _ _ _ _ Hw) as [H1 _].
      apply list_elem_of_fmap in Hx as (d0 & -> & Hd0).
      apply list_elem_of_fmap. exists d0. split; [done|]. apply H1. auto.
    + destruct (write_each (db ++ [x]) ds) as [[db1 ins1] errs1] eqn:Hw.
      intros [= <- <- <-] d [->|Hd]%elem_of_cons; [|by apply (IH _ _ _ _ Hw)].
      destruct (write_each_elem _ _ _ _ _ Hw) as [H1 _].
      apply list_elem_of_fmap. exists x. split; [done|]. apply H1. left.
      apply elem_of_app. right. apply list_elem_of_here.
Qed.

(** The unordered insert keeps what was stored and stores the email of
    every document of the batch that passes validation, whatever happens to
    the other documents; the only error it raises is the duplicate key. *)
Lemma insertMany_unordered_total (db : list doc) (docs : list jsval) :
  (forall d, d ∈ db -> d ∈ (db_insertMany false db docs).1)
  /\ (forall c d, c ∈ docs -> validate c = Some d ->
        d_email d ∈ emails_of (db_insertMany false db docs).1)
  /\ (forall e, (db_insertMany false db docs).2 = inl e -> e = E11000).
Proof.
  unfold db_insertMany.
  destruct (write_each db (omap validate docs)) as [[db' ins] errs] eqn:Hw.
  destruct (write_each_elem _ _ _ _ _ Hw) as [H1 _]. simpl.
  split; [|split].
  - intros d Hd. apply H1. auto.
  - intros c d Hc Hv. apply (write_each_covers _ _ _ _ _ Hw).
    apply list_elem_of_omap. eauto.
  - intros e. destruct errs; [done|]. by intros [= <-].
Qed.

(** The ordered insert, which the handlers do not use, stops at the first
    refusal: with [a@x.com] stored, the batch [a@x.com; b@x.com] leaves
    [b@x.com] unwritten, where the unordered insert writes it. *)
Lemma ordered_insert_aborts :
  let db := [stored "u0" "c0" "a@x.com"] in
  let batch := map (augment "u1" "c1") [contact "a@x.com"; contact "b@x.com"] in
  emails_of (db_insertMany true db batch).1 = ["a@x.com"]
  /\ emails_of (db_insertMany false db batch).1 = ["a@x.com"; "b@x.com"].
Proof. by vm_compute. Qed.










(** * Properties of the whole endpoint *)

(** ** The paths of a request *)

Lemma Campaign_process_inv (E : Env) (k u c : string) (cs : list jsval)
    (subject text : jsval) (w w' : World) (r : jserror + unit) :
  Campaign.process E k u c cs subject text w = (w', r) ->
  Campaign_process_path E k u c cs subject text w w' r.
Proof.
  unfold Campaign.process, Campaign_process_path, bind at 1.
  destruct (Campaign.getContactModel E k w) as [w1 [e1|C]] eqn:Hm.
  { intros [= <- <-]. by exists w1, (inl e1). }
  intros Hrun. exists w1, (inr C). split; [done|]. revert Hrun.
  unfold bind at 1, lift. destruct (incomingEmails cs) as [e2|emails].
  { by intros [= <- <-]. }
  unfold bind at 1.
  destruct (Model_find E C emails w1) as [w2 [e3|existing]] eqn:Hf.
  { intros [= <- <-]. by exists w2, (inl e3). }
  intros Hrun. exists w2, (inr existing). split; [done|]. revert Hrun.
  cbv zeta. destruct (newContacts u c (existingEmails existing) cs) as [|n new].
  { unfold respond, emit. by intros [= <- <-]. }
  unfold bind at 1.
  destruct (Model_insertMany E C (n :: new) false w2) as [w3 [e4|inserted]] eqn:Hi.
  { intros [= <- <-]. by exists w3, (inl e4). }
  intros Hrun. by exists w3, (inr inserted).
Qed.

Lemma Server2_process_inv (E : Env) (u c : string) (cs : list jsval)
    (subject text : jsval) (w w' : World) (r : jserror + unit) :
  Server2.process E u c cs subject text w = (w', r) ->
  Server2_process_path E u c cs subject text w w' r.
Proof.
  unfold Server2.process, Server2_process_path.
  unfold bind at 1, lift. destruct (incomingEmails cs) as [e2|emails].
  { by intros [= <- <-]. }
  unfold bind at 1.
  destruct (Model_find E _ emails w) as [w2 [e3|existing]] eqn:Hf.
  { intros [= <- <-]. by exists w2, (inl e3). }
  intros Hrun. exists w2, (inr existing). split; [done|]. revert Hrun.
  cbv zeta. destruct (newContacts u c (existingEmails existing) cs) as [|n new].
  { unfold respond, emit. by intros [= <- <-]. }
  unfold bind at 1.
  destruct (Model_insertMany E _ (n :: new) false w2) as [w3 [e4|inserted]] eqn:Hi.
  { intros [= <- <-]. by exists w3, (inl e4). }
  intros Hrun. by exists w3, (inr inserted).
Qed.

Lemma truthy_header_value (h : option string) :
  truthy_header h = true -> h = Some (header_value h) /\ header_value h ≠ "".
Proof.
  destruct h as [s|]; [|done]. simpl. intros H%negb_true_iff.
  split; [done|]. by apply String.eqb_neq.
Qed.

(** A run of the [try] block either throws while reading the body, or
    rejects the request, or processes it for a campaign that passed the
    third check. *)
Lemma Campaign_handler_try_inv (E : Env) (req : Request) (w w' : World)
    (r : jserror + unit) :
  Campaign.handler_try E req w = (w', r) ->
  (w' = w /\ exists e, r = inl e)
  \/ (exists msg,
        w' = with_trace w (trace w ++ [EvRespond 400 (error_body msg)]) /\ r = inr tt)
  \/ (exists k c cs subject text,
        req_header req "campaign" = Some k
        /\ truthy_string (js_lookup Campaign.CAMPAIGNS k) = true
        /\ Campaign.process E k (header_value (req_header req "user_id"))
             (header_value (req_header req "conversation_id"))
             (c :: cs) subject text w = (w', r)).
Proof.
  unfold Campaign.handler_try.
  unfold bind at 1, lift. destruct (js_prop _ "contacts") as [e1|contacts];
    [intros [= <- <-]; left; eauto|].
  unfold bind at 1. destruct (js_prop _ "subject") as [e1|subject];
    [intros [= <- <-]; left; eauto|].
  unfold bind at 1. destruct (js_prop _ "text") as [e1|text];
    [intros [= <- <-]; left; eauto|].
  unfold respond, emit.
  destruct (truthy_header (req_header req "campaign")) eqn:Hk; simpl;
    [|intros [= <- <-]; right; left; eauto].
  destruct (_ || _); [intros [= <- <-]; right; left; eauto|].
  destruct (truthy_string _) eqn:Ht; simpl; [|intros [= <- <-]; right; left; eauto].
  destruct contacts as [| | | | |[|c cs]|];
    try (intros [= <- <-]; right; left; eauto).
  intros Hrun. right; right.
  destruct (truthy_header_value _ Hk) as [Hk' _].
  exists (header_value (req_header req "campaign")), c, cs, subject, text.
  done.
Qed.

Lemma Server2_handler_try_inv (E : Env) (req : Request) (w w' : World)
    (r : jserror + unit) :
  Server2.handler_try E req w = (w', r) ->
  (w' = w /\ exists e, r = inl e)
  \/ (exists msg,
        w' = with_trace w (trace w ++ [EvRespond 400 (error_body msg)]) /\ r = inr tt)
  \/ (exists c cs subject text,
        Server2.process E (header_value (req_header req "user_id"))
          (header_value (req_header req "conversation_id"))
          (c :: cs) subject text w = (w', r)).
Proof.
  unfold Server2.handler_try.
  unfold bind at 1, lift. destruct (js_prop _ "contacts") as [e1|contacts];
    [intros [= <- <-]; left; eauto|].
  unfold bind at 1. destruct (js_prop _ "subject") as [e1|subject];
    [intros [= <- <-]; left; eauto|].
  unfold bind at 1. destruct (js_prop _ "text") as [e1|text];
    [intros [= <- <-]; left; eauto|].
  unfold respond, emit.
  destruct (_ || _); [intros [= <- <-]; right; left; eauto|].
  destruct contacts as [| | | | |[|c cs]|];
    try (intros [= <- <-]; right; left; eauto).
  intros Hrun. right; right. by exists c, cs, subject, text.
Qed.

(** The world a handler leaves, from the outcome of its [try] block. *)
Lemma Campaign_handler_exec (E : Env) (req : Request) (w w' : World)
    (r : jserror + unit) :
  Campaign.handler_try E req w = (w', r) ->
  exec (Campaign.handler E req) w
  = match r with
    | inl e => with_trace w' (trace w' ++ catch_events e)
    | inr _ => w'
    end.
Proof.
  intros Hrun. unfold exec, Campaign.handler, try_catch. rewrite Hrun.
  destruct r; [by rewrite Campaign_handler_catch_run | done].
Qed.

Lemma Server2_handler_exec (E : Env) (req : Request) (w w' : World)
    (r : jserror + unit) :
  Server2.handler_try E req w = (w', r) ->
  exec (Server2.handler E req) w
  = match r with
    | inl e => with_trace w' (trace w' ++ catch_events e)
    | inr _ => w'
    end.
Proof.
  intros Hrun. unfold exec, Server2.handler, try_catch. rewrite Hrun.
  destruct r; [by rewrite Server2_handler_catch_run | done].
Qed.

(** ** How many responses a request gets *)

Lemma catch_events_response (e : jserror) :
  exists status body,
    responses (catch_events e) = [(status, body)] /\ (status = 201 \/ status = 500).
Proof.
  unfold catch_events. case_bool_decide; eexists _, _; split; try reflexivity; auto.
Qed.

Lemma Model_insertMany_events (E : Env) (m : model) (docs : list jsval)
    (o : bool) (w w' : World) (r : jserror + list doc) :
  Model_insertMany E (Ref m) docs o w = (w', r) ->
  trace w' = (trace w ++ [EvInsertMany m docs o])%list.
Proof.
  unfold Model_insertMany, bind, emit. simpl.
  destruct (env_insert_fault E); [by intros [= <- <-]|].
  destruct (db_insertMany _ _ _) as [db' r']. by intros [= <- <-].
Qed.

Lemma Campaign_process_responses (E : Env) (k u c : string) (cs : list jsval)
    (subject text : jsval) (w w' : World) (r : jserror + unit) :
  Campaign.process E k u c cs subject text w = (w', r) ->
  exists es,
    trace w' = (trace w ++ es)%list
    /\ match r with
       | inl _ => responses es = []
       | inr _ => exists body, responses es = [(200, body)]
       end.
Proof.
  destruct r as [e|[]]; [apply Campaign_process_throw|].
  intros (w1 & rC & Hm & Hpath)%Campaign_process_inv.
  destruct (getContactModel_trace E k w w1 _ Hm) as (es1 & Ht1 & Hr1).
  apply router_events_silent in Hr1 as (_ & _ & _ & Hr1).
  destruct rC as [e1|C]; [by destruct Hpath|].
  destruct (incomingEmails cs) as [e2|emails]; [by destruct Hpath|].
  destruct Hpath as (w2 & rF & Hf & Hpath).
  destruct (Model_find_trace E C emails w1 w2 _ Hf) as (es2 & Ht2 & Hr2 & _).
  destruct rF as [e3|existing]; [by destruct Hpath|].
  cbv zeta in Hpath.
  destruct (newContacts u c (existingEmails existing) cs) as [|n new].
  { destruct Hpath as [-> _]. exists (es1 ++ es2 ++ [EvRespond 200 (Campaign.already_exist k)])%list.
    split; [simpl; by rewrite Ht2, Ht1, <- !app_assoc|].
    eexists. by rewrite !responses_app, Hr1, Hr2. }
  destruct Hpath as (w3 & rI & Hi & Hpath).
  destruct (Model_insertMany_trace E C _ false w2 w3 _ Hi) as (es3 & Ht3 & Hr3 & _).
  destruct rI as [e4|inserted]; [by destruct Hpath|].
  destruct (Campaign_finish_run E k subject text inserted w3) as (es & Hfin & _ & Hd).
  rewrite Hfin in Hpath. injection Hpath as <-.
  apply dispatch_events_silent in Hd as (_ & _ & Hrd & _).
  exists (es1 ++ es2 ++ es3 ++ es
          ++ [EvRespond 200 (processed k (length inserted))])%list.
  split; [simpl; by rewrite Ht3, Ht2, Ht1, <- !app_assoc|].
  eexists. by rewrite !responses_app, Hr1, Hr2, Hr3, Hrd.
Qed.

(** X1. Every request to the multi-campaign endpoint, whatever it carries
    and whatever the store and the mail provider do, is answered exactly
    once, with status [200], [201], [400] or [500]. *)
Theorem Campaign_answers_exactly_once (E : Env) (req : Request) (w : World) :
  exists status body,
    responses (events_since w (exec (Campaign.handler E req) w)) = [(status, body)]
    /\ status ∈ [200; 201; 400; 500].
Proof.
  destruct (Campaign.handler_try E req w) as [w' r] eqn:Hrun.
  rewrite (Campaign_handler_exec E req w w' r Hrun).
  destruct (Campaign_handler_try_inv E req w w' r Hrun)
    as [[-> [e ->]] | [(msg & -> & ->) | (k & c & cs & subject & text & _ & _ & Hp)]].
  - destruct (catch_events_response e) as (status & body & Hr & Hs).
    exists status, body. erewrite events_since_app; [|reflexivity].
    split; [done|]. destruct Hs as [-> | ->]; set_solver.
  - eexists 400, _. erewrite events_since_app; [|reflexivity].
    split; [done|]. set_solver.
  - destruct (Campaign_process_responses E _ _ _ _ _ _ w w' r Hp) as (es & Ht & Hr).
    destruct r as [e|[]].
    + destruct (catch_events_response e) as (status & body & Hc & Hs).
      exists status, body.
      erewrite events_since_app; [|simpl; by rewrite Ht, <- app_assoc].
      rewrite responses_app, Hr. split; [done|].
      destruct Hs as [-> | ->]; set_solver.
    + destruct Hr as [body Hr]. exists 200, body.
      erewrite events_since_app; [|done].
      split; [done|]. set_solver.
Qed.

Lemma Server2_process_responses (E : Env) (u c : string) (cs : list jsval)
    (subject text : jsval) (w w' : World) (r : jserror + unit) :
  Server2.process E u c cs subject text w = (w', r) ->
  exists es,
    trace w' = (trace w ++ es)%list
    /\ match r with
       | inl _ => responses es = []
       | inr _ =>
           (exists body, responses es = [(200, body)])
           \/ (responses es = [] /\ exists docs, inserts es = [(docs, false)])
       end.
Proof.
  destruct r as [e|[]]; [apply Server2_process_throw|].
  intros Hpath%Server2_process_inv. unfold Server2_process_path in Hpath.
  destruct (incomingEmails cs) as [e2|emails]; [by destruct Hpath|].
  destruct Hpath as (w2 & rF & Hf & Hpath).
  destruct (Model_find_trace E _ emails w w2 _ Hf) as (es2 & Ht2 & Hr2 & _ & Hi2).
  destruct rF as [e3|existing]; [by destruct Hpath|].
  cbv zeta in Hpath.
  destruct (newContacts u c (existingEmails existing) cs) as [|n new].
  { destruct Hpath as [-> _]. exists (es2 ++ [EvRespond 200 Server2.already_exist])%list.
    split; [simpl; by rewrite Ht2, <- !app_assoc|].
    left. eexists. by rewrite !responses_app, Hr2. }
  destruct Hpath as (w3 & rI & Hi & Hpath).
  pose proof (Model_insertMany_events E _ _ _ _ _ _ Hi) as Ht3.
  destruct rI as [e4|inserted]; [by destruct Hpath|].
  destruct (Server2_finish_run E subject text inserted w3) as (es & Hfin & _ & Hd).
  rewrite Hfin in Hpath. injection Hpath as <-.
  apply dispatch_events_silent in Hd as (_ & Hid & Hrd & _).
  exists (es2 ++ [EvInsertMany (Server2.Contact E) (n :: new) false] ++ es)%list.
  split; [simpl; by rewrite Ht3, Ht2, <- !app_assoc|].
  right. split.
  - by rewrite !responses_app, Hr2, Hrd.
  - eexists. by rewrite !inserts_app, Hi2, Hid.
Qed.

(** X2. A request to the single-database endpoint is answered at most
    once, with status [200], [201], [400] or [500]; it is left unanswered
    only on the path on which the batch insert was issued and returned. *)
Theorem Server2_answers_at_most_once (E : Env) (req : Request) (w : World) :
  let evs := events_since w (exec (Server2.handler E req) w) in
  length (responses evs) <= 1
  /\ (forall status body, (status, body) ∈ responses evs ->
        status ∈ [200; 201; 400; 500])
  /\ (responses evs = [] -> exists docs, inserts evs = [(docs, false)]).
Proof.
  intros evs. unfold evs.
  destruct (Server2.handler_try E req w) as [w' r] eqn:Hrun.
  rewrite (Server2_handler_exec E req w w' r Hrun).
  destruct (Server2_handler_try_inv E req w w' r Hrun)
    as [[-> [e ->]] | [(msg & -> & ->) | (c & cs & subject & text & Hp)]].
  - destruct (catch_events_response e) as (status & body & Hr & Hs).
    erewrite events_since_app; [|reflexivity]. rewrite Hr.
    split; [done|]. split; [|done].
    intros s b [= -> ->]%list_elem_of_singleton.
    destruct Hs as [-> | ->]; set_solver.
  - erewrite events_since_app; [|reflexivity].
    split; [done|]. split; [|done].
    intros s b [= -> ->]%list_elem_of_singleton. set_solver.
  - destruct (Server2_process_responses E _ _ _ _ _ w w' r Hp) as (es & Ht & Hr).
    destruct r as [e|[]].
    + destruct (catch_events_response e) as (status & body & Hc & Hs).
      erewrite events_since_app; [|simpl; by rewrite Ht, <- app_assoc].
      rewrite responses_app, Hr, Hc.
      split; [done|]. split; [|done].
      intros s b [= -> ->]%list_elem_of_singleton.
      destruct Hs as [-> | ->]; set_solver.
    + erewrite events_since_app; [|done].
      destruct Hr as [[body Hr] | [Hr [docs Hd]]]; rewrite Hr.
      * split; [done|]. split; [|done].
        intros s b [= -> ->]%list_elem_of_singleton. set_solver.
      * split; [simpl; lia|]. split; [by intros s b ?%elem_of_nil|]. eauto.
Qed.

(** ** The router, case by case *)

Lemma getContactModel_cases (E : Env) (k : string) (w w1 : World)
    (r : jserror + ref model) :
  Campaign.getContactModel E k w = (w1, r) ->
  dbs w1 = dbs w
  /\ ((w1 = w
       /\ ((exists m, modelCache w !! k = Some m /\ r = inr (Ref m))
           \/ (modelCache w !! k = None /\ k ∈ Object_prototype /\ r = inr (Builtin k))
           \/ (modelCache w !! k = None /\ (k ∉ Object_prototype)
               /\ Campaign.CAMPAIGNS !! k = None /\ r = inl (invalid_campaign k))))
      \/ (exists dbName c,
            modelCache w !! k = None
            /\ Campaign.CAMPAIGNS !! k = Some dbName
            /\ r = inr (Ref (Model c "Contact" "contacts"))
            /\ modelCache w1 = <[k := Model c "Contact" "contacts"]> (modelCache w)
            /\ ((connections w !! k = Some c
                 /\ connections w1 = connections w
                 /\ created w1 = created w
                 /\ trace w1 = trace w)
                \/ (connections w !! k = None
                    /\ c = Conn (created w) (Campaign.connectionUri E dbName)
                    /\ connections w1 = <[k := c]> (connections w)
                    /\ created w1 = S (created w)
                    /\ trace w1
                       = (trace w ++ [EvConnect c; EvOn c "error"; EvOnce c "open"])%list)))).
Proof.
  unfold Campaign.getContactModel, js_lookup at 1.
  destruct (modelCache w !! k) as [m|] eqn:Hmc.
  { intros [= <- <-]. split; [done|]. left. split; [done|]. left. eauto. }
  case_bool_decide as Hp.
  { intros [= <- <-]. split; [done|]. left. split; [done|]. right. left. eauto. }
  destruct (Campaign.CAMPAIGNS !! k) as [dbName|] eqn:Hk.
  - destruct (connections w !! k) as [c|] eqn:Hc.
    + unfold bind at 1.
      rewrite (getCampaignConnection_cached E k dbName c w Hk Hc).
      unfold bind, Campaign.set_model, ret. simpl. intros [= <- <-].
      split; [done|]. right. exists dbName, c. repeat split; try done.
      left. done.
    + unfold bind at 1.
      rewrite (getCampaignConnection_fresh E k dbName w Hk Hc).
      unfold bind, Campaign.set_model, ret. simpl. intros [= <- <-].
      split; [done|]. right. eexists dbName, _. repeat split; try done.
      right. done.
  - unfold bind, Campaign.getCampaignConnection, js_lookup. rewrite Hk.
    rewrite bool_decide_eq_false_2 by done. simpl. unfold throw.
    intros [= <- <-]. split; [done|]. left. split; [done|]. right. right. done.
Qed.

(** X3. [getCampaignConnection] throws exactly for the keys that
    [CAMPAIGNS[key]] does not find, own or inherited; the error is
    "Invalid campaign" with the key, and the world, caches included, is
    left as it was. *)
Theorem getCampaignConnection_throws (E : Env) (k : string) (w : World) :
  (Campaign.CAMPAIGNS !! k = None -> k ∉ Object_prototype ->
     Campaign.getCampaignConnection E k w = (w, inl (invalid_campaign k)))
  /\ (forall w' e, Campaign.getCampaignConnection E k w = (w', inl e) ->
        Campaign.CAMPAIGNS !! k = None /\ (k ∉ Object_prototype)
        /\ w' = w /\ e = invalid_campaign k).
Proof.
  split.
  - intros Hk Hp. unfold Campaign.getCampaignConnection, js_lookup.
    rewrite Hk. by rewrite bool_decide_eq_false_2.
  - intros w' e. unfold Campaign.getCampaignConnection, js_lookup at 1.
    destruct (Campaign.CAMPAIGNS !! k) as [dbName|] eqn:Hk.
    + destruct (registered_lookup k dbName Hk) as (_ & -> & _). simpl.
      destruct (js_lookup (connections w) k); [done| |done].
      unfold bind, Campaign.createConnection, Campaign.set_connection, emit, ret.
      simpl. done.
    + case_bool_decide as Hp; simpl.
      * destruct (js_lookup (connections w) k); [done| |done].
        unfold bind, Campaign.createConnection, Campaign.set_connection, emit, ret.
        simpl. done.
      * unfold throw. by intros [= <- <-].
Qed.

Lemma getCampaignConnection_throws_witness :
  Campaign.getCampaignConnection (calm "mongodb://host") "campaign9" world0
  = (world0, inl (invalid_campaign "campaign9")).
Proof.
  apply (proj1 (getCampaignConnection_throws (calm "mongodb://host") "campaign9" world0)).
  - reflexivity.
  - by apply (bool_decide_unpack _).
Defined.

(** X4. [getContactModel] is idempotent for every key: once a call has
    returned a value, the next call returns the same value and changes
    nothing; a model it returns is the one cached under the key; and a
    model it builds (nothing was cached) is the [Contact] model, over the
    [contacts] collection, of the connection then cached under the key. *)
Theorem getContactModel_idempotent (E : Env) (k : string) (w w1 : World)
    (C : ref model) :
  Campaign.getContactModel E k w = (w1, inr C) ->
  Campaign.getContactModel E k w1 = (w1, inr C)
  /\ (forall m, C = Ref m -> modelCache w1 !! k = Some m)
  /\ (forall m, C = Ref m -> modelCache w !! k = None ->
        connections w1 !! k = Some (model_conn m)
        /\ model_name m = "Contact" /\ model_collection m = "contacts").
Proof.
  intros Hrun.
  destruct (getContactModel_cases E k w w1 _ Hrun)
    as (_ & [[-> [(m & Hm & [= ->]) | [(Hm & Hp & [= ->]) | (_ & _ & _ & [=])]]]
            | (dbName & c & Hm & Hk & [= ->] & Hmc & Hconn)]).
  - split; [done|]. split; [by intros m' [= <-]|].
    intros m' [= <-] Hnone. congruence.
  - split; [done|]. split; [done|]. done.
  - split; [|split].
    + unfold Campaign.getContactModel, js_lookup. rewrite Hmc, lookup_insert_eq. done.
    + intros m' [= <-]. by rewrite Hmc, lookup_insert_eq.
    + intros m' [= <-] _. split; [|done]. simpl.
      destruct Hconn as [(Hc & -> & _) | (_ & -> & -> & _)]; [done|].
      by rewrite lookup_insert_eq.
Qed.

Lemma getContactModel_idempotent_witness :
  let E := calm "mongodb://host" in
  let m := Model (Conn 0 "mongodb://host/campaign4_db?retryWrites=true&w=majority")
                 "Contact" "contacts" in
  let w1 := exec (Campaign.getContactModel E "campaign4") world0 in
  Campaign.getContactModel E "campaign4" w1 = (w1, inr (Ref m))
  /\ modelCache w1 !! "campaign4" = Some m
  /\ connections w1 !! "campaign4" = Some (model_conn m).
Proof.
  intros E m w1.
  destruct (getContactModel_idempotent E "campaign4" world0 w1 (Ref m))
    as (H1 & H2 & H3).
  - vm_compute. reflexivity.
  - split; [exact H1|]. split; [by apply H2|]. by apply H3.
Defined.

(** ** What the steps after the routing leave alone *)

Lemma frames_refl (C : ref model) (w : World) : frames C w w.
Proof. repeat split; try done. exists []. by rewrite app_nil_r. Qed.

Lemma frames_trans (C : ref model) (w1 w2 w3 : World) :
  frames C w1 w2 -> frames C w2 w3 -> frames C w1 w3.
Proof.
  intros (Hc1 & Hn1 & Hd1 & es1 & Ht1 & He1) (Hc2 & Hn2 & Hd2 & es2 & Ht2 & He2).
  split; [congruence|]. split; [congruence|]. split.
  - intros uri Hne. rewrite Hd2, Hd1; done.
  - exists (es1 ++ es2)%list. split; [by rewrite Ht2, Ht1, app_assoc|].
    unfold connects in *. by rewrite omap_app, He1, He2.
Qed.

Lemma frames_events (C : ref model) (w : World) (es : list event) :
  connects es = [] -> frames C w (with_trace w (trace w ++ es)).
Proof. intros He. repeat split; try done. by exists es. Qed.

Lemma db_of_with_db_ne (w : World) (uri uri' : string) (db : list doc) :
  uri' ≠ uri -> db_of (with_db w uri db) uri' = db_of w uri'.
Proof. intros Hne. unfold db_of, with_db. simpl. by rewrite lookup_insert_ne. Qed.

Lemma Model_find_frames (E : Env) (C : ref model) (emails : list jsval)
    (w w' : World) (r : jserror + list doc) :
  Model_find E C emails w = (w', r) -> frames C w w'.
Proof.
  unfold Model_find. destruct C as [m|b]; [|intros [= <- <-]; apply frames_refl].
  unfold bind, emit. simpl. destruct (env_find_fault E).
  - intros [= <- <-]. by apply (frames_events _ w [_]).
  - destruct (write_each _ _) as [[db' ins] errs]. intros [= <- <-].
    repeat split; try done.
    + intros uri Hne. rewrite db_of_with_db_ne by (by apply Hne). done.
    + by eexists [_].
Qed.

Lemma Model_insertMany_frames (E : Env) (C : ref model) (docs : list jsval)
    (o : bool) (w w' : World) (r : jserror + list doc) :
  Model_insertMany E C docs o w = (w', r) -> frames C w w'.
Proof.
  unfold Model_insertMany. destruct C as [m|b]; [|intros [= <- <-]; apply frames_refl].
  unfold bind, emit. simpl. destruct (env_insert_fault E).
  - intros [= <- <-]. by apply (frames_events _ w [_]).
  - destruct (db_insertMany _ _ _) as [db' r']. intros [= <- <-].
    repeat split; try done.
    + intros uri Hne. rewrite db_of_with_db_ne by (by apply Hne). done.
    + by eexists [_].
Qed.

(** After the routing of a request of the multi-campaign variant, every
    step frames the model the routing returned. *)
Lemma Campaign_process_frames (E : Env) (k u c : string) (cs : list jsval)
    (subject text : jsval) (w w' : World) (r : jserror + unit) :
  Campaign.process E k u c cs subject text w = (w', r) ->
  exists w1 rC,
    Campaign.getContactModel E k w = (w1, rC)
    /\ match rC with
       | inl e => w' = w1 /\ r = inl e
       | inr C => frames C w1 w'
       end.
Proof.
  intros (w1 & rC & Hm & Hpath)%Campaign_process_inv.
  exists w1, rC. split; [done|].
  destruct rC as [e1|C]; [done|].
  destruct (incomingEmails cs) as [e2|emails];
    [destruct Hpath as [-> _]; apply frames_refl|].
  destruct Hpath as (w2 & rF & Hf & Hpath).
  pose proof (Model_find_frames E C emails w1 w2 _ Hf) as Hfr2.
  destruct rF as [e3|existing]; [by destruct Hpath as [-> _]|].
  cbv zeta in Hpath.
  destruct (newContacts u c (existingEmails existing) cs) as [|n new].
  { destruct Hpath as [-> _]. eapply frames_trans; [done|]. by apply frames_events. }
  destruct Hpath as (w3 & rI & Hi & Hpath).
  pose proof (Model_insertMany_frames E C _ false w2 w3 _ Hi) as Hfr3.
  destruct rI as [e4|inserted];
    [destruct Hpath as [-> _]; by eapply frames_trans|].
  destruct (Campaign_finish_run E k subject text inserted w3) as (es & Hfin & _ & Hd).
  rewrite Hfin in Hpath. injection Hpath as <- <-.
  apply dispatch_events_silent in Hd as (_ & _ & _ & Hcd).
  eapply frames_trans; [done|]. eapply frames_trans; [done|].
  apply frames_events. unfold connects in *. by rewrite omap_app, Hcd.
Qed.

Lemma catch_events_connects (e : jserror) : connects (catch_events e) = [].
Proof. unfold catch_events. by case_bool_decide. Qed.

(** A request of the multi-campaign variant either never reaches the
    router, and then frames everything, or routes its campaign once and
    frames the model it got. *)
Lemma Campaign_handler_frames (E : Env) (req : Request) (w : World) :
  let w' := exec (Campaign.handler E req) w in
  frames (Builtin "") w w'
  \/ exists k w1 rC,
       req_header req "campaign" = Some k
       /\ truthy_string (js_lookup Campaign.CAMPAIGNS k) = true
       /\ Campaign.getContactModel E k w = (w1, rC)
       /\ frames (match rC with inr C => C | inl _ => Builtin "" end) w1 w'.
Proof.
  intros w'. unfold w'.
  destruct (Campaign.handler_try E req w) as [w0 r] eqn:Hrun.
  rewrite (Campaign_handler_exec E req w w0 r Hrun).
  destruct (Campaign_handler_try_inv E req w w0 r Hrun)
    as [[-> [e ->]] | [(msg & -> & ->) | (k & c & cs & subject & text & Hk & Ht & Hp)]].
  - left. apply frames_events, catch_events_connects.
  - left. by apply frames_events.
  - right. destruct (Campaign_process_frames E _ _ _ _ _ _ w w0 r Hp)
      as (w1 & rC & Hm & Hfr).
    exists k, w1, rC. split; [done|]. split; [done|]. split; [done|].
    destruct rC as [e1|C].
    + destruct Hfr as [-> ->]. simpl.
      apply (frames_events (Builtin "")), catch_events_connects.
    + simpl. destruct r as [e|[]]; [|exact Hfr].
      eapply frames_trans; [exact Hfr|]. apply frames_events, catch_events_connects.
Qed.

(** ** Coherence of the caches *)

Lemma coherent_world0 (E : Env) : coherent E world0.
Proof. repeat split; intros; simplify_map_eq. Qed.

Lemma coherent_frames (E : Env) (C : ref model) (w w' : World) :
  frames C w w' -> coherent E w -> coherent E w'.
Proof.
  intros (Hc & Hn & _) (H1 & H2 & H3). unfold caches in Hc.
  injection Hc as Hconn Hmc. unfold coherent. rewrite Hconn, Hmc, Hn. done.
Qed.

Lemma getContactModel_coherent (E : Env) (k : string) (w w1 : World)
    (r : jserror + ref model) :
  Campaign.getContactModel E k w = (w1, r) -> coherent E w -> coherent E w1.
Proof.
  intros Hrun (H1 & H2 & H3).
  destruct (getContactModel_cases E k w w1 _ Hrun)
    as (_ & [[-> _] | (dbName & c & Hm & Hk & _ & Hmc & Hconn)]); [done|].
  destruct Hconn as [(Hc & Hcs & Hn & _) | (Hc & -> & Hcs & Hn & _)];
    unfold coherent; rewrite Hmc, Hcs, Hn.
  - split; [done|]. split; [|done].
    intros k' m'. destruct (decide (k = k')) as [<-|Hne].
    + rewrite lookup_insert_eq. intros [= <-]. eauto.
    + rewrite lookup_insert_ne by done. apply H2.
  - split; [|split].
    + intros k' c'. destruct (decide (k = k')) as [<-|Hne].
      * rewrite lookup_insert_eq. intros [= <-]. exists dbName. simpl.
        repeat split; try done. lia.
      * rewrite lookup_insert_ne by done. intros Hc'.
        destruct (H1 k' c' Hc') as (d & ? & ? & ?). exists d.
        repeat split; try done. lia.
    + intros k' m'. destruct (decide (k = k')) as [<-|Hne].
      * rewrite !lookup_insert_eq. intros [= <-]. eauto.
      * rewrite !lookup_insert_ne by done. apply H2.
    + intros k1 k2 c1 c2.
      destruct (decide (k = k1)) as [<-|Hne1]; destruct (decide (k = k2)) as [<-|Hne2];
        rewrite ?lookup_insert_eq, ?lookup_insert_ne by done; try done.
      * intros [= <-] Hc2 Hid. destruct (H1 k2 c2 Hc2) as (_ & _ & _ & Hlt).
        simpl in Hid. lia.
      * intros Hc1 [= <-] Hid. destruct (H1 k1 c1 Hc1) as (_ & _ & _ & Hlt).
        simpl in Hid. lia.
      * apply H3.
Qed.

(** X5. Coherence of the caches is an invariant of the multi-campaign
    endpoint: it holds when the process starts and every request, valid or
    not, failing or not, keeps it.  So every cached connection leads to
    the database of the campaign it is cached under, every cached model is
    the [Contact] model of that connection, and no two campaigns share a
    handle. *)
Theorem handler_keeps_coherent (E : Env) (req : Request) (w : World) :
  coherent E w -> coherent E (exec (Campaign.handler E req) w).
Proof.
  intros Hw.
  destruct (Campaign_handler_frames E req w) as [Hfr | (k & w1 & rC & _ & _ & Hm & Hfr)].
  - eapply coherent_frames; [exact Hfr | exact Hw].
  - eapply coherent_frames; [exact Hfr|].
    by apply (getContactModel_coherent E k w w1 rC).
Qed.

Lemma handler_keeps_coherent_witness :
  let E := calm "mongodb://host" in
  coherent E world0
  /\ coherent E (exec (Campaign.handler E two_new_request) world0)
  /\ coherent E (exec (Campaign.handler E mixed_request)
                   (exec (Campaign.handler E two_new_request) world0)).
Proof.
  intros E. pose proof (coherent_world0 E) as H0.
  split; [exact H0|]. split.
  - apply handler_keeps_coherent. exact H0.
  - apply handler_keeps_coherent, handler_keeps_coherent. exact H0.
Defined.

(** ** Isolation of the campaigns *)

Lemma append_cancel_l (s a b : string) : s ++ a = s ++ b -> a = b.
Proof. induction s as [|x s IH]; simpl; [done|]. intros [= H]. auto. Qed.

Lemma connectionUri_inj (E : Env) (k1 k2 d1 d2 : string) :
  Campaign.CAMPAIGNS !! k1 = Some d1 ->
  Campaign.CAMPAIGNS !! k2 = Some d2 ->
  Campaign.connectionUri E d1 = Campaign.connectionUri E d2 ->
  k1 = k2.
Proof.
  intros H1%CAMPAIGNS_own H2%CAMPAIGNS_own.
  unfold Campaign.connectionUri, Campaign.BASE_MONGO_URI.
  intros Huri%append_cancel_l.
  repeat (apply elem_of_cons in H1 as [[= -> ->]|H1]);
    [..|by apply elem_of_nil in H1];
    repeat (apply elem_of_cons in H2 as [[= -> ->]|H2]);
    try done; by apply elem_of_nil in H2.
Qed.

(** In a coherent world the model the router returns for a key is bound to
    the database of that key, which is then a registered campaign. *)
Lemma routed_model_uri (E : Env) (k : string) (w w1 : World) (m : model) :
  coherent E w ->
  Campaign.getContactModel E k w = (w1, inr (Ref m)) ->
  exists dbName,
    Campaign.CAMPAIGNS !! k = Some dbName
    /\ conn_uri (model_conn m) = Campaign.connectionUri E dbName.
Proof.
  intros Hw Hrun.
  pose proof (getContactModel_coherent E k w w1 _ Hrun Hw) as (H1 & H2 & _).
  assert (modelCache w1 !! k = Some m) as Hm.
  { destruct (getContactModel_cases E k w w1 _ Hrun)
      as (_ & [[-> [(m' & Hm' & [= ->]) | [(_ & _ & [=]) | (_ & _ & _ & [=])]]]
              | (dbName & c & _ & _ & [= ->] & Hmc & _)]); [done|].
    by rewrite Hmc, lookup_insert_eq. }
  destruct (H2 k m Hm) as (c & Hc & ->).
  destruct (H1 k c Hc) as (dbName & ? & ? & _). eauto.
Qed.

(** X6. Campaigns are isolated: in a coherent world, a request leaves the
    collection of every registered campaign other than the one named in
    its [campaign] header exactly as it was, whatever the request carries
    and however it ends. *)
Theorem campaigns_isolated (E : Env) (req : Request) (w : World) (k' db' : string) :
  coherent E w ->
  Campaign.CAMPAIGNS !! k' = Some db' ->
  req_header req "campaign" ≠ Some k' ->
  db_of (exec (Campaign.handler E req) w) (Campaign.connectionUri E db')
  = db_of w (Campaign.connectionUri E db').
Proof.
  intros Hw Hk' Hne.
  destruct (Campaign_handler_frames E req w)
    as [(_ & _ & Hd & _) | (k & w1 & rC & Hk & _ & Hm & (_ & _ & Hd & _))].
  - by apply Hd.
  - destruct (getContactModel_cases E k w w1 _ Hm) as (Hdbs & _).
    rewrite Hd; [unfold db_of; by rewrite Hdbs|].
    intros m HC Huri. destruct rC as [e|C]; [done|]. subst C.
    destruct (routed_model_uri E k w w1 m Hw Hm) as (dbName & Hreg & Hm_uri).
    rewrite Hm_uri in Huri.
    apply Hne. rewrite Hk. f_equal.
    by apply (connectionUri_inj E k k' dbName db').
Qed.

Lemma campaigns_isolated_witness :
  let E := calm "mongodb://host" in
  db_of (exec (Campaign.handler E two_new_request) world_a)
        (Campaign.connectionUri E "campaign1_db")
  = db_of world_a (Campaign.connectionUri E "campaign1_db").
Proof.
  intros E.
  apply (campaigns_isolated E two_new_request world_a "campaign1" "campaign1_db").
  - repeat split; intros; simplify_map_eq.
  - reflexivity.
  - vm_compute. discriminate.
Defined.

(** ** Connections opened by a request *)

(** The connections a request opens: none, or the one the router creates
    for the campaign of the header when neither its model nor its
    connection is cached. *)
Lemma Campaign_handler_connects (E : Env) (req : Request) (w : World) :
  let w' := exec (Campaign.handler E req) w in
  connects (events_since w w') = []
  \/ exists k dbName,
       let c := Conn (created w) (Campaign.connectionUri E dbName) in
       req_header req "campaign" = Some k
       /\ Campaign.CAMPAIGNS !! k = Some dbName
       /\ modelCache w !! k = None
       /\ connections w !! k = None
       /\ connects (events_since w w') = [c]
       /\ connections w' !! k = Some c
       /\ modelCache w' !! k = Some (Model c "Contact" "contacts").
Proof.
  intros w'. unfold w'. clear w'.
  destruct (Campaign_handler_frames E req w)
    as [(_ & _ & _ & es & Ht & He)
       | (k & w1 & rC & Hk & _ & Hm & (Hc & _ & _ & es & Ht & He))].
  { left. by erewrite events_since_app. }
  unfold caches in Hc. injection Hc as Hconn Hmc.
  destruct (getContactModel_cases E k w w1 _ Hm)
    as (_ & [[-> _] | (dbName & c & Hm0 & Hreg & _ & Hmc1 & Hcases)]).
  { left. by erewrite events_since_app. }
  destruct Hcases as [(_ & _ & _ & Ht1) | (Hc0 & -> & Hconn1 & _ & Ht1)].
  { left. rewrite Ht1 in Ht. by erewrite events_since_app. }
  right. exists k, dbName. cbv zeta. repeat split; try done.
  - erewrite events_since_app; [|by rewrite Ht, Ht1, <- app_assoc].
    unfold connects in *. rewrite omap_app, He. done.
  - by rewrite Hconn, Hconn1, lookup_insert_eq.
  - by rewrite Hmc, Hmc1, lookup_insert_eq.
Qed.

(** X7. A request opens at most one connection.  It opens none when the
    model or the connection of its campaign is already cached; and the one
    it opens leads to the database of the registered campaign named in its
    header and is cached under that campaign. *)
Theorem at_most_one_connection (E : Env) (req : Request) (w : World) :
  let w' := exec (Campaign.handler E req) w in
  length (connects (events_since w w')) <= 1
  /\ (forall k, req_header req "campaign" = Some k ->
        is_Some (modelCache w !! k) \/ is_Some (connections w !! k) ->
        connects (events_since w w') = [])
  /\ (forall c, c ∈ connects (events_since w w') ->
        exists k dbName,
          req_header req "campaign" = Some k
          /\ Campaign.CAMPAIGNS !! k = Some dbName
          /\ conn_uri c
             = env_MONGO_URI E ++ "/" ++ dbName ++ "?retryWrites=true&w=majority"
          /\ connections w' !! k = Some c).
Proof.
  intros w'. unfold w'. clear w'.
  destruct (Campaign_handler_connects E req w)
    as [He | (k & dbName & Hk & Hreg & Hm & Hc & He & Hc' & _)].
  - rewrite He. split; [simpl; lia|]. split; [done|]. by intros c ?%elem_of_nil.
  - rewrite He. split; [done|]. split.
    + intros k0 Hk0 [[m Hm0] | [c0 Hc0]]; congruence.
    + intros c ->%list_elem_of_singleton. by exists k, dbName.
Qed.

Lemma at_most_one_connection_witness :
  let E := calm "mongodb://host" in
  let w1 := exec (Campaign.handler E two_new_request) world0 in
  connects (events_since w1 (exec (Campaign.handler E two_new_request) w1)) = [].
Proof.
  intros E w1.
  destruct (at_most_one_connection E two_new_request w1) as (_ & H & _).
  apply (H "campaign2"); [reflexivity|].
  left. vm_compute. by eexists.
Defined.

(** X8. Connections are reused across requests: once a request that
    passes validation has run for a campaign, whatever its outcome, no
    later request for that campaign opens a connection. *)
Theorem connection_reused (E1 E2 : Env) (req1 req2 : Request) (w : World)
    (campaign user_id conversation_id : string) (cs : list jsval)
    (subject text : jsval) :
  valid_request req1 campaign user_id conversation_id cs subject text ->
  req_header req2 "campaign" = Some campaign ->
  let w1 := exec (Campaign.handler E1 req1) w in
  length (connects (events_since w w1)) <= 1
  /\ connects (events_since w1 (exec (Campaign.handler E2 req2) w1)) = [].
Proof.
  intros Hv Hk2 w1.
  assert (is_Some (modelCache w1 !! campaign)) as Hcached.
  { destruct (vr_registered _ _ _ _ _ _ _ Hv) as [dbName Hreg].
    destruct (Campaign.handler_try E1 req1 w) as [w0 r] eqn:Hrun.
    unfold w1. rewrite (Campaign_handler_exec E1 req1 w w0 r Hrun).
    rewrite (Campaign_handler_try_valid E1 req1 _ _ _ _ _ _ Hv) in Hrun.
    destruct (Campaign_process_frames E1 _ _ _ _ _ _ w w0 r Hrun)
      as (wm & rC & Hm & Hfr).
    destruct (getContactModel_registered E1 campaign dbName w Hreg)
      as (m & wm' & _ & Hm' & _ & _ & _ & Hmc).
    rewrite Hm in Hm'. injection Hm' as <- ->.
    destruct Hfr as (Hc & _). unfold caches in Hc. injection Hc as _ Hmc0.
    exists m. destruct r; simpl; by rewrite Hmc0. }
  split.
  - destruct (Campaign_handler_connects E1 req1 w)
      as [He | (k & dbName & _ & _ & _ & _ & He & _)]; fold w1 in He; rewrite He;
      simpl; lia.
  - destruct (Campaign_handler_connects E2 req2 w1)
      as [He | (k & dbName & Hk & _ & Hm & _)]; [done|].
    rewrite Hk2 in Hk. injection Hk as <-. rewrite Hm in Hcached.
    by destruct Hcached.
Qed.

Lemma connection_reused_witness :
  let E := calm "mongodb://host" in
  let w1 := exec (Campaign.handler E twice_request) world0 in
  length (connects (events_since world0 w1)) <= 1
  /\ connects (events_since w1 (exec (Campaign.handler (flaky "mongodb://host")
                                        mixed_request) w1)) = [].
Proof.
  intros E.
  apply (connection_reused E (flaky "mongodb://host") twice_request mixed_request world0
           "campaign1" "u1" "c1" [contact "a@x.com"; contact "a@x.com"]
           (JStr "Hi") (JStr "Hello")).
  - exact twice_request_valid.
  - reflexivity.
Defined.

(** ** Validation, both variants *)

Lemma validation_fail_fast_witness :
  exec (Campaign.handler (calm "mongodb://host") anonymous_request) world0
  = with_trace world0
      [EvRespond 400 (error_body "Missing user_id or conversation_id in headers")].
Proof.
  destruct (validation_fail_fast (calm "mongodb://host") anonymous_request world0
              (JArr [contact "a@x.com"]) (JStr "Hi") (JStr "Hello")
              eq_refl eq_refl eq_refl) as (_ & H & _).
  apply H; reflexivity.
Defined.

Lemma unregistered_campaign_no_cache_entry_witness :
  let w' := exec (Campaign.handler (calm "mongodb://host") prototype_request) world0 in
  connections w' = connections world0 /\ modelCache w' = modelCache world0.
Proof.
  apply (unregistered_campaign_no_cache_entry (calm "mongodb://host")
           prototype_request world0).
  reflexivity.
Defined.

Lemma query_fault_is_500_witness :
  let E := offline "mongodb://host" in
  let w1 := exec (Campaign.getContactModel E "campaign1") world_a in
  let w' := exec (Campaign.handler E mixed_request) world_a in
  responses (events_since w1 w') = [(500, error_body "Internal server error")]
  /\ dbs w' = dbs w1.
Proof.
  intros E w1.
  apply (query_fault_is_500 E mixed_request "campaign1" "u1" "c1"
           [contact "a@x.com"; contact "b@x.com"] (JStr "Hi") (JStr "Hello")
           world_a w1
           (Model (Conn 0 "mongodb://host/campaign1_db?retryWrites=true&w=majority")
                  "Contact" "contacts")
           {| err_code := None; err_text := "MongoNetworkError: connection closed" |}).
  - exact mixed_request_valid.
  - vm_compute. reflexivity.
  - reflexivity.
  - discriminate.
Defined.

(** X10. The two checks of the single-database variant: a request whose
    body was parsed and that lacks a truthy [user_id] or [conversation_id]
    header is rejected first, and one whose [contacts] is not a non-empty
    array next; each rejection is a [400] with the message of the failing
    check and leaves the world, stores included, as it was but for that
    response. *)
Theorem Server2_validation_fail_fast (E : Env) (req : Request) (w : World)
    (contacts subject text : jsval) :
  js_prop (req_body req) "contacts" = inr contacts ->
  js_prop (req_body req) "subject" = inr subject ->
  js_prop (req_body req) "text" = inr text ->
  let ids := truthy_header (req_header req "user_id")
             && truthy_header (req_header req "conversation_id") in
  let reject msg := with_trace w (trace w ++ [EvRespond 400 (error_body msg)]) in
  (ids = false ->
     exec (Server2.handler E req) w
     = reject "Missing user_id or conversation_id in headers")
  /\ (ids = true -> (forall c cs, contacts ≠ JArr (c :: cs)) ->
     exec (Server2.handler E req) w
     = reject "Request must include an array of contacts").
Proof.
  intros Hc Hs Ht ids reject.
  unfold exec, Server2.handler, try_catch, Server2.handler_try.
  rewrite Hc, Hs, Ht. unfold bind, lift.
  replace (_ || _) with (negb ids) by (unfold ids; by rewrite negb_andb).
  split.
  - intros ->. done.
  - intros -> Hcs. simpl.
    destruct contacts as [| | | | |[|c cs]|]; try done.
    by destruct (Hcs c cs).
Qed.

Lemma Server2_validation_fail_fast_witness :
  exec (Server2.handler (calm "mongodb://host") anonymous_request) world_a
  = with_trace world_a
      [EvRespond 400 (error_body "Missing user_id or conversation_id in headers")].
Proof.
  destruct (Server2_validation_fail_fast (calm "mongodb://host") anonymous_request
              world_a (JArr [contact "a@x.com"]) (JStr "Hi") (JStr "Hello")
              eq_refl eq_refl eq_refl) as (H & _).
  apply H. reflexivity.
Defined.

(** ** Contacts that are not objects *)

Lemma Server2_handler_try_checked (E : Env) (req : Request)
    (user_id conversation_id : string) (cs : list jsval) (subject text : jsval) :
  checked_payload req user_id conversation_id cs subject text ->
  Server2.handler_try E req
  = Server2.process E user_id conversation_id cs subject text.
Proof.
  intros [Hu Hune Hc Hcne Hcs Hne Hs Ht].
  unfold Server2.handler_try. rewrite Hcs, Hs, Ht, Hu, Hc.
  unfold bind, lift; simpl. rewrite !eqb_empty_false by done. simpl.
  destruct cs; done.
Qed.

Lemma Campaign_handler_try_checked (E : Env) (req : Request)
    (campaign user_id conversation_id : string) (cs : list jsval) (subject text : jsval) :
  checked_request req campaign user_id conversation_id cs subject text ->
  Campaign.handler_try E req
  = Campaign.process E campaign user_id conversation_id cs subject text.
Proof.
  intros [Hk [dbName Hreg] [Hu Hune Hc Hcne Hcs Hne Hs Ht]].
  destruct (registered_lookup campaign dbName Hreg) as (Hl & Htr & Hp).
  assert (campaign ≠ "") as Hkne.
  { intros ->. by vm_compute in Hreg. }
  unfold Campaign.handler_try. rewrite Hcs, Hs, Ht, Hu, Hc, Hk.
  unfold bind, lift; simpl. rewrite !eqb_empty_false by done. simpl.
  rewrite Hl, Htr. simpl.
  destruct cs; done.
Qed.

Lemma catch_events_plain (e : jserror) :
  err_code e = None ->
  catch_events e
  = [EvError ("❌ Error in /get-unique-emails: " ++ err_text e);
     EvRespond 500 (error_body "Internal server error")].
Proof.
  intros He. unfold catch_events. rewrite bool_decide_eq_false_2; [done|].
  by rewrite He.
Qed.

Lemma incomingEmails_reads_aux (cs : list jsval) :
  match incomingEmails cs with
  | inl e => (JNull ∈ cs \/ JUndef ∈ cs) /\ err_code e = None
  | inr emails =>
      (JNull ∉ cs) /\ (JUndef ∉ cs)
      /\ emails = map email_of cs
      /\ forall c, c ∈ cs -> is_JObj c = false -> email_of c = JUndef
  end.
Proof.
  induction cs as [|c cs IH]; cbn [incomingEmails].
  - split; [apply not_elem_of_nil|]. split; [apply not_elem_of_nil|].
    split; [done|]. by intros c ?%elem_of_nil.
  - destruct (js_prop c "email") as [e|v] eqn:Hc.
    + destruct c; try discriminate; simpl in Hc; injection Hc as <-.
      * split; [right; apply list_elem_of_here | done].
      * split; [left; apply list_elem_of_here | done].
    + destruct (incomingEmails cs) as [e|emails].
      * destruct IH as [[H|H] He]; (split; [|done]);
          [left|right]; by apply list_elem_of_further.
      * destruct IH as (Hn & Hu & -> & Hp).
        split; [|split; [|split]].
        -- rewrite not_elem_of_cons. split; [by intros <-|done].
        -- rewrite not_elem_of_cons. split; [by intros <-|done].
        -- cbn [map]. f_equal. unfold email_of. by rewrite Hc.
        -- intros x [->|Hx]%elem_of_cons Hobj; [|by apply Hp].
           unfold email_of. by destruct c.
Qed.

(** X12. Reading the emails of the contacts, [contacts.map(c => c.email)]:
    the read throws, with a [TypeError] that carries no code, exactly when
    some element of the array is [null] or [undefined]; otherwise it
    yields one value per contact, in order, [undefined] for every contact
    that is a number, a string, a boolean or an array. *)
Theorem incomingEmails_reads (cs : list jsval) :
  match incomingEmails cs with
  | inl e => (JNull ∈ cs \/ JUndef ∈ cs) /\ err_code e = None
  | inr emails =>
      (JNull ∉ cs) /\ (JUndef ∉ cs)
      /\ emails = map email_of cs
      /\ forall c, c ∈ cs -> is_JObj c = false -> email_of c = JUndef
  end.
Proof. exact (incomingEmails_reads_aux cs). Qed.

Lemma incomingEmails_null (cs : list jsval) :
  JNull ∈ cs \/ JUndef ∈ cs ->
  exists e, incomingEmails cs = inl e /\ err_code e = None.
Proof.
  intros Hin. pose proof (incomingEmails_reads_aux cs) as H.
  destruct (incomingEmails cs) as [e|emails]; [exists e; tauto|].
  destruct H as (Hn & Hu & _). tauto.
Qed.

(** X13. A request that passes every check but whose [contacts] array
    holds a [null] or an [undefined] element, in both variants: the only
    response is [500] "Internal server error"; the store is neither queried
    nor written, no notification is sent, and every database is left as it
    was. *)
Theorem null_contact_is_500 (E : Env) (req : Request)
    (campaign user_id conversation_id : string) (cs : list jsval)
    (subject text : jsval) (w : World) :
  JNull ∈ cs \/ JUndef ∈ cs ->
  (checked_request req campaign user_id conversation_id cs subject text ->
   let w' := exec (Campaign.handler E req) w in
   responses (events_since w w') = [(500, error_body "Internal server error")]
   /\ queries (events_since w w') = []
   /\ inserts (events_since w w') = []
   /\ sends (events_since w w') = []
   /\ dbs w' = dbs w)
  /\
  (checked_payload req user_id conversation_id cs subject text ->
   let w' := exec (Server2.handler E req) w in
   responses (events_since w w') = [(500, error_body "Internal server error")]
   /\ queries (events_since w w') = []
   /\ inserts (events_since w w') = []
   /\ sends (events_since w w') = []
   /\ dbs w' = dbs w).
Proof.
  intros (e & He & Hcode)%incomingEmails_null. split.
  - intros Hv w'. unfold w'. clear w'.
    destruct (cr_registered _ _ _ _ _ _ _ Hv) as [dbName Hreg].
    destruct (getContactModel_registered E campaign dbName w Hreg)
      as (m & w1 & es1 & Hm & Hdbs & Ht1 & Hr1 & _).
    assert (Campaign.handler_try E req w = (w1, inl e)) as Hrun.
    { rewrite (Campaign_handler_try_checked E req _ _ _ _ _ _ Hv).
      unfold Campaign.process, bind at 1. rewrite Hm.
      unfold bind at 1, lift. by rewrite He. }
    rewrite (Campaign_handler_exec E req w w1 _ Hrun).
    rewrite (catch_events_plain e Hcode).
    apply router_events_silent in Hr1 as (Hq1 & Hi1 & Hs1 & Hr1).
    erewrite events_since_app; [|simpl; by rewrite Ht1, <- app_assoc].
    rewrite responses_app, queries_app, inserts_app, sends_app, Hq1, Hi1, Hs1, Hr1.
    done.
  - intros Hv w'. unfold w'. clear w'.
    assert (Server2.handler_try E req w = (w, inl e)) as Hrun.
    { rewrite (Server2_handler_try_checked E req _ _ _ _ _ Hv).
      unfold Server2.process, bind at 1, lift. by rewrite He. }
    rewrite (Server2_handler_exec E req w w _ Hrun).
    rewrite (catch_events_plain e Hcode).
    erewrite events_since_app; [|simpl; reflexivity]. done.
Qed.

Lemma null_contact_is_500_witness :
  let E := calm "mongodb://host" in
  let w' := exec (Campaign.handler E null_request) world_a in
  responses (events_since world_a w') = [(500, error_body "Internal server error")]
  /\ queries (events_since world_a w') = []
  /\ inserts (events_since world_a w') = []
  /\ sends (events_since world_a w') = []
  /\ dbs w' = dbs world_a.
Proof.
  intros E.
  assert (JNull ∈ [contact "a@x.com"; JNull]) as Hin
    by apply list_elem_of_further, list_elem_of_here.
  destruct (null_contact_is_500 E null_request "campaign1" "u1" "c1"
              [contact "a@x.com"; JNull] (JStr "Hi") (JStr "Hello") world_a
              (or_introl Hin)) as [H _].
  apply H.
  split; [reflexivity | by eexists |]. split; try reflexivity; discriminate.
Defined.

(** ** Submitting a batch again *)

Lemma newContacts_elem (user_id conversation_id : string) (existing : list doc)
    (cs : list jsval) (x : jsval) :
  x ∈ cs ->
  Set_has (existingEmails existing) (email_of x) = false ->
  augment user_id conversation_id x
  ∈ newContacts user_id conversation_id (existingEmails existing) cs.
Proof.
  intros Hx Hs. unfold newContacts. apply list_elem_of_fmap. exists x.
  split; [done|]. apply list_elem_of_In, filter_In.
  split; [by apply list_elem_of_In|]. by rewrite Hs.
Qed.

(** Once the unordered insert of the new contacts has run, the email of
    every contact of the batch that is a string and passes the schema is
    stored. *)
Lemma batch_emails_stored (user_id conversation_id : string) (cs : list jsval)
    (db cdb existing : list doc) :
  db_find db (map email_of cs) = inr existing ->
  (forall d, d ∈ db -> d ∈ cdb) ->
  (forall x, x ∈ cs ->
     exists e d, is_JObj x = true /\ email_of x = JStr e
                 /\ validate (augment user_id conversation_id x) = Some d) ->
  forall x, x ∈ cs ->
    exists e, email_of x = JStr e
      /\ e ∈ emails_of
             match newContacts user_id conversation_id (existingEmails existing) cs with
             | [] => cdb
             | new => (db_insertMany false cdb new).1
             end.
Proof.
  intros Hq Hsub Hall x Hx.
  destruct (Hall x Hx) as (e & d & Hobj & He & Hv).
  exists e. split; [done|].
  destruct (Set_has (existingEmails existing) (email_of x)) eqn:Hs.
  - apply Set_has_existing in Hs as (d0 & Hd0 & Heq).
    rewrite He in Heq. injection Heq as ->.
    apply (db_find_spec _ _ _ Hq) in Hd0 as [Hd0 _]. apply Hsub in Hd0.
    apply list_elem_of_fmap. exists d0. split; [done|].
    destruct (newContacts _ _ _ _); [done|].
    by apply insertMany_unordered_total.
  - pose proof (newContacts_elem user_id conversation_id existing cs x Hx Hs) as Hin.
    destruct (newContacts _ _ _ _) as [|n new] eqn:Hnew; [by apply elem_of_nil in Hin|].
    destruct x as [| | | | | |ps]; try done.
    destruct (validate_email _ _ _ _ Hv) as [Hcast _].
    unfold email_of in He. simpl in He. rewrite He in Hcast. injection Hcast as ->.
    by eapply insertMany_unordered_total.
Qed.

Lemma getContactModel_hit (E : Env) (k : string) (w : World) (m : model) :
  modelCache w !! k = Some m ->
  Campaign.getContactModel E k w = (w, inr (Ref m)).
Proof. intros Hm. unfold Campaign.getContactModel, js_lookup. by rewrite Hm. Qed.

(** A valid request leaves the model of its campaign in the cache. *)
Lemma Campaign_handler_caches_model (E : Env) (req : Request)
    (campaign user_id conversation_id : string) (cs : list jsval)
    (subject text : jsval) (w w1 : World) (m : model) :
  valid_request req campaign user_id conversation_id cs subject text ->
  Campaign.getContactModel E campaign w = (w1, inr (Ref m)) ->
  modelCache (exec (Campaign.handler E req) w) !! campaign = Some m.
Proof.
  intros Hv Hm.
  destruct (vr_registered _ _ _ _ _ _ _ Hv) as [dbName Hreg].
  destruct (getContactModel_registered E campaign dbName w Hreg)
    as (m' & w1' & _ & Hm' & _ & _ & _ & Hmc).
  rewrite Hm in Hm'. injection Hm' as <- <-.
  destruct (Campaign.handler_try E req w) as [w0 r] eqn:Hrun.
  rewrite (Campaign_handler_exec E req w w0 r Hrun).
  rewrite (Campaign_handler_try_valid E req _ _ _ _ _ _ Hv) in Hrun.
  destruct (Campaign_process_frames E _ _ _ _ _ _ w w0 r Hrun)
    as (wm & rC & Hm' & Hfr).
  rewrite Hm in Hm'. injection Hm' as <- <-.
  destruct Hfr as (Hc & _). unfold caches in Hc. injection Hc as _ Hmc0.
  destruct r; simpl; by rewrite Hmc0.
Qed.

(** The events of a valid request every contact of which is stored, when
    the model of its campaign is cached. *)
Lemma Campaign_all_existing_events (E : Env) (req : Request)
    (campaign user_id conversation_id : string) (cs : list jsval)
    (subject text : jsval) (w : World) (m : model) :
  valid_request req campaign user_id conversation_id cs subject text ->
  modelCache w !! campaign = Some m ->
  env_find_fault E = None ->
  (forall c, c ∈ cs ->
     exists s, email_of c = JStr s
               /\ s ∈ emails_of (db_of w (conn_uri (model_conn m)))) ->
  events_since w (exec (Campaign.handler E req) w)
  = [EvFind m (map email_of cs); EvRespond 200 (Campaign.already_exist campaign)].
Proof.
  intros Hv Hmc Hf Hall.
  pose proof (getContactModel_hit E campaign w m Hmc) as Hm.
  destruct (db_find_strings (db_of w (conn_uri (model_conn m))) cs) as [existing Hq].
  { intros c Hc. destruct (Hall c Hc) as (s & ? & _). eauto. }
  pose proof (newContacts_all_existing user_id conversation_id _ _ _ Hq Hall) as Hnew.
  pose proof (Campaign_handler_run E req _ _ _ _ _ _ w w m existing Hv Hm Hf Hq) as Hrun.
  cbv zeta in Hrun. rewrite Hnew in Hrun.
  apply events_since_app. rewrite Hrun. simpl. by rewrite <- !app_assoc.
Qed.

Lemma Server2_all_existing_events (E : Env) (req : Request)
    (user_id conversation_id : string) (cs : list jsval)
    (subject text : jsval) (w : World) :
  valid_payload req user_id conversation_id cs subject text ->
  env_find_fault E = None ->
  (forall c, c ∈ cs ->
     exists s, email_of c = JStr s
               /\ s ∈ emails_of (db_of w (Server2.MONGO_URI E))) ->
  events_since w (exec (Server2.handler E req) w)
  = [EvFind (Server2.Contact E) (map email_of cs); EvRespond 200 Server2.already_exist].
Proof.
  intros Hv Hf Hall.
  destruct (db_find_strings (db_of w (Server2.MONGO_URI E)) cs) as [existing Hq].
  { intros c Hc. destruct (Hall c Hc) as (s & ? & _). eauto. }
  pose proof (newContacts_all_existing user_id conversation_id _ _ _ Hq Hall) as Hnew.
  pose proof (Server2_handler_run E req _ _ _ _ _ w existing Hv Hf Hq) as Hrun.
  cbv zeta in Hrun. rewrite Hnew in Hrun.
  apply events_since_app. rewrite Hrun. simpl. by rewrite <- !app_assoc.
Qed.

(** X14. Submitting a batch again adds nothing.  Take a valid request
    whose contacts all carry a string email and pass the schema, and let
    the store answer its query and run its insert without a fault.  When
    the same request is then submitted again, in both variants, whatever
    the mail provider did the first time and whichever contacts were new
    then: the store is queried once and answers, the only response is
    [200] with the "already exist" message, no batch insert is issued, no
    notification is sent and no connection is opened. *)
Theorem resubmission_adds_nothing (E E2 : Env) (req : Request)
    (campaign user_id conversation_id : string) (cs : list jsval)
    (subject text : jsval) (w : World) :
  env_find_fault E = None ->
  env_insert_fault E = None ->
  env_find_fault E2 = None ->
  (forall x, x ∈ cs ->
     exists e d, is_JObj x = true /\ email_of x = JStr e
                 /\ validate (augment user_id conversation_id x) = Some d) ->
  (valid_request req campaign user_id conversation_id cs subject text ->
   let w1 := exec (Campaign.handler E req) w in
   let w2 := exec (Campaign.handler E2 req) w1 in
   responses (events_since w1 w2) = [(200, Campaign.already_exist campaign)]
   /\ queries (events_since w1 w2) = [map email_of cs]
   /\ inserts (events_since w1 w2) = []
   /\ sends (events_since w1 w2) = []
   /\ connects (events_since w1 w2) = [])
  /\
  (valid_payload req user_id conversation_id cs subject text ->
   env_MONGO_URI E2 = env_MONGO_URI E ->
   let w1 := exec (Server2.handler E req) w in
   let w2 := exec (Server2.handler E2 req) w1 in
   responses (events_since w1 w2) = [(200, Server2.already_exist)]
   /\ queries (events_since w1 w2) = [map email_of cs]
   /\ inserts (events_since w1 w2) = []
   /\ sends (events_since w1 w2) = []).
Proof.
  intros Hf Hi Hf2 Hall. split.
  - intros Hv w1 w2.
    destruct (vr_registered _ _ _ _ _ _ _ Hv) as [dbName Hreg].
    destruct (getContactModel_registered E campaign dbName w Hreg)
      as (m & wm & _ & Hm & _ & _ & _ & _).
    set (uri := conn_uri (model_conn m)).
    destruct (db_find_strings (db_of wm uri) cs) as [existing Hq].
    { intros c Hc. destruct (Hall c Hc) as (s & _ & _ & ? & _). eauto. }
    pose proof (Campaign_handler_store E req _ _ _ _ _ _ w wm m existing Hv Hm Hf Hq)
      as Hstore.
    cbv zeta in Hstore. rewrite Hi in Hstore. fold w1 uri in Hstore.
    pose proof (batch_emails_stored user_id conversation_id cs (db_of wm uri)
                  (concurrent_db E (db_of wm uri)) existing Hq
                  (concurrent_db_keeps E _) Hall) as Hstored.
    assert (forall c, c ∈ cs ->
              exists s, email_of c = JStr s /\ s ∈ emails_of (db_of w1 uri)) as Hall1.
    { intros c Hc. rewrite Hstore. destruct (Hstored c Hc) as (s & Hs & Hin).
      exists s. split; [done|]. by destruct (newContacts _ _ _ _). }
    pose proof (Campaign_handler_caches_model E req _ _ _ _ _ _ w wm m Hv Hm) as Hmc.
    fold w1 in Hmc.
    unfold w2.
    rewrite (Campaign_all_existing_events E2 req _ _ _ _ _ _ w1 m Hv Hmc Hf2 Hall1).
    done.
  - intros Hv Huri w1 w2.
    set (uri := Server2.MONGO_URI E).
    destruct (db_find_strings (db_of w uri) cs) as [existing Hq].
    { intros c Hc. destruct (Hall c Hc) as (s & _ & _ & ? & _). eauto. }
    pose proof (Server2_handler_store E req _ _ _ _ _ w existing Hv Hf Hq) as Hstore.
    cbv zeta in Hstore. rewrite Hi in Hstore. fold w1 uri in Hstore.
    pose proof (batch_emails_stored user_id conversation_id cs (db_of w uri)
                  (concurrent_db E (db_of w uri)) existing Hq
                  (concurrent_db_keeps E _) Hall) as Hstored.
    assert (forall c, c ∈ cs ->
              exists s, email_of c = JStr s
                        /\ s ∈ emails_of (db_of w1 (Server2.MONGO_URI E2))) as Hall1.
    { intros c Hc. unfold Server2.MONGO_URI. rewrite Huri.
      change (env_MONGO_URI E) with uri. rewrite Hstore.
      destruct (Hstored c Hc) as (s & Hs & Hin).
      exists s. split; [done|]. by destruct (newContacts _ _ _ _). }
    unfold w2.
    rewrite (Server2_all_existing_events E2 req _ _ _ _ _ w1 Hv Hf2 Hall1).
    done.
Qed.

Lemma resubmission_adds_nothing_witness :
  let E := flaky "mongodb://host" in
  let w1 := exec (Campaign.handler E mixed_request) world_a in
  let w2 := exec (Campaign.handler (racing "mongodb://host") mixed_request) w1 in
  responses (events_since w1 w2) = [(200, Campaign.already_exist "campaign1")]
  /\ queries (events_since w1 w2) = [[JStr "a@x.com"; JStr "b@x.com"]]
  /\ inserts (events_since w1 w2) = []
  /\ sends (events_since w1 w2) = []
  /\ connects (events_since w1 w2) = [].
Proof.
  intros E.
  assert (forall x, x ∈ [contact "a@x.com"; contact "b@x.com"] ->
            exists e d, is_JObj x = true /\ email_of x = JStr e
                        /\ validate (augment "u1" "c1" x) = Some d) as Hall.
  { intros x Hx.
    apply elem_of_cons in Hx as [->|Hx];
      [|apply elem_of_cons in Hx as [->|Hx]; [|by apply elem_of_nil in Hx]];
      eexists _, _; (split; [reflexivity|]); (split; [reflexivity|]);
      vm_compute; reflexivity. }
  destruct (resubmission_adds_nothing E (racing "mongodb://host") mixed_request
              "campaign1" "u1" "c1" [contact "a@x.com"; contact "b@x.com"]
              (JStr "Hi") (JStr "Hello") world_a eq_refl eq_refl eq_refl Hall)
    as [H _].
  apply H. exact mixed_request_valid.
Defined.

(** ** Contacts that carry no email *)

Lemma db_find_undefined (db : list doc) (cs : list jsval) :
  (forall x, x ∈ cs -> email_of x = JUndef) ->
  db_find db (map email_of cs) = inr [].
Proof.
  intros Hall. unfold db_find.
  assert (mapM castString (map email_of cs) = Some (map (fun _ => None) cs)) as ->.
  { apply mapM_Some. induction cs as [|x cs IH]; simpl; constructor.
    - by rewrite (Hall x) by apply list_elem_of_here.
    - apply IH. intros y Hy. apply Hall. by apply list_elem_of_further. }
  f_equal. induction db as [|d db IH]; [done|].
  rewrite filter_cons_False; [done|].
  by intros (x & ? & _)%list_elem_of_fmap.
Qed.

(** The schema requires [email]: an object without one is not a document. *)
Lemma validate_no_email (user_id conversation_id : string) (x : jsval) :
  is_JObj x = true -> email_of x = JUndef ->
  validate (augment user_id conversation_id x) = None.
Proof.
  destruct x as [| | | | | |ps]; try done. intros _ He.
  unfold email_of in He. simpl in He.
  destruct (augment_props user_id conversation_id (JObj ps)) as (ps' & -> & Hu & Hc & Hk).
  unfold validate. rewrite Hu, Hc, (Hk "email") by done. simpl spread. rewrite He.
  change (cast_path None JUndef) with (Some (@None string)).
  repeat (match goal with
          | |- context [cast_path ?o ?v] => destruct (cast_path o v); simpl; [|done]
          end).
  done.
Qed.

Lemma insertMany_no_email (user_id conversation_id : string) (cs : list jsval)
    (db : list doc) :
  forallb is_JObj cs = true ->
  (forall x, x ∈ cs -> email_of x = JUndef) ->
  db_insertMany false db (map (augment user_id conversation_id) cs) = (db, inr []).
Proof.
  intros Hobj Hall. unfold db_insertMany.
  assert (omap validate (map (augment user_id conversation_id) cs) = []) as ->; [|done].
  induction cs as [|x cs IH]; [done|].
  apply andb_prop in Hobj as [Hx Hobj].
  change (omap validate (map (augment user_id conversation_id) (x :: cs)))
    with (match validate (augment user_id conversation_id x) with
          | Some y => y :: omap validate (map (augment user_id conversation_id) cs)
          | None => omap validate (map (augment user_id conversation_id) cs)
          end).
  rewrite (validate_no_email _ _ x Hx) by (apply Hall, list_elem_of_here).
  apply IH; [done|]. intros y Hy. apply Hall. by apply list_elem_of_further.
Qed.

(** X15. A valid request none of whose contacts carries an [email], the
    store answering without a fault.  Every contact is taken for new and
    handed to the batch insert, which stores none of them; no notification
    is sent and the collection is left as it was when the query ran.  The
    multi-campaign variant answers [200] with [inserted: 0]; the
    single-database variant does not answer. *)
Theorem contacts_without_email (E : Env) (req : Request)
    (campaign user_id conversation_id : string) (cs : list jsval)
    (subject text : jsval) (w w1 : World) (m : model) :
  env_find_fault E = None ->
  env_insert_fault E = None ->
  (forall x, x ∈ cs -> email_of x = JUndef) ->
  (valid_request req campaign user_id conversation_id cs subject text ->
   Campaign.getContactModel E campaign w = (w1, inr (Ref m)) ->
   let w' := exec (Campaign.handler E req) w in
   responses (events_since w w') = [(200, processed campaign 0)]
   /\ inserts (events_since w w')
      = [(map (augment user_id conversation_id) cs, false)]
   /\ sends (events_since w w') = []
   /\ db_of w' (conn_uri (model_conn m))
      = concurrent_db E (db_of w (conn_uri (model_conn m))))
  /\
  (valid_payload req user_id conversation_id cs subject text ->
   let w' := exec (Server2.handler E req) w in
   responses (events_since w w') = []
   /\ inserts (events_since w w')
      = [(map (augment user_id conversation_id) cs, false)]
   /\ sends (events_since w w') = []
   /\ db_of w' (Server2.MONGO_URI E)
      = concurrent_db E (db_of w (Server2.MONGO_URI E))).
Proof.
  intros Hf Hi Hall. split.
  - intros Hv Hm w'. unfold w'. clear w'.
    pose proof (vr_payload _ _ _ _ _ _ _ Hv) as Hp.
    pose proof (vp_objects _ _ _ _ _ _ Hp) as Hobj.
    set (uri := conn_uri (model_conn m)).
    pose proof (db_find_undefined (db_of w1 uri) cs Hall) as Hq.
    pose proof (all_new_kept user_id conversation_id cs) as Hnew.
    pose proof (insertMany_no_email user_id conversation_id cs
                  (concurrent_db E (db_of w1 uri)) Hobj Hall) as Hins.
    assert (map (augment user_id conversation_id) cs ≠ []) as Hne.
    { pose proof (vp_nonempty _ _ _ _ _ _ Hp). by destruct cs. }
    destruct (vr_registered _ _ _ _ _ _ _ Hv) as [dbName Hreg].
    destruct (getContactModel_registered E campaign dbName w Hreg)
      as (m' & w1' & _ & Hm' & Hdbs & _).
    rewrite Hm in Hm'. injection Hm' as <- <-.
    assert (db_of w1 uri = db_of w uri) as Hdb by (unfold db_of; by rewrite Hdbs).
    destruct (Campaign_success_events E req _ _ _ _ _ _ w w1 m [] []
                (concurrent_db E (db_of w1 uri)) Hv Hm Hf Hq)
      as (es1 & es & Hr1 & Hd & Hs & ->); [by rewrite Hnew | done | by rewrite Hnew |].
    apply router_events_silent in Hr1 as (_ & Hi1 & Hs1 & Hr1).
    apply dispatch_events_silent in Hd as (_ & Hid & Hrd & _).
    rewrite Hnew.
    rewrite !responses_app, !inserts_app, !sends_app, Hr1, Hi1, Hs1, Hid, Hrd, Hs.
    split; [done|]. split; [done|]. split; [done|].
    pose proof (Campaign_handler_store E req _ _ _ _ _ _ w w1 m [] Hv Hm Hf Hq) as Hst.
    cbv zeta in Hst. rewrite Hi, Hnew in Hst. fold uri in Hst. rewrite Hins in Hst.
    rewrite Hst, Hdb. clear. by destruct (map (augment user_id conversation_id) cs).
  - intros Hp w'. unfold w'. clear w'.
    pose proof (vp_objects _ _ _ _ _ _ Hp) as Hobj.
    set (uri := Server2.MONGO_URI E).
    pose proof (db_find_undefined (db_of w uri) cs Hall) as Hq.
    pose proof (all_new_kept user_id conversation_id cs) as Hnew.
    pose proof (insertMany_no_email user_id conversation_id cs
                  (concurrent_db E (db_of w uri)) Hobj Hall) as Hins.
    assert (map (augment user_id conversation_id) cs ≠ []) as Hne.
    { pose proof (vp_nonempty _ _ _ _ _ _ Hp). by destruct cs. }
    destruct (Server2_success_unanswered E req _ _ _ _ _ w [] []
                (concurrent_db E (db_of w uri)) Hp Hf Hq)
      as (Hr & Hs); [by rewrite Hnew | done | by rewrite Hnew |].
    split; [done|]. split; [|split; [done|]].
    + destruct (Server2_handler_events E req _ _ _ _ _ w [] Hp Hf Hq)
        as (tail & Ht & ->).
      apply tail_events_silent in Ht as (_ & Hit).
      rewrite Hnew, !inserts_app, Hit. clear -Hne.
      destruct (map (augment user_id conversation_id) cs); [by destruct Hne | done].
    + pose proof (Server2_handler_store E req _ _ _ _ _ w [] Hp Hf Hq) as Hst.
      cbv zeta in Hst. rewrite Hi, Hnew in Hst. fold uri in Hst. rewrite Hins in Hst.
      rewrite Hst. clear. by destruct (map (augment user_id conversation_id) cs).
Qed.

Lemma nameless_request_valid :
  valid_request nameless_request "campaign1" "u1" "c1"
    [JObj [("name", JStr "Ann")]; JObj []] (JStr "Hi") (JStr "Hello").
Proof.
  split; [reflexivity | by eexists |].
  split; try reflexivity; discriminate.
Defined.

Lemma contacts_without_email_witness :
  let E := calm "mongodb://host" in
  let w' := exec (Campaign.handler E nameless_request) world_a in
  responses (events_since world_a w') = [(200, processed "campaign1" 0)]
  /\ inserts (events_since world_a w')
     = [(map (augment "u1" "c1") [JObj [("name", JStr "Ann")]; JObj []], false)]
  /\ sends (events_since world_a w') = []
  /\ db_of w' "mongodb://host/campaign1_db?retryWrites=true&w=majority"
     = [stored "u0" "c0" "a@x.com"].
Proof.
  intros E.
  assert (forall x, x ∈ [JObj [("name", JStr "Ann")]; JObj []] -> email_of x = JUndef)
    as Hall.
  { intros x Hx.
    apply elem_of_cons in Hx as [->|Hx];
      [|apply elem_of_cons in Hx as [->|Hx]; [|by apply elem_of_nil in Hx]];
      reflexivity. }
  destruct (contacts_without_email E nameless_request "campaign1" "u1" "c1"
              [JObj [("name", JStr "Ann")]; JObj []] (JStr "Hi") (JStr "Hello")
              world_a
              (exec (Campaign.getContactModel E "campaign1") world_a)
              (Model (Conn 0 "mongodb://host/campaign1_db?retryWrites=true&w=majority")
                     "Contact" "contacts")
              eq_refl eq_refl Hall) as [H _].
  apply H; [exact nameless_request_valid | vm_compute; reflexivity].
Defined.
